(** * OpenDify gateway: codec, request translator and streaming pipeline

    A shallow embedding of [main.py]: the zero-width conversation-id codec
    ([encode_conversation_id], [decode_conversation_id]), the request
    translator ([transform_openai_to_dify]), the response assembler
    ([transform_dify_to_openai], [sync_response]) and the streaming
    generator ([generate]) with its pacing function ([calculate_delay]).

    Python values are modelled as follows.
    - [str] is a list of code points ([text]); [bytes] is a list of
      integers in [0, 255].
    - A JSON object read with [.get(key, default)] is a record whose
      fields are options: [None] is an absent key.
    - A raised exception is the [Raise] constructor of [res].
    - [json.loads] is a parameter of the generator: it maps a payload to
      a JSON object, read as an event record, to a JSON value of another
      kind, or to nothing when the payload is not JSON. *)

From Stdlib Require Import ZArith List Bool String Ascii QArith Lia.
Import ListNotations.
Local Open Scope Z_scope.

(** ** Python values *)

Definition text := list Z.
Definition bytes := list Z.

Inductive exn : Type :=
| KeyError (key : string)
| ValueError
| AttributeError
| UnicodeEncodeError
| UnicodeDecodeError
| BinasciiError.

Inductive res (A : Type) : Type :=
| Ok (a : A)
| Raise (e : exn).
Arguments Ok {A} a.
Arguments Raise {A} e.

Definition bind {A B : Type} (r : res A) (k : A -> res B) : res B :=
  match r with
  | Ok a => k a
  | Raise e => Raise e
  end.

Notation "'let*' x ':=' r 'in' k" := (bind r (fun x => k))
  (at level 10, x name, r at level 100, k at level 200).

(** Truthiness of a [str]: the empty string is falsy. *)
Definition truthy (s : text) : bool :=
  match s with
  | [] => false
  | _ :: _ => true
  end.

(** Truthiness of a value that is [None] or a [str]. *)
Definition truthy_opt (o : option text) : bool :=
  match o with
  | None => false
  | Some s => truthy s
  end.

(** [d.get(key, "")] for a string-valued key. *)
Definition get_default (o : option text) : text :=
  match o with
  | None => []
  | Some s => s
  end.

Fixpoint text_eqb (a b : text) : bool :=
  match a, b with
  | [], [] => true
  | x :: a', y :: b' => (x =? y) && text_eqb a' b'
  | _, _ => false
  end.

(** [o == lit] for [o] the result of [d.get(key)]: [None] equals no literal. *)
Definition opt_is (o : option text) (lit : text) : bool :=
  match o with
  | None => false
  | Some s => text_eqb s lit
  end.

(** The code points of an ASCII literal. *)
Definition str (s : string) : text :=
  map (fun a => Z.of_N (N_of_ascii a)) (list_ascii_of_string s).

(** ** UTF-8, as [str.encode()] and [bytes.decode()] implement it *)

Definition is_surrogate (c : Z) : bool := (0xD800 <=? c) && (c <=? 0xDFFF).

(** A code point that [str.encode()] accepts. *)
Definition is_scalar (c : Z) : bool :=
  (0 <=? c) && (c <=? 0x10FFFF) && negb (is_surrogate c).

Definition cont (c : Z) (shift : Z) : Z :=
  Z.lor 0x80 (Z.land (Z.shiftr c shift) 0x3F).

Definition utf8_encode_char (c : Z) : res bytes :=
  if negb (is_scalar c) then Raise UnicodeEncodeError
  else if c <? 0x80 then Ok [c]
  else if c <? 0x800 then Ok [Z.lor 0xC0 (Z.shiftr c 6); cont c 0]
  else if c <? 0x10000 then Ok [Z.lor 0xE0 (Z.shiftr c 12); cont c 6; cont c 0]
  else Ok [Z.lor 0xF0 (Z.shiftr c 18); cont c 12; cont c 6; cont c 0].

Fixpoint utf8_encode (s : text) : res bytes :=
  match s with
  | [] => Ok []
  | c :: s' =>
      let* b := utf8_encode_char c in
      let* bs := utf8_encode s' in
      Ok (b ++ bs)
  end.

Definition is_cont (b : Z) : bool := Z.land b 0xC0 =? 0x80.

Definition low6 (b : Z) : Z := Z.land b 0x3F.

(** Strict decoding: truncated sequences, stray continuation bytes,
    overlong forms, surrogates and values above U+10FFFF are errors. *)
Fixpoint utf8_decode (bs : bytes) : res text :=
  match bs with
  | [] => Ok []
  | b0 :: r0 =>
      if (0 <=? b0) && (b0 <? 0x80) then
        let* s := utf8_decode r0 in Ok (b0 :: s)
      else if Z.land b0 0xE0 =? 0xC0 then
        match r0 with
        | b1 :: r1 =>
            let c := Z.lor (Z.shiftl (Z.land b0 0x1F) 6) (low6 b1) in
            if is_cont b1 && (0x80 <=? c) then
              let* s := utf8_decode r1 in Ok (c :: s)
            else Raise UnicodeDecodeError
        | _ => Raise UnicodeDecodeError
        end
      else if Z.land b0 0xF0 =? 0xE0 then
        match r0 with
        | b1 :: b2 :: r2 =>
            let c := Z.lor (Z.shiftl (Z.land b0 0x0F) 12)
                       (Z.lor (Z.shiftl (low6 b1) 6) (low6 b2)) in
            if is_cont b1 && is_cont b2 && (0x800 <=? c)
               && negb (is_surrogate c) then
              let* s := utf8_decode r2 in Ok (c :: s)
            else Raise UnicodeDecodeError
        | _ => Raise UnicodeDecodeError
        end
      else if Z.land b0 0xF8 =? 0xF0 then
        match r0 with
        | b1 :: b2 :: b3 :: r3 =>
            let c := Z.lor (Z.shiftl (Z.land b0 0x07) 18)
                       (Z.lor (Z.shiftl (low6 b1) 12)
                          (Z.lor (Z.shiftl (low6 b2) 6) (low6 b3))) in
            if is_cont b1 && is_cont b2 && is_cont b3
               && (0x10000 <=? c) && (c <=? 0x10FFFF) then
              let* s := utf8_decode r3 in Ok (c :: s)
            else Raise UnicodeDecodeError
        | _ => Raise UnicodeDecodeError
        end
      else Raise UnicodeDecodeError
  end.

(** A literal of the source file, given by its UTF-8 bytes. *)
Definition lit (s : string) : text :=
  match utf8_decode (str s) with
  | Ok t => t
  | Raise _ => []
  end.

(** ** Base64, as [base64.b64encode] and [base64.b64decode] implement it *)

(** The character of a 6-bit value in the standard alphabet. *)
Definition b64_char (v : Z) : Z :=
  if v <? 26 then v + 65
  else if v <? 52 then v - 26 + 97
  else if v <? 62 then v - 52 + 48
  else if v =? 62 then 43
  else 47.

Definition PAD : Z := 61.

Fixpoint b64encode (bs : bytes) : text :=
  match bs with
  | [] => []
  | [a] =>
      [b64_char (Z.shiftr a 2); b64_char (Z.shiftl (Z.land a 3) 4); PAD; PAD]
  | [a; b] =>
      [b64_char (Z.shiftr a 2);
       b64_char (Z.lor (Z.shiftl (Z.land a 3) 4) (Z.shiftr b 4));
       b64_char (Z.shiftl (Z.land b 15) 2); PAD]
  | a :: b :: c :: rest =>
      b64_char (Z.shiftr a 2)
      :: b64_char (Z.lor (Z.shiftl (Z.land a 3) 4) (Z.shiftr b 4))
      :: b64_char (Z.lor (Z.shiftl (Z.land b 15) 2) (Z.shiftr c 6))
      :: b64_char (Z.land c 63)
      :: b64encode rest
  end.

(** The decoding table: the 6-bit value of an alphabet character. *)
Definition b64_value (c : Z) : option Z :=
  if (65 <=? c) && (c <=? 90) then Some (c - 65)
  else if (97 <=? c) && (c <=? 122) then Some (c - 97 + 26)
  else if (48 <=? c) && (c <=? 57) then Some (c - 48 + 52)
  else if c =? 43 then Some 62
  else if c =? 47 then Some 63
  else None.

(** The loop of [binascii.a2b_base64] in its default, non-strict mode:
    [quad_pos] is the position in the current group of four, [leftchar]
    the bits not yet written, [pads] the padding characters just seen and
    [out] the bytes written so far, last first. *)
Fixpoint a2b_base64 (s : text) (quad_pos leftchar pads : Z) (out : bytes)
  : res bytes :=
  match s with
  | [] =>
      if quad_pos =? 0 then Ok (rev out) else Raise BinasciiError
  | ch :: s' =>
      if ch =? PAD then
        if (2 <=? quad_pos) && (4 <=? quad_pos + (pads + 1)) then Ok (rev out)
        else a2b_base64 s' quad_pos leftchar
               (if 2 <=? quad_pos then pads + 1 else pads) out
      else
        match b64_value ch with
        | None => a2b_base64 s' quad_pos leftchar pads out
        | Some v =>
            if quad_pos =? 0 then a2b_base64 s' 1 v 0 out
            else if quad_pos =? 1 then
              a2b_base64 s' 2 (Z.land v 0x0f) 0
                (Z.lor (Z.shiftl leftchar 2) (Z.shiftr v 4) :: out)
            else if quad_pos =? 2 then
              a2b_base64 s' 3 (Z.land v 0x03) 0
                (Z.lor (Z.shiftl leftchar 4) (Z.shiftr v 2) :: out)
            else
              a2b_base64 s' 0 0 0 (Z.lor (Z.shiftl leftchar 6) v :: out)
        end
  end.

(** [base64.b64decode(s)] for a [str] argument: the argument must be
    ASCII, then [a2b_base64] runs. *)
Definition b64decode (s : text) : res bytes :=
  if forallb (fun c => c <? 128) s then a2b_base64 s 0 0 0 []
  else Raise ValueError.

(** ** ConversationCodec *)

(** [char_map]: the glyph of a 3-bit digit. Every digit the encoder looks
    up is in [0, 7]. *)
Definition char_map (d : Z) : Z :=
  match d with
  | 0 => 0x200b
  | 1 => 0x200c
  | 2 => 0x200d
  | 3 => 0xfeff
  | 4 => 0x2060
  | 5 => 0x180e
  | 6 => 0x2061
  | _ => 0x2062
  end.

(** [char_to_val]: the digit of a glyph, [None] for any other character. *)
Definition char_to_val (c : Z) : option Z :=
  if c =? 0x200b then Some 0
  else if c =? 0x200c then Some 1
  else if c =? 0x200d then Some 2
  else if c =? 0xfeff then Some 3
  else if c =? 0x2060 then Some 4
  else if c =? 0x180e then Some 5
  else if c =? 0x2061 then Some 6
  else if c =? 0x2062 then Some 7
  else None.

(** [c in char_to_val]. *)
Definition is_glyph (c : Z) : bool :=
  match char_to_val c with
  | Some _ => true
  | None => false
  end.

(** [str.isalpha], [str.isupper] and [str.isdigit] on the characters the
    encoder meets, which are those of a Base64 string. *)
Definition isupper (c : Z) : bool := (65 <=? c) && (c <=? 90).
Definition islower (c : Z) : bool := (97 <=? c) && (c <=? 122).
Definition isalpha (c : Z) : bool := isupper c || islower c.
Definition isdigit (c : Z) : bool := (48 <=? c) && (c <=? 57).

(** The body of the loop over [encoded]: the glyphs of one Base64
    character. *)
Definition encode_char (c : Z) : text :=
  let val :=
    if isalpha c then
      if isupper c then c - 65 else c - 97 + 26
    else if isdigit c then (c - 48) + 52
    else if c =? 43 then 62
    else if c =? 47 then 63
    else 0 in
  let first := Z.land (Z.shiftr val 3) 0x7 in
  let second := Z.land val 0x7 in
  if c =? PAD then [char_map first] else [char_map first; char_map second].

Definition encode_conversation_id (conversation_id : text) : res text :=
  if negb (truthy conversation_id) then Ok []
  else
    let* raw := utf8_encode conversation_id in
    let encoded := b64encode raw in
    Ok (flat_map encode_char encoded).

(** The scan of [reversed(content)]: glyphs are collected until the first
    character outside the alphabet. *)
Fixpoint collect_glyphs (reversed_content : text) : text :=
  match reversed_content with
  | [] => []
  | c :: r => if is_glyph c then c :: collect_glyphs r else []
  end.

Definition digit_of (c : Z) : Z :=
  match char_to_val c with
  | Some d => d
  | None => 0
  end.

(** The loop [for i in range(0, len(space_chars), 2)]: one Base64
    character per pair of glyphs, a last unpaired glyph giving
    [first << 3]. *)
Fixpoint base64_chars_of (space_chars : text) : text :=
  match space_chars with
  | [] => []
  | [a] => [b64_char (Z.shiftl (digit_of a) 3)]
  | a :: b :: r =>
      b64_char (Z.lor (Z.shiftl (digit_of a) 3) (digit_of b))
      :: base64_chars_of r
  end.

Definition add_padding (base64_chars : text) : text :=
  let padding := Z.of_nat (List.length base64_chars) mod 4 in
  if padding =? 0 then base64_chars
  else base64_chars ++ repeat PAD (Z.to_nat (4 - padding)).

(** The body of the [try] block: [Ok None] is the early [return None]. *)
Definition decode_body (content : text) : res (option text) :=
  let space_chars := collect_glyphs (rev content) in
  if negb (truthy space_chars) then Ok None
  else
    let space_chars := rev space_chars in
    let base64_str := add_padding (base64_chars_of space_chars) in
    let* raw := b64decode base64_str in
    let* id := utf8_decode raw in
    Ok (Some id).

(** [except Exception: return None]. *)
Definition decode_conversation_id (content : text) : option text :=
  match decode_body content with
  | Ok r => r
  | Raise _ => None
  end.

(** ** RequestTranslator *)

(** One element of [messages]: a JSON object read through [.get("role")]
    and [.get("content")], and once through [["content"]]. *)
Record message : Type := Message {
  msg_role : option text;
  msg_content : option text
}.

Record openai_request : Type := OpenAIRequest {
  req_messages : option (list message);
  req_stream : option bool;
  req_user : option text;
  req_model : option text
}.

(** The outbound request. [dr_conversation_id] is [None] when the
    dictionary has no such key (the default mode) and [Some v] when it
    has, [v] being the value, possibly Python's [None]. *)
Record dify_request : Type := DifyRequest {
  dr_inputs : list (text * text);
  dr_query : text;
  dr_response_mode : text;
  dr_conversation_id : option (option text);
  dr_user : text
}.

Definition NL : text := [10].

Definition SYSTEM_PREFIX : text := lit "系统指令: ".
Definition QUESTION_PREFIX : text := lit "用户问题: ".
Definition CURRENT_QUESTION_PREFIX : text := lit "用户当前问题: ".

(** [f"系统指令: {system_content}\n\n用户问题: {user_query}"]. *)
Definition with_system (system_content user_query : text) : text :=
  SYSTEM_PREFIX ++ system_content ++ NL ++ NL ++ QUESTION_PREFIX ++ user_query.

(** [l[-1]] for a non-empty list, [None] for the empty one. *)
Fixpoint last_item {A : Type} (l : list A) : option A :=
  match l with
  | [] => None
  | [a] => Some a
  | _ :: l' => last_item l'
  end.

(** [sep.join(l)]. *)
Fixpoint join (sep : text) (l : list text) : text :=
  match l with
  | [] => []
  | [a] => a
  | a :: l' => a ++ sep ++ join sep l'
  end.

(** [system_messages[0].get("content", "")] when there is a system
    message, the initial [""] otherwise. *)
Definition system_content_of (messages : list message) : text :=
  match filter (fun msg => opt_is (msg_role msg) (str "system")) messages with
  | [] => []
  | msg :: _ => get_default (msg_content msg)
  end.

(** [messages[-1]["content"] if messages and
     messages[-1].get("role") != "system" else ""]. *)
Definition last_user_query (messages : list message) : res text :=
  match last_item messages with
  | Some msg =>
      if negb (opt_is (msg_role msg) (str "system")) then
        match msg_content msg with
        | Some c => Ok c
        | None => Raise (KeyError "content")
        end
      else Ok []
  | None => Ok []
  end.

(** The loop over [reversed(messages[:-1])] of the zero-width mode, entered
    with the current value of [conversation_id]. *)
Fixpoint scan_assistant (reversed_prior : list message)
    (conversation_id : option text) : option text :=
  match reversed_prior with
  | [] => conversation_id
  | msg :: r =>
      if opt_is (msg_role msg) (str "assistant") then
        let content := get_default (msg_content msg) in
        let conversation_id := decode_conversation_id content in
        if truthy_opt conversation_id then conversation_id
        else scan_assistant r conversation_id
      else scan_assistant r conversation_id
  end.

(** The loop over [messages[:-1]] of the history mode, entered with the
    current [history_messages] and [has_system_in_history]. *)
Fixpoint history_loop (prior : list message) (history_messages : list text)
    (has_system_in_history : bool) : list text * bool :=
  match prior with
  | [] => (history_messages, has_system_in_history)
  | msg :: r =>
      let role := get_default (msg_role msg) in
      let content := get_default (msg_content msg) in
      if truthy role && truthy content then
        history_loop r (history_messages ++ [role ++ str ": " ++ content])
          (if text_eqb role (str "system") then true
           else has_system_in_history)
      else history_loop r history_messages has_system_in_history
  end.

Definition response_mode_of (stream : option bool) : text :=
  match stream with
  | Some true => str "streaming"
  | _ => str "blocking"
  end.

Section Gateway.

(** [CONVERSATION_MEMORY_MODE], read from the environment at start-up. *)
Variable CONVERSATION_MEMORY_MODE : Z.

Definition transform_openai_to_dify (request : openai_request)
    (endpoint : text) : res (option dify_request) :=
  if text_eqb endpoint (str "/chat/completions") then
    let messages :=
      match req_messages request with Some l => l | None => [] end in
    let stream := req_stream request in
    let system_content := system_content_of messages in
    let user :=
      match req_user request with
      | Some u => u
      | None => str "default_user"
      end in
    if CONVERSATION_MEMORY_MODE =? 2 then
      let conversation_id :=
        if (1 <? Z.of_nat (List.length messages)) then
          scan_assistant (rev (removelast messages)) None
        else None in
      let* user_query := last_user_query messages in
      let user_query :=
        if truthy system_content && negb (truthy_opt conversation_id) then
          with_system system_content user_query
        else user_query in
      Ok (Some (DifyRequest [] user_query (response_mode_of stream)
                  (Some conversation_id) user))
    else
      let* user_query := last_user_query messages in
      let user_query :=
        if (1 <? Z.of_nat (List.length messages)) then
          let '(history_messages, has_system_in_history) :=
            history_loop (removelast messages) [] false in
          let history_messages :=
            if truthy system_content && negb has_system_in_history then
              (str "system: " ++ system_content) :: history_messages
            else history_messages in
          match history_messages with
          | [] => user_query
          | _ :: _ =>
              let history_context := join (NL ++ NL) history_messages in
              str "<history>" ++ NL ++ history_context ++ NL
              ++ str "</history>" ++ NL ++ NL
              ++ CURRENT_QUESTION_PREFIX ++ user_query
          end
        else if truthy system_content then
          with_system system_content user_query
        else user_query in
      Ok (Some (DifyRequest [] user_query (response_mode_of stream) None user))
  else Ok None.

(** *** ResponseAssembler, non-streaming *)

Record agent_thought : Type := AgentThought {
  th_thought : option text
}.

(** The upstream JSON reply of a blocking call. *)
Record dify_response : Type := DifyResponse {
  rs_answer : option text;
  rs_agent_thoughts : option (list agent_thought);
  rs_conversation_id : option text;
  rs_conversation_history : option (list message);
  rs_message_id : option text;
  rs_created : option Z
}.

(** The completion object: [object] is ["chat.completion"] and [choices]
    holds one choice of index 0 whose message has role ["assistant"]. *)
Record openai_response : Type := OpenAIResponse {
  or_id : text;
  or_created : Z;
  or_model : text;
  or_content : text;
  or_finish_reason : text
}.

(** The loop over [agent_thoughts]: each truthy [thought] overwrites
    [answer]. *)
Fixpoint last_thought (agent_thoughts : list agent_thought) (answer : text)
  : text :=
  match agent_thoughts with
  | [] => answer
  | thought :: r =>
      if truthy_opt (th_thought thought) then
        last_thought r (get_default (th_thought thought))
      else last_thought r answer
  end.

(** The loop over [history] that sets [has_conversation_id]. *)
Fixpoint history_has_id (history : list message) : bool :=
  match history with
  | [] => false
  | msg :: r =>
      if opt_is (msg_role msg) (str "assistant") then
        match decode_conversation_id (get_default (msg_content msg)) with
        | Some _ => true
        | None => history_has_id r
        end
      else history_has_id r
  end.

Definition get_history (o : option (list message)) : list message :=
  match o with
  | Some h => h
  | None => []
  end.

(** [transform_dify_to_openai] with [stream=False]; [now] is the reading
    of [time.time()]. *)
Definition transform_dify_to_openai (now : Z) (response : dify_response)
    (model : text) : res openai_response :=
  let answer :=
    match rs_answer response with
    | Some a => a
    | None =>
        match rs_agent_thoughts response with
        | Some agent_thoughts => last_thought agent_thoughts []
        | None => []
        end
    end in
  let* answer :=
    if CONVERSATION_MEMORY_MODE =? 2 then
      let conversation_id := get_default (rs_conversation_id response) in
      let history := get_history (rs_conversation_history response) in
      let has_conversation_id := history_has_id history in
      if truthy conversation_id && negb has_conversation_id then
        let* encoded := encode_conversation_id conversation_id in
        Ok (answer ++ encoded)
      else Ok answer
    else Ok answer in
  Ok (OpenAIResponse (get_default (rs_message_id response))
        (match rs_created response with Some t => t | None => now end)
        model answer (str "stop")).

(** The reply of [httpx]: [hr_json] is what [response.json()] returns,
    [None] when the body is not JSON. *)
Record http_response : Type := HttpResponse {
  hr_status_code : Z;
  hr_text : text;
  hr_json : option dify_response
}.

(** What [sync_response] hands to Flask: an error dictionary with a status
    code, a [Response] object carrying headers, or the bare completion
    dictionary. *)
Inductive flask_result : Type :=
| ErrorResult (message type : text) (code : Z) (status : Z)
| ResponseObject (body : openai_response) (headers : list (string * text))
| Dict (body : openai_response).

(** The headers the handler itself sets on the result. *)
Definition result_headers (r : flask_result) : list (string * text) :=
  match r with
  | ResponseObject _ headers => headers
  | _ => []
  end.

(** A header value holds a carriage return or a line feed: the [Headers]
    object of a [Response] refuses such a value with [ValueError]. *)
Definition has_newline (value : text) : bool :=
  existsb (fun c => (c =? 10) || (c =? 13)) value.

(** [sync_response] once [client.post] has returned [response]. The
    result is what the handler hands to Flask; an exception leaves
    [sync_response] and is caught by the handler. *)
Definition sync_response (now : Z) (model : text) (response : http_response)
  : res flask_result :=
  if negb (hr_status_code response =? 200) then
    let error_msg := str "Dify API error: " ++ hr_text response in
    Ok (ErrorResult error_msg (str "api_error") (hr_status_code response)
          (hr_status_code response))
  else
    let* dify_response :=
      match hr_json response with
      | Some r => Ok r
      | None => Raise ValueError
      end in
    let* openai_response := transform_dify_to_openai now dify_response model in
    let conversation_id := rs_conversation_id dify_response in
    if truthy_opt conversation_id then
      if has_newline (get_default conversation_id) then Raise ValueError
      else
        Ok (ResponseObject openai_response
              [("Conversation-Id"%string, get_default conversation_id)])
    else Ok (Dict openai_response).

(** *** StreamPacer *)

(** The delays are the decimal literals of the source, in seconds. *)
Definition calculate_delay (buffer_size : Z) : Q :=
  if buffer_size >? 30 then (1 # 1000)%Q
  else if buffer_size >? 20 then (2 # 1000)%Q
  else if buffer_size >? 10 then (1 # 100)%Q
  else (2 # 100)%Q.

(** The delay of the flush on [message_end]: [time.sleep(0.001)]. *)
Definition FLUSH_DELAY : Q := (1 # 1000)%Q.

(** *** Streaming generator *)

(** One upstream event record, as [json.loads] returns it. *)
Record dify_chunk : Type := DifyChunk {
  ch_event : option text;
  ch_answer : option text;
  ch_message_id : option text;
  ch_conversation_id : option text;
  ch_conversation_history : option (list message)
}.

(** What [json.loads] returns: a [dict], read as an event record, or a
    JSON value of another kind ([null], a boolean, a number, a string, a
    list), none of which has a [get] method. *)
Inductive json_value : Type :=
| JObject (chunk : dify_chunk)
| JOther.

(** The chunk object of [send_char] and the final chunk: [delta] is
    [{"content": char}] or [{}]. The [created] field holds the clock
    reading and is left out. *)
Record openai_chunk : Type := OpenAIChunk {
  oc_id : option text;
  oc_model : text;
  oc_delta_content : option text;
  oc_finish_reason : option text
}.

(** What follows ["data: "] in a yielded frame: a serialised chunk or a
    literal. *)
Inductive sse_payload : Type :=
| Json (chunk : openai_chunk)
| Literal (s : text).

(** The effects of the generator, in order. *)
Inductive action : Type :=
| Yield (payload : sse_payload)
| Sleep (seconds : Q).

Variable model : text.

Definition send_char (char : Z) (message_id : option text) : sse_payload :=
  Json (OpenAIChunk message_id model (Some [char]) None).

Definition final_chunk (message_id : option text) : sse_payload :=
  Json (OpenAIChunk message_id model None (Some (str "stop"))).

Definition DONE : sse_payload := Literal (str "[DONE]").

(** [generate.message_id] and [output_buffer]. *)
Record stream_state : Type := StreamState {
  message_id : option text;
  output_buffer : list (Z * option text)
}.

Definition initial_state : stream_state := StreamState None [].

(** [while output_buffer:] of the answer branches: each pop is followed by
    a sleep computed from what remains. *)
Fixpoint drain (output_buffer : list (Z * option text)) : list action :=
  match output_buffer with
  | [] => []
  | (char, msg_id) :: rest =>
      Yield (send_char char msg_id)
      :: Sleep (calculate_delay (Z.of_nat (List.length rest)))
      :: drain rest
  end.

(** [while output_buffer:] of the [message_end] branch. *)
Fixpoint flush (output_buffer : list (Z * option text)) : list action :=
  match output_buffer with
  | [] => []
  | (char, msg_id) :: rest =>
      Yield (send_char char msg_id) :: Sleep FLUSH_DELAY :: flush rest
  end.

(** What handling one event leaves behind: the new state, the effects
    performed, and the exception that ended the handling, if any. *)
Definition outcome : Type := stream_state * list action * option exn.

(** The branch shared by [message] and [agent_message] events that carry
    an [answer] key. *)
Definition on_answer (st : stream_state) (chunk : dify_chunk)
    (current_answer : text) : outcome :=
  if negb (truthy current_answer) then (st, [], None)
  else
    let new_id := get_default (ch_message_id chunk) in
    let mid :=
      if negb (truthy_opt (message_id st)) then Some new_id
      else message_id st in
    let output_buffer :=
      output_buffer st ++ map (fun char => (char, mid)) current_answer in
    (StreamState mid [], drain output_buffer, None).

Definition on_agent_thought (st : stream_state) (chunk : dify_chunk)
  : outcome :=
  let new_id := get_default (ch_message_id chunk) in
  if negb (truthy_opt (message_id st)) && truthy new_id then
    (StreamState (Some new_id) (output_buffer st), [], None)
  else (st, [], None).

Definition on_message_end (st : stream_state) (chunk : dify_chunk)
  : outcome :=
  let flushed := flush (output_buffer st) in
  let st := StreamState (message_id st) [] in
  let closing := [Yield (final_chunk (message_id st)); Yield DONE] in
  if CONVERSATION_MEMORY_MODE =? 2 then
    let conversation_id := ch_conversation_id chunk in
    let history := get_history (ch_conversation_history chunk) in
    let has_conversation_id := history_has_id history in
    if truthy_opt conversation_id && negb has_conversation_id then
      match encode_conversation_id (get_default conversation_id) with
      | Ok encoded =>
          (st,
           flushed
           ++ map (fun char => Yield (send_char char (message_id st))) encoded
           ++ closing,
           None)
      | Raise e => (st, flushed, Some e)
      end
    else (st, flushed ++ closing, None)
  else (st, flushed ++ closing, None).

(** The [if]/[elif] chain on [dify_chunk.get("event")]. *)
Definition handle_event (st : stream_state) (chunk : dify_chunk) : outcome :=
  let event := ch_event chunk in
  match opt_is event (str "message"), ch_answer chunk with
  | true, Some current_answer => on_answer st chunk current_answer
  | _, _ =>
      match opt_is event (str "agent_message"), ch_answer chunk with
      | true, Some current_answer => on_answer st chunk current_answer
      | _, _ =>
          if opt_is event (str "agent_thought") then on_agent_thought st chunk
          else if opt_is event (str "message_file") then (st, [], None)
          else if opt_is event (str "message_end") then on_message_end st chunk
          else (st, [], None)
      end
  end.

(** The events of a stream handled one after the other, each in its own
    pass of the loop. *)
Fixpoint run_events (st : stream_state) (events : list dify_chunk)
  : stream_state * list action :=
  match events with
  | [] => (st, [])
  | chunk :: r =>
      let '(st', acts, _) := handle_event st chunk in
      let '(st'', acts') := run_events st' r in
      (st'', acts ++ acts')
  end.

(** *** UpstreamEventParser *)

(** [json.loads] on the text after the prefix: [None] is
    [json.JSONDecodeError]. *)
Variable json_loads : text -> option json_value.

(** [str.isspace] for one character. *)
Definition isspace (c : Z) : bool :=
  ((0x09 <=? c) && (c <=? 0x0D)) || ((0x1C <=? c) && (c <=? 0x20))
  || (c =? 0x85) || (c =? 0xA0) || (c =? 0x1680)
  || ((0x2000 <=? c) && (c <=? 0x200A))
  || (c =? 0x2028) || (c =? 0x2029) || (c =? 0x202F) || (c =? 0x205F)
  || (c =? 0x3000).

Fixpoint lstrip (s : text) : text :=
  match s with
  | [] => []
  | c :: r => if isspace c then lstrip r else s
  end.

(** [line.strip()]. *)
Definition strip (s : text) : text := rev (lstrip (rev (lstrip s))).

(** [line.startswith(prefix)]. *)
Fixpoint startswith (line prefix : text) : bool :=
  match prefix, line with
  | [], _ => true
  | p :: prefix', c :: line' => (c =? p) && startswith line' prefix'
  | _ :: _, [] => false
  end.

(** The text handed to [json.loads] for one line, [None] when the line is
    skipped. *)
Definition payload_of (line : text) : option text :=
  let line := strip line in
  if negb (truthy line) || negb (startswith line (str "data: ")) then None
  else Some (skipn 6 line).

(** The body of [while '\n' in buffer] for one extracted line. A payload
    that is not JSON is skipped by the inner handler; on a JSON value
    that is not a [dict] the first [dify_chunk.get] raises
    [AttributeError], which the inner handler does not catch. *)
Definition handle_line (st : stream_state) (line : text) : outcome :=
  match payload_of line with
  | None => (st, [], None)
  | Some json_str =>
      match json_loads json_str with
      | None => (st, [], None)
      | Some JOther => (st, [], Some AttributeError)
      | Some (JObject chunk) => handle_event st chunk
      end
  end.

(** [while '\n' in buffer: line, buffer = buffer.split('\n', 1); ...],
    reading [buffer] from the left with the characters of the current line
    in [line], last first. When no newline is left the rest stays in the
    buffer; when the handling of a line raises, the outer handler moves
    to the next chunk and what follows that line stays in the buffer. *)
Fixpoint split_loop (buffer line : text) (st : stream_state)
  : stream_state * list action * text :=
  match buffer with
  | [] => (st, [], rev line)
  | c :: r =>
      if c =? 10 then
        match handle_line st (rev line) with
        | (st', acts, None) =>
            let '(st'', acts', buffer') := split_loop r [] st' in
            (st'', acts ++ acts', buffer')
        | (st', acts, Some _) => (st', acts, r)
        end
      else split_loop r (c :: line) st
  end.

(** The locals of [generate] that live across chunks. *)
Record generator : Type := Generator {
  gen_buffer : text;
  gen_state : stream_state
}.

(** The body of [for raw_bytes in response.iter_raw()]. *)
Definition on_raw_bytes (g : generator) (raw_bytes : bytes)
  : generator * list action :=
  match raw_bytes with
  | [] => (g, [])
  | _ :: _ =>
      match utf8_decode raw_bytes with
      | Raise _ => (g, [])
      | Ok decoded =>
          let '(st, acts, buffer) :=
            split_loop (gen_buffer g ++ decoded) [] (gen_state g) in
          (Generator buffer st, acts)
      end
  end.

Fixpoint generate_from (g : generator) (chunks : list bytes)
  : generator * list action :=
  match chunks with
  | [] => (g, [])
  | raw_bytes :: r =>
      let '(g', acts) := on_raw_bytes g raw_bytes in
      let '(g'', acts') := generate_from g' r in
      (g'', acts ++ acts')
  end.

(** Everything [generate] does for the chunks of [response.iter_raw()]. *)
Definition generate (chunks : list bytes) : list action :=
  snd (generate_from (Generator [] initial_state) chunks).

(** The frames written downstream. *)
Fixpoint yielded (acts : list action) : list sse_payload :=
  match acts with
  | [] => []
  | Yield p :: r => p :: yielded r
  | Sleep _ :: r => yielded r
  end.

(** The delays slept. *)
Fixpoint slept (acts : list action) : list Q :=
  match acts with
  | [] => []
  | Yield _ :: r => slept r
  | Sleep d :: r => d :: slept r
  end.

End Gateway.

Arguments send_char model char message_id : simpl never.
Arguments final_chunk model message_id : simpl never.

(** A text without a line feed: what the buffer holds between chunks. *)
Definition no_newline (l : text) : bool :=
  forallb (fun c => negb (c =? 10)) l.

(** The text of a stream of complete lines. *)
Definition unlines (lines : list text) : text :=
  List.concat (map (fun line => line ++ NL) lines).

(** The record read from one line, [None] when the line is skipped or its
    payload is not a JSON object. *)
Definition line_record (json_loads : text -> option json_value)
    (line : text) : option dify_chunk :=
  match payload_of line with
  | Some json_str =>
      match json_loads json_str with
      | Some (JObject record) => Some record
      | _ => None
      end
  | None => None
  end.

(** The records read from a sequence of lines, in order. *)
Definition records_of (json_loads : text -> option json_value)
    (lines : list text) : list dify_chunk :=
  flat_map (fun line =>
              match line_record json_loads line with
              | Some record => [record]
              | None => []
              end) lines.

(** ** Enumerated checks for the codec *)

(** [P] holds of every integer in [0, n): used to settle facts about
    bytes and 6-bit values by enumeration. *)
Fixpoint all_below (n : nat) (P : Z -> bool) : bool :=
  match n with
  | O => true
  | S k => P (Z.of_nat k) && all_below k P
  end.

(** The four 6-bit values of three bytes. *)
Definition six0 (a : Z) : Z := Z.shiftr a 2.
Definition six1 (a b : Z) : Z :=
  Z.lor (Z.shiftl (Z.land a 3) 4) (Z.shiftr b 4).
Definition six2 (b c : Z) : Z :=
  Z.lor (Z.shiftl (Z.land b 15) 2) (Z.shiftr c 6).
Definition six3 (c : Z) : Z := Z.land c 63.

(** A 6-bit value. *)
Definition in6 (v : Z) : bool := (0 <=? v) && (v <? 64).

(** What the codec needs of one 6-bit value [v]: its Base64 character is
    encoded as two glyphs that are read back as [v], and is an ASCII
    character of the alphabet, not the padding. *)
Definition sextet_ok (v : Z) : bool :=
  match encode_char (b64_char v) with
  | [g1; g2] =>
      is_glyph g1 && is_glyph g2
      && (Z.lor (Z.shiftl (digit_of g1) 3) (digit_of g2) =? v)
  | _ => false
  end
  && match b64_value (b64_char v) with Some w => w =? v | None => false end
  && (b64_char v <? 128) && negb (b64_char v =? PAD).

(** The middle 6-bit values of a group share their bits between two
    neighbouring bytes. *)
Definition pair_ok (x y : Z) : bool :=
  in6 (six1 x y) && in6 (six2 x y)
  && (Z.shiftr (six1 x y) 4 =? Z.land x 3)
  && (Z.land (six1 x y) 15 =? Z.shiftr y 4)
  && (Z.shiftr (six2 x y) 2 =? Z.land x 15)
  && (Z.land (six2 x y) 3 =? Z.shiftr y 6).

(** A byte is rebuilt from its high and low parts. *)
Definition byte_ok (a : Z) : bool :=
  in6 (six0 a) && in6 (six3 a)
  && (Z.lor (Z.shiftl (six0 a) 2) (Z.land a 3) =? a)
  && (Z.lor (Z.shiftl (Z.shiftr a 4) 4) (Z.land a 15) =? a)
  && (Z.lor (Z.shiftl (Z.shiftr a 6) 6) (six3 a) =? a).

(** The lead bytes of two-, three- and four-byte UTF-8 sequences and the
    continuation bytes, with the tests [utf8_decode] applies to them. *)
Definition lead2_ok (k : Z) : bool :=
  let b0 := Z.lor 0xC0 k in
  (0 <=? b0) && (b0 <? 256) && negb ((0 <=? b0) && (b0 <? 0x80))
  && (Z.land b0 0xE0 =? 0xC0) && (Z.land b0 0x1F =? k).

Definition lead3_ok (k : Z) : bool :=
  let b0 := Z.lor 0xE0 k in
  (0 <=? b0) && (b0 <? 256) && negb ((0 <=? b0) && (b0 <? 0x80))
  && negb (Z.land b0 0xE0 =? 0xC0)
  && (Z.land b0 0xF0 =? 0xE0) && (Z.land b0 0x0F =? k).

Definition lead4_ok (k : Z) : bool :=
  let b0 := Z.lor 0xF0 k in
  (0 <=? b0) && (b0 <? 256) && negb ((0 <=? b0) && (b0 <? 0x80))
  && negb (Z.land b0 0xE0 =? 0xC0) && negb (Z.land b0 0xF0 =? 0xE0)
  && (Z.land b0 0xF8 =? 0xF0) && (Z.land b0 0x07 =? k).

Definition cont_ok (m : Z) : bool :=
  let b := Z.lor 0x80 m in
  (0 <=? b) && (b <? 256) && is_cont b && (low6 b =? m).

(** An integer in [0, 255]. *)
Definition is_byte (b : Z) : bool := (0 <=? b) && (b <? 256).

(** The 6-bit values of a byte string made of whole groups of three. *)
Fixpoint sextets (raw : bytes) : list Z :=
  match raw with
  | a :: b :: c :: rest =>
      six0 a :: six1 a b :: six2 b c :: six3 c :: sextets rest
  | _ => []
  end.

(** A byte string made of whole groups of three. *)
Inductive triples : bytes -> Prop :=
| triples_nil : triples []
| triples_cons (a b c : Z) (rest : bytes) :
    triples rest -> triples (a :: b :: c :: rest).

(** The last character of a text, if any, is not a glyph: a token put
    after the text is the whole trailing run. *)
Definition ends_visible (carrier : text) : bool :=
  match last_item carrier with
  | Some c => negb (is_glyph c)
  | None => true
  end.

(** ** Inputs used in the statements below *)

Definition chat_completions : text := str "/chat/completions".

Definition message_Hi : dify_chunk :=
  DifyChunk (Some (str "message")) (Some (str "Hi")) None None None.

Definition message_end_s1 (history : option (list message)) : dify_chunk :=
  DifyChunk (Some (str "message_end")) None None (Some (str "s1")) history.

(** The glyphs of the id ["abc123"]. *)
Definition token_abc123 : text :=
  match encode_conversation_id (str "abc123") with
  | Ok token => token
  | Raise _ => []
  end.

(** [s] between double quotes. *)
Definition quoted (s : text) : text := [34] ++ s ++ [34].

(** The line [data: {"event": "message", "answer": "é"}] as the upstream
    sends it: its payload, and its bytes cut between the two bytes [C3 A9]
    of ['é']. *)
Definition answer_payload : text :=
  str "{" ++ quoted (str "event") ++ str ": " ++ quoted (str "message")
  ++ str ", " ++ quoted (str "answer") ++ str ": " ++ quoted [0xE9]
  ++ str "}".

Definition line_head : bytes :=
  str "data: {" ++ quoted (str "event") ++ str ": " ++ quoted (str "message")
  ++ str ", " ++ quoted (str "answer") ++ str ": " ++ [34; 0xC3].

Definition line_tail : bytes := [0xA9; 34] ++ str "}" ++ NL.

(** The record [json.loads] returns for [answer_payload]. *)
Definition answer_record : dify_chunk :=
  DifyChunk (Some (str "message")) (Some [0xE9]) None None None.

(** A reader that knows [answer_payload] and rejects every other text. *)
Definition reads_answer_payload (s : text) : option json_value :=
  if text_eqb s answer_payload then Some (JObject answer_record) else None.

(** The frames expected downstream for ["Hi"] followed by [token], all
    under the message id [""] that an event without [message_id] leaves. *)
Definition frames_Hi_then (model token : text) : list sse_payload :=
  [send_char model 72 (Some []); send_char model 105 (Some [])]
  ++ map (fun glyph => send_char model glyph (Some [])) token
  ++ [Json (OpenAIChunk (Some []) model None (Some (str "stop")));
      Literal (str "[DONE]")].

(** The last 6-bit value of an incomplete group: the low bits of its last
    byte, shifted up, the bits below being zero. *)
Definition tail_ok (a : Z) : bool :=
  let v1 := Z.shiftl (Z.land a 3) 4 in
  let v2 := Z.shiftl (Z.land a 15) 2 in
  in6 v1 && (Z.shiftr v1 4 =? Z.land a 3) && (Z.land v1 15 =? 0)
  && in6 v2 && (Z.shiftr v2 2 =? Z.land a 15) && (Z.land v2 3 =? 0).

(** The bytes left after the whole groups of three. *)
Fixpoint remainder (raw : bytes) : bytes :=
  match raw with
  | _ :: _ :: _ :: rest => remainder rest
  | _ => raw
  end.

(** The whole groups of three at the front. *)
Fixpoint whole_groups (raw : bytes) : bytes :=
  match raw with
  | a :: b :: c :: rest => a :: b :: c :: whole_groups rest
  | _ => []
  end.

(** ** What a client reads from the frames *)


(** The frame is the literal [[DONE]]. *)
Definition is_done (frame : sse_payload) : bool :=
  match frame with
  | Literal s => text_eqb s (str "[DONE]")
  | Json _ => false
  end.

(** The frame is a chunk with finish reason ["stop"]. *)
Definition is_stop (frame : sse_payload) : bool :=
  match frame with
  | Json chunk => opt_is (oc_finish_reason chunk) (str "stop")
  | Literal _ => false
  end.

(** The event is [message] or [agent_message]. *)
Definition is_answer_event (chunk : dify_chunk) : bool :=
  opt_is (ch_event chunk) (str "message")
  || opt_is (ch_event chunk) (str "agent_message").

(** The answer text an event contributes: that of a [message] or
    [agent_message] event, nothing for any other event. *)
Definition answer_text (chunk : dify_chunk) : text :=
  if is_answer_event chunk then get_default (ch_answer chunk) else [].

Definition is_end_event (chunk : dify_chunk) : bool :=
  opt_is (ch_event chunk) (str "message_end").

(** The id an answer event leaves in the stream state. *)
Definition stream_id (st : stream_state) (chunk : dify_chunk) : option text :=
  if truthy_opt (message_id st) then message_id st
  else Some (get_default (ch_message_id chunk)).

(** The depths at which the delays of a queue of [n] characters are
    computed: [n - 1] down to [0]. *)
Definition depths (n : nat) : list Z := map Z.of_nat (rev (seq 0 n)).

(** ** The transcript of the history mode *)

(** The message is rendered in the transcript: both its role and its
    content are non-empty. *)
Definition is_rendered (msg : message) : bool :=
  truthy (get_default (msg_role msg)) && truthy (get_default (msg_content msg)).

(** [f"{role}: {content}"]. *)
Definition render (msg : message) : text :=
  get_default (msg_role msg) ++ str ": " ++ get_default (msg_content msg).

(** The lines of the prior messages, in order. *)
Definition transcript (prior : list message) : list text :=
  map render (filter is_rendered prior).

(** Some rendered prior message is a system message. *)
Definition renders_system (prior : list message) : bool :=
  existsb (fun msg => text_eqb (get_default (msg_role msg)) (str "system"))
    (filter is_rendered prior).

(** The query of the history mode around its lines. *)
Definition history_query (lines : list text) (user_query : text) : text :=
  match lines with
  | [] => user_query
  | _ :: _ =>
      str "<history>" ++ NL ++ join (NL ++ NL) lines ++ NL
      ++ str "</history>" ++ NL ++ NL ++ CURRENT_QUESTION_PREFIX ++ user_query
  end.

(** The user text read from the last message. *)
Definition question_of (final : message) : text :=
  if opt_is (msg_role final) (str "system") then []
  else get_default (msg_content final).

(** The last message can be read: it is a system message or has a
    [content] key. *)
Definition readable (final : message) : bool :=
  opt_is (msg_role final) (str "system")
  || match msg_content final with Some _ => true | None => false end.

(** The thought of the last element of [agent_thoughts] whose [thought]
    is non-empty. *)
Definition final_thought (agent_thoughts : list agent_thought) : text :=
  match find (fun t => truthy_opt (th_thought t)) (rev agent_thoughts) with
  | Some t => get_default (th_thought t)
  | None => []
  end.

(** The answer the assembler starts from: the [answer] key when present,
    else the last non-empty thought. *)
Definition selected_answer (response : dify_response) : text :=
  match rs_answer response with
  | Some a => a
  | None =>
      match rs_agent_thoughts response with
      | Some agent_thoughts => final_thought agent_thoughts
      | None => []
      end
  end.

(** ** Configuration read from the environment *)

(** [s.split(sep)] for a separator of one character: the pieces between
    the separators, empty ones included. *)
Fixpoint split_on (sep : Z) (s : text) : list text :=
  match s with
  | [] => [[]]
  | c :: r =>
      if c =? sep then [] :: split_on sep r
      else
        match split_on sep r with
        | piece :: pieces => (c :: piece) :: pieces
        | [] => [[c]]
        end
  end.

Definition COMMA : Z := 44.

(** [VALID_API_KEYS]: [[key.strip() for key in value.split(",") if key]],
    [value] being the variable or [""]. *)
Definition valid_api_keys (value : option text) : list text :=
  map strip (filter truthy (split_on COMMA (get_default value))).

(** [load_api_keys]: what [self.api_keys], initially empty, holds after
    the call. *)
Definition load_api_keys (value : option text) : list text :=
  let api_keys_str := get_default value in
  if truthy api_keys_str then
    map strip
      (filter (fun key => truthy (strip key)) (split_on COMMA api_keys_str))
  else [].

(** ** DifyModelManager *)

(** A [dict] with [str] keys and values, in insertion order. *)
Definition dict : Type := list (text * text).

(** [d.get(key)]. *)
Fixpoint dict_get (d : dict) (key : text) : option text :=
  match d with
  | [] => None
  | (k, v) :: r => if text_eqb k key then Some v else dict_get r key
  end.

(** [d[key] = value]: an existing key keeps its place. *)
Fixpoint dict_set (d : dict) (key value : text) : dict :=
  match d with
  | [] => [(key, value)]
  | (k, v) :: r =>
      if text_eqb k key then (k, value) :: r
      else (k, v) :: dict_set r key value
  end.

(** [d.keys()]. *)
Definition dict_keys (d : dict) : list text := map fst d.

Record model_manager : Type := ModelManager {
  api_keys : list text;
  name_to_api_key : dict;
  api_key_to_name : dict
}.

(** The outcome of [client.get(f"{DIFY_API_BASE}/info", ...)] and of
    reading its body: a status code with the [name] of the JSON body, or
    an exception. *)
Inductive info_outcome : Type :=
| InfoReplied (status_code : Z) (name : option text)
| InfoRaised.

(** [fetch_app_info] once the upstream has answered. *)
Definition fetch_app_info (outcome : info_outcome) : option text :=
  match outcome with
  | InfoReplied status_code name =>
      if status_code =? 200 then
        Some (match name with Some n => n | None => str "Unknown App" end)
      else None
  | InfoRaised => None
  end.

(** The name a key is registered under: the fetched name, if not empty. *)
Definition registered_name (info : text -> info_outcome) (api_key : text)
  : option text :=
  match fetch_app_info (info api_key) with
  | Some app_name => if truthy app_name then Some app_name else None
  | None => None
  end.

(** The loop of [refresh_model_info] over [self.api_keys]; [info] is what
    the upstream answers for each key. *)
Fixpoint refresh_loop (info : text -> info_outcome) (keys : list text)
    (name_to_api_key api_key_to_name : dict) : dict * dict :=
  match keys with
  | [] => (name_to_api_key, api_key_to_name)
  | api_key :: r =>
      match fetch_app_info (info api_key) with
      | Some app_name =>
          if truthy app_name then
            refresh_loop info r (dict_set name_to_api_key app_name api_key)
              (dict_set api_key_to_name api_key app_name)
          else refresh_loop info r name_to_api_key api_key_to_name
      | None => refresh_loop info r name_to_api_key api_key_to_name
      end
  end.

(** [refresh_model_info]: both maps are cleared, then rebuilt. *)
Definition refresh_model_info (info : text -> info_outcome)
    (manager : model_manager) : model_manager :=
  let '(name_to_api_key, api_key_to_name) :=
    refresh_loop info (api_keys manager) [] [] in
  ModelManager (api_keys manager) name_to_api_key api_key_to_name.

(** [DifyModelManager.get_api_key] and the module's [get_api_key], which
    only adds a log line. *)
Definition get_api_key (manager : model_manager) (model_name : text)
  : option text :=
  dict_get (name_to_api_key manager) model_name.

(** One entry of the model list: [object] is ["model"] and [owned_by] is
    ["dify"]. *)
Record model_entry : Type := ModelEntry {
  me_id : text;
  me_created : Z
}.

Definition get_available_models (now : Z) (manager : model_manager)
  : list model_entry :=
  map (fun name => ModelEntry name now) (dict_keys (name_to_api_key manager)).

(** [list_models]: the registry after the refresh and the [data] of the
    reply. *)
Definition list_models (info : text -> info_outcome) (now : Z)
    (manager : model_manager) : model_manager * list model_entry :=
  let manager := refresh_model_info info manager in
  (manager, get_available_models now manager).

(** ** The handler of [/v1/chat/completions] *)

(** [s.split()]: the maximal runs of characters that are not white space;
    [word] holds the current run, last character first. *)
Fixpoint split_ws_from (s word : text) : list text :=
  match s with
  | [] =>
      match word with
      | [] => []
      | _ :: _ => [rev word]
      end
  | c :: r =>
      if isspace c then
        match word with
        | [] => split_ws_from r []
        | _ :: _ => rev word :: split_ws_from r []
        end
      else split_ws_from r (c :: word)
  end.

Definition split_ws (s : text) : list text := split_ws_from s [].

(** [s.lower()] on the letters A to Z. No other character is mapped by
    [str.lower] to a letter of ["bearer"], the only word the result is
    compared with. *)
Definition lower (s : text) : text :=
  map (fun c => if (65 <=? c) && (c <=? 90) then c + 32 else c) s.

(** [key in keys]. *)
Definition key_in (key : text) (keys : list text) : bool :=
  existsb (text_eqb key) keys.

Record http_request : Type := HttpRequest {
  hq_authorization : option text;
  hq_json : openai_request
}.

(** What [client.post] gives [sync_response]: a reply, or
    [httpx.RequestError] with its text. *)
Inductive post_outcome : Type :=
| Replied (response : http_response)
| RequestError (message : text).

(** What the handler returns. [Refused] is an error dictionary with its
    status; [StreamingResponse] is the [Response] around the generator,
    with the upstream key and request the generator will use;
    [Completed] is the result of [sync_response] for the upstream key and
    request that were posted; [InternalError] is the reply with status 500
    built from an exception. *)
Inductive handler_result : Type :=
| Refused (status : Z) (message type : text) (code : option text)
| StreamingResponse (api_key : text) (request : dify_request) (model : text)
| Completed (api_key : text) (request : dify_request) (result : flask_result)
| InternalError (e : exn).

Definition DEFAULT_MODEL : text := str "claude-3-5-sonnet-v2".

Definition INVALID_FORMAT : text :=
  str "Invalid Authorization header format. Expected: Bearer <API_KEY>".

Section Handler.

Variable VALID_API_KEYS : list text.
Variable CONVERSATION_MEMORY_MODE : Z.
Variable manager : model_manager.
(** [client.post(dify_endpoint, json=dify_request, headers=headers)] for
    the bearer key in [headers]. *)
Variable post : text -> dify_request -> post_outcome.
Variable now : Z.

(** The part of [chat_completions] after a successful translation. *)
Definition forward (api_key model : text) (stream : option bool)
    (dify_request : dify_request) : handler_result :=
  match stream with
  | Some true => StreamingResponse api_key dify_request model
  | _ =>
      match post api_key dify_request with
      | RequestError message =>
          Refused 503 (str "Failed to connect to Dify: " ++ message)
            (str "api_error") (Some (str "connection_error"))
      | Replied response =>
          match sync_response CONVERSATION_MEMORY_MODE now model response with
          | Ok result => Completed api_key dify_request result
          | Raise e => InternalError e
          end
      end
  end.

Definition chat_completions_handler (request : http_request) : handler_result :=
  let unauthorized message :=
    Refused 401 message (str "invalid_request_error")
      (Some (str "invalid_api_key")) in
  let auth_header := hq_authorization request in
  if negb (truthy_opt auth_header) then
    unauthorized (str "Missing Authorization header")
  else
    let parts := split_ws (get_default auth_header) in
    match parts with
    | [scheme; provided_api_key] =>
        if negb (text_eqb (lower scheme) (str "bearer")) then
          unauthorized INVALID_FORMAT
        else if negb (key_in provided_api_key VALID_API_KEYS) then
          unauthorized (str "Invalid API key")
        else
          let openai_request := hq_json request in
          let model :=
            match req_model openai_request with
            | Some m => m
            | None => DEFAULT_MODEL
            end in
          let api_key := get_api_key manager model in
          if negb (truthy_opt api_key) then
            Refused 404
              (str "Model " ++ model
               ++ str " is not supported. Available models: "
               ++ join (str ", ") (dict_keys (name_to_api_key manager)))
              (str "invalid_request_error") (Some (str "model_not_found"))
          else
            match transform_openai_to_dify CONVERSATION_MEMORY_MODE
                    openai_request chat_completions with
            | Raise e => InternalError e
            | Ok None =>
                Refused 400 (str "Invalid request format")
                  (str "invalid_request_error") None
            | Ok (Some dify_request) =>
                forward (get_default api_key) model
                  (req_stream openai_request) dify_request
            end
    | _ =>
        unauthorized INVALID_FORMAT
    end.

End Handler.

(** The upstream key the handler used, when it turned to the upstream. *)
Definition upstream_key (r : handler_result) : option text :=
  match r with
  | StreamingResponse api_key _ _ => Some api_key
  | Completed api_key _ _ => Some api_key
  | _ => None
  end.

(** The header names a key of the list under the scheme [bearer], in any
    letter case: two words, nothing else. *)
Definition authorized (keys : list text) (header : option text) : bool :=
  match header with
  | Some h =>
      match split_ws h with
      | [scheme; key] =>
          text_eqb (lower scheme) (str "bearer") && key_in key keys
      | _ => false
      end
  | None => false
  end.
(** The reply is the refusal of the key check: status 401 with the code
    ["invalid_api_key"]. *)
Definition is_auth_refusal (r : handler_result) : bool :=
  match r with
  | Refused status _ _ (Some code) =>
      (status =? 401) && text_eqb code (str "invalid_api_key")
  | _ => false
  end.

(** The model a request asks for. *)
Definition requested_model (request : http_request) : text :=
  match req_model (hq_json request) with
  | Some m => m
  | None => DEFAULT_MODEL
  end.

(** ** Further inputs used in the statements below *)

(** A 36-character id of the form the upstream issues. *)
Definition uuid_id : text := str "0f8fad5b-d9cb-469f-a165-70867728950e".

(** The token of an id, empty when the id cannot be encoded. *)
Definition token_of (id : text) : text :=
  match encode_conversation_id id with
  | Ok token => token
  | Raise _ => []
  end.

(** The user of the outbound request. *)
Definition user_of (user : option text) : text :=
  match user with
  | Some u => u
  | None => str "default_user"
  end.

(** The id a later turn reads back from a token of [id]: [id] itself when
    its UTF-8 form [raw] is a whole number of three-byte groups, [id]
    followed by U+0000 otherwise. *)
Definition read_back (id : text) (raw : bytes) : text :=
  if Z.of_nat (List.length raw) mod 3 =? 0 then id else id ++ [0].

(** A [message] event with an answer and a message id. *)
Definition message_event (answer id : text) : dify_chunk :=
  DifyChunk (Some (str "message")) (Some answer) (Some id) None None.

(** A [message_end] event carrying a conversation id. *)
Definition message_end_event (id : text) : dify_chunk :=
  DifyChunk (Some (str "message_end")) None None (Some id) None.

(** The text of a chunk, empty when the chunk does not decode. *)
Definition decoded (raw : bytes) : text :=
  match utf8_decode raw with
  | Ok s => s
  | Raise _ => []
  end.

(** Each chunk is non-empty and decodes, on its own, to the text beside
    it. *)
Definition decode_to (chunks : list bytes) (texts : list text) : Prop :=
  Forall2 (fun raw s => raw <> [] /\ utf8_decode raw = Ok s) chunks texts.

(** A [message_end] event whose id is to be encoded, in the zero-width
    mode, and is not well-formed Unicode text. *)
Definition ill_formed_end (mode : Z) (chunk : dify_chunk) : bool :=
  (mode =? 2) && is_end_event chunk
  && truthy_opt (ch_conversation_id chunk)
  && negb (history_has_id (get_history (ch_conversation_history chunk)))
  && negb (forallb is_scalar (get_default (ch_conversation_id chunk))).

(** The example line whole, and cut after its tenth byte. *)
Definition whole_line : bytes := line_head ++ line_tail.
Definition cut_at_10 : list bytes :=
  [firstn 10 whole_line; skipn 10 whole_line].

(** The reply is an error dictionary built by the handler itself, with
    this status. *)
Definition refused_with (status : Z) (r : handler_result) : bool :=
  match r with
  | Refused s _ _ _ => s =? status
  | _ => false
  end.

(** A request with a bearer header for the key ["k1"]. *)
Definition request_k1 (body : openai_request) : http_request :=
  HttpRequest (Some (str "Bearer k1")) body.

(** A registry in which the model ["app"] has the upstream key ["up"]. *)
Definition manager_app : model_manager :=
  ModelManager [str "up"] [(str "app", str "up")] [(str "up", str "app")].

(** An upstream that cannot be reached. *)
Definition post_fails (api_key : text) (request : dify_request)
  : post_outcome :=
  RequestError (str "down").

(** An upstream [/info] that names the keys ["k1"] and ["k3"] ["app"],
    fails for ["k2"] and answers 404 for any other key. *)
Definition info_app (api_key : text) : info_outcome :=
  if text_eqb api_key (str "k1") then InfoReplied 200 (Some (str "app"))
  else if text_eqb api_key (str "k3") then InfoReplied 200 (Some (str "app"))
  else if text_eqb api_key (str "k2") then InfoRaised
  else InfoReplied 404 None.

(** A registry with the keys ["k1"], ["k2"], ["k3"] and stale maps. *)
Definition manager_stale : model_manager :=
  ModelManager [str "k1"; str "k2"; str "k3"]
    [(str "old", str "k0")] [(str "k0", str "old")].

(** The single pass of the line loop over [buffer] meets no exception:
    every line is skipped or handled to its end. *)
Fixpoint quiet (mode : Z) (model : text)
    (json_loads : text -> option json_value)
    (buffer line : text) (st : stream_state) : Prop :=
  match buffer with
  | [] => True
  | c :: r =>
      if c =? 10 then
        match handle_line mode model json_loads st (rev line) with
        | (st', _, None) => quiet mode model json_loads r [] st'
        | (_, _, Some _) => False
        end
      else quiet mode model json_loads r (c :: line) st
  end.

(** The events of C3 as the upstream writes them:
    [{"event": "message", "answer": "Hi"}] and
    [{"event": "message_end", "conversation_id": "s1"}], the latter with
    the key ["conversation_history"] holding an empty list when
    [history] is not [None]. *)
Definition payload_Hi : text :=
  str "{" ++ quoted (str "event") ++ str ": " ++ quoted (str "message")
  ++ str ", " ++ quoted (str "answer") ++ str ": " ++ quoted (str "Hi")
  ++ str "}".

Definition payload_end_s1 (history : option (list message)) : text :=
  str "{" ++ quoted (str "event") ++ str ": " ++ quoted (str "message_end")
  ++ str ", " ++ quoted (str "conversation_id") ++ str ": "
  ++ quoted (str "s1")
  ++ match history with
     | Some _ => str ", " ++ quoted (str "conversation_history") ++ str ": []"
     | None => []
     end
  ++ str "}".

(** The bytes of the two events, each on a [data: ] line followed by a
    blank line. *)
Definition stream_Hi_s1 (history : option (list message)) : bytes :=
  str "data: " ++ payload_Hi ++ NL ++ NL
  ++ str "data: " ++ payload_end_s1 history ++ NL ++ NL.

(** A reader that knows the two payloads and rejects every other text. *)
Definition reads_Hi_s1 (history : option (list message)) (s : text)
  : option json_value :=
  if text_eqb s payload_Hi then Some (JObject message_Hi)
  else if text_eqb s (payload_end_s1 history)
       then Some (JObject (message_end_s1 history))
       else None.

(** The bytes are ASCII. *)
Definition is_ascii (raw : bytes) : bool :=
  forallb (fun b => (0 <=? b) && (b <? 128)) raw.

(** The event seeds the message id without being an answer: an
    [agent_thought] event that reports a non-empty id. *)
Definition is_seeding_thought (chunk : dify_chunk) : bool :=
  opt_is (ch_event chunk) (str "agent_thought")
  && truthy (get_default (ch_message_id chunk)).

(** [buffer.split('\n')]: the complete lines of [buffer], in order, and
    the text after its last line feed; [line] holds the characters of the
    current line, last first. *)
Fixpoint lines_from (buffer line : text) : list text * text :=
  match buffer with
  | [] => ([], rev line)
  | c :: r =>
      if c =? 10 then
        let '(lines, rest) := lines_from r [] in
        (rev line :: lines, rest)
      else lines_from r (c :: line)
  end.

(** The lines of a text that end in a line feed. *)
Definition complete_lines (s : text) : list text := fst (lines_from s []).

(** The line is one whose handling cannot raise: it is skipped, or its
    payload is not JSON, or its payload is a JSON object other than a
    [message_end] event whose id is to be encoded and is ill-formed. *)
Definition handles_quietly (mode : Z)
    (json_loads : text -> option json_value) (line : text) : bool :=
  match payload_of line with
  | None => true
  | Some json_str =>
      match json_loads json_str with
      | None => true
      | Some JOther => false
      | Some (JObject chunk) => negb (ill_formed_end mode chunk)
      end
  end.

(** * Properties *)

(** ** Equality tests *)

Lemma text_eqb_eq (a b : text) : text_eqb a b = true <-> a = b.
Proof.
  revert b; induction a as [|x a IH]; intros [|y b]; simpl;
    try (split; (reflexivity || discriminate)).
  rewrite andb_true_iff, Z.eqb_eq, IH.
  split; [intros [-> ->]; reflexivity | intros [= -> ->]; auto].
Qed.

Lemma text_eqb_refl (a : text) : text_eqb a a = true.
Proof. apply text_eqb_eq; reflexivity. Qed.

Lemma opt_is_true (o : option text) (l : text) :
  opt_is o l = true <-> o = Some l.
Proof.
  destruct o as [s|]; simpl.
  - rewrite text_eqb_eq. split; [intros ->; reflexivity | intros [= ->]; auto].
  - split; discriminate.
Qed.

Lemma truthy_true (s : text) : truthy s = true <-> s <> [].
Proof. destruct s; simpl; split; congruence. Qed.

Lemma forallb_rev' {A} (f : A -> bool) (l : list A) :
  forallb f (rev l) = forallb f l.
Proof.
  induction l as [|a l IH]; [reflexivity|].
  simpl. rewrite forallb_app, IH. simpl.
  rewrite andb_true_r. apply andb_comm.
Qed.

Ltac split_andb :=
  repeat match goal with
    | H : _ && _ = true |- _ => apply andb_true_iff in H; destruct H
    | H : negb _ = true |- _ => apply negb_true_iff in H
    end.

Lemma last_item_snoc {A : Type} (l : list A) (a : A) :
  last_item (l ++ [a]) = Some a.
Proof.
  induction l as [|x l IH]; [reflexivity|].
  simpl. rewrite IH. destruct (l ++ [a]) eqn:E; [|reflexivity].
  destruct l; discriminate.
Qed.

(** ** ConversationCodec: the round trip *)

(** C1. The round trip fails at the id ["s1"]: its Base64 form ["czE="]
    ends in a padding character, for which the encoder emits one glyph;
    the decoder reads that glyph as the digit of a data character, and
    the decoded id is ["s1"] followed by the character U+0000. *)
Theorem roundtrip_breaks_on_padding :
  exists token,
    encode_conversation_id (str "s1") = Ok token
    /\ decode_conversation_id token = Some (str "s1" ++ [0])
    /\ decode_conversation_id token <> Some (str "s1").
Proof.
  eexists. split; [vm_compute; reflexivity|].
  split; [vm_compute; reflexivity | vm_compute; discriminate].
Qed.

(** *** Ids whose Base64 form has no padding *)

Lemma all_below_spec (n : nat) (P : Z -> bool) :
  all_below n P = true -> forall z, 0 <= z < Z.of_nat n -> P z = true.
Proof.
  induction n as [|n IH]; intros H z Hz; [lia|].
  cbn [all_below] in H. apply andb_true_iff in H as [H0 H1].
  destruct (Z.eq_dec z (Z.of_nat n)) as [->|Hne]; [exact H0|].
  apply IH; [exact H1 | lia].
Qed.

Lemma sextets_ok : all_below 64 sextet_ok = true.
Proof. vm_compute. reflexivity. Qed.

Lemma bytes_ok : all_below 256 byte_ok = true.
Proof. vm_compute. reflexivity. Qed.

Lemma pairs_ok : all_below 256 (fun x => all_below 256 (pair_ok x)) = true.
Proof. vm_compute. reflexivity. Qed.

Lemma leads_ok :
  all_below 32 lead2_ok = true /\ all_below 16 lead3_ok = true
  /\ all_below 8 lead4_ok = true /\ all_below 64 cont_ok = true.
Proof. repeat split; vm_compute; reflexivity. Qed.

Lemma shiftr_bound (c : Z) (n bound : Z) :
  0 <= n -> 0 <= c < bound * 2 ^ n -> 0 <= Z.shiftr c n < bound.
Proof.
  intros Hn Hc. rewrite Z.shiftr_div_pow2 by exact Hn.
  assert (0 < 2 ^ n) by (apply Z.pow_pos_nonneg; lia).
  split.
  - apply Z.div_pos; lia.
  - apply Z.div_lt_upper_bound; lia.
Qed.

Lemma land63_bound (x : Z) : 0 <= Z.land x 0x3F < 64.
Proof.
  change 0x3F with (Z.ones 6). rewrite Z.land_ones by lia.
  apply Z.mod_pos_bound. reflexivity.
Qed.

Lemma testbit_63 (n : Z) : 0 <= n -> Z.testbit 0x3F n = (n <? 6).
Proof.
  intros Hn. change 0x3F with (Z.ones 6).
  apply Z.testbit_ones_nonneg; lia.
Qed.

(** A value is its part above bit 6 joined with its low six bits. *)
Lemma join6 (x : Z) :
  Z.lor (Z.shiftl (Z.shiftr x 6) 6) (Z.land x 0x3F) = x.
Proof.
  apply Z.bits_inj'. intros n Hn.
  rewrite Z.lor_spec, Z.land_spec, testbit_63 by exact Hn.
  destruct (Z.ltb_spec n 6).
  - rewrite Z.shiftl_spec_low by lia. rewrite andb_true_r. reflexivity.
  - rewrite Z.shiftl_spec, Z.shiftr_spec by lia.
    replace (n - 6 + 6) with n by lia.
    rewrite andb_false_r, orb_false_r. reflexivity.
Qed.

Lemma join6_12 (x : Z) :
  Z.lor (Z.shiftl (Z.shiftr x 12) 12)
    (Z.lor (Z.shiftl (Z.land (Z.shiftr x 6) 0x3F) 6) (Z.land x 0x3F)) = x.
Proof.
  transitivity (Z.lor (Z.shiftl (Z.shiftr x 6) 6) (Z.land x 0x3F));
    [|apply join6].
  rewrite Z.lor_assoc. f_equal.
  replace (Z.shiftl (Z.shiftr x 12) 12)
    with (Z.shiftl (Z.shiftl (Z.shiftr (Z.shiftr x 6) 6) 6) 6)
    by (rewrite Z.shiftl_shiftl, Z.shiftr_shiftr by lia; reflexivity).
  rewrite <- Z.shiftl_lor. rewrite join6. reflexivity.
Qed.

Lemma join6_18 (x : Z) :
  Z.lor (Z.shiftl (Z.shiftr x 18) 18)
    (Z.lor (Z.shiftl (Z.land (Z.shiftr x 12) 0x3F) 12)
       (Z.lor (Z.shiftl (Z.land (Z.shiftr x 6) 0x3F) 6) (Z.land x 0x3F)))
  = x.
Proof.
  transitivity (Z.lor (Z.shiftl (Z.shiftr x 6) 6) (Z.land x 0x3F));
    [|apply join6].
  rewrite !Z.lor_assoc. f_equal. rewrite <- Z.lor_assoc.
  transitivity
    (Z.shiftl
       (Z.lor (Z.shiftl (Z.shiftr (Z.shiftr x 6) 12) 12)
          (Z.lor (Z.shiftl (Z.land (Z.shiftr (Z.shiftr x 6) 6) 0x3F) 6)
             (Z.land (Z.shiftr x 6) 0x3F))) 6);
    [|rewrite join6_12; reflexivity].
  rewrite !Z.shiftl_lor, !Z.shiftl_shiftl, !Z.shiftr_shiftr by lia.
  reflexivity.
Qed.

Lemma lead2_facts (k : Z) :
  0 <= k < 32 ->
  is_byte (Z.lor 0xC0 k) = true
  /\ (0 <=? Z.lor 0xC0 k) && (Z.lor 0xC0 k <? 0x80) = false
  /\ (Z.land (Z.lor 0xC0 k) 0xE0 =? 0xC0) = true
  /\ Z.land (Z.lor 0xC0 k) 0x1F = k.
Proof.
  intros Hk.
  pose proof (all_below_spec 32 lead2_ok (proj1 leads_ok) k Hk) as H.
  unfold lead2_ok in H. cbn zeta in H. split_andb.
  unfold is_byte.
  repeat split; try assumption; try (apply Z.eqb_eq; assumption);
    apply andb_true_intro; split; assumption.
Qed.

Lemma lead3_facts (k : Z) :
  0 <= k < 16 ->
  is_byte (Z.lor 0xE0 k) = true
  /\ (0 <=? Z.lor 0xE0 k) && (Z.lor 0xE0 k <? 0x80) = false
  /\ (Z.land (Z.lor 0xE0 k) 0xE0 =? 0xC0) = false
  /\ (Z.land (Z.lor 0xE0 k) 0xF0 =? 0xE0) = true
  /\ Z.land (Z.lor 0xE0 k) 0x0F = k.
Proof.
  intros Hk.
  pose proof (all_below_spec 16 lead3_ok (proj1 (proj2 leads_ok)) k Hk) as H.
  unfold lead3_ok in H. cbn zeta in H. split_andb.
  unfold is_byte.
  repeat split; try assumption; try (apply Z.eqb_eq; assumption);
    apply andb_true_intro; split; assumption.
Qed.

Lemma lead4_facts (k : Z) :
  0 <= k < 8 ->
  is_byte (Z.lor 0xF0 k) = true
  /\ (0 <=? Z.lor 0xF0 k) && (Z.lor 0xF0 k <? 0x80) = false
  /\ (Z.land (Z.lor 0xF0 k) 0xE0 =? 0xC0) = false
  /\ (Z.land (Z.lor 0xF0 k) 0xF0 =? 0xE0) = false
  /\ (Z.land (Z.lor 0xF0 k) 0xF8 =? 0xF0) = true
  /\ Z.land (Z.lor 0xF0 k) 0x07 = k.
Proof.
  intros Hk.
  pose proof (all_below_spec 8 lead4_ok (proj1 (proj2 (proj2 leads_ok))) k Hk)
    as H.
  unfold lead4_ok in H. cbn zeta in H. split_andb.
  unfold is_byte.
  repeat split; try assumption; try (apply Z.eqb_eq; assumption);
    apply andb_true_intro; split; assumption.
Qed.

Lemma cont_facts (x : Z) (shift : Z) :
  is_byte (cont x shift) = true
  /\ is_cont (cont x shift) = true
  /\ low6 (cont x shift) = Z.land (Z.shiftr x shift) 0x3F.
Proof.
  unfold cont.
  pose proof (all_below_spec 64 cont_ok (proj2 (proj2 (proj2 leads_ok)))
                (Z.land (Z.shiftr x shift) 0x3F) (land63_bound _)) as H.
  unfold cont_ok in H. cbn zeta in H. split_andb.
  unfold is_byte.
  repeat split; try assumption; try (apply Z.eqb_eq; assumption);
    apply andb_true_intro; split; assumption.
Qed.

Lemma Ok_inj {A : Type} (a b : A) : Ok a = Ok b -> a = b.
Proof. congruence. Qed.

Lemma utf8_char_roundtrip (c : Z) (bs : bytes) :
  utf8_encode_char c = Ok bs ->
  forallb is_byte bs = true
  /\ bs <> []
  /\ forall rest,
      utf8_decode (bs ++ rest)
      = bind (utf8_decode rest) (fun s => Ok (c :: s)).
Proof.
  unfold utf8_encode_char.
  destruct (is_scalar c) eqn:Hs; [|discriminate]. cbn [negb].
  unfold is_scalar in Hs.
  apply andb_true_iff in Hs as [Hr Hsur].
  apply andb_true_iff in Hr as [Hlo Hhi].
  apply Z.leb_le in Hlo, Hhi. apply negb_true_iff in Hsur.
  destruct (Z.ltb_spec c 0x80) as [Lt1|Lt1].
  { intros E; apply Ok_inj in E; subst bs. split; [|split; [discriminate|]].
    - simpl. unfold is_byte. rewrite andb_true_r.
      apply andb_true_intro; split; [apply Z.leb_le | apply Z.ltb_lt]; lia.
    - intros rest. cbn [app utf8_decode].
      replace ((0 <=? c) && (c <? 128)) with true; [reflexivity|].
      symmetry. apply andb_true_intro; split;
        [apply Z.leb_le | apply Z.ltb_lt]; lia. }
  destruct (Z.ltb_spec c 0x800) as [Lt2|Lt2].
  { intros E; apply Ok_inj in E; subst bs.
    destruct (lead2_facts (Z.shiftr c 6)) as [B0 [A0 [L0 K0]]].
    { apply shiftr_bound; lia. }
    destruct (cont_facts c 0) as [B1 [C1 M1]].
    rewrite Z.shiftr_0_r in M1.
    split; [|split; [discriminate|]].
    - cbn [forallb]. rewrite B0, B1. reflexivity.
    - intros rest. cbn [app utf8_decode].
      rewrite A0, L0, K0, C1, M1, join6.
      replace (128 <=? c) with true by (symmetry; apply Z.leb_le; lia).
      reflexivity. }
  destruct (Z.ltb_spec c 0x10000) as [Lt3|Lt3].
  { intros E; apply Ok_inj in E; subst bs.
    destruct (lead3_facts (Z.shiftr c 12)) as [B0 [A0 [L0 [L1 K0]]]].
    { apply shiftr_bound; lia. }
    destruct (cont_facts c 6) as [B1 [C1 M1]].
    destruct (cont_facts c 0) as [B2 [C2 M2]].
    rewrite Z.shiftr_0_r in M2.
    split; [|split; [discriminate|]].
    - cbn [forallb]. rewrite B0, B1, B2. reflexivity.
    - intros rest. cbn [app utf8_decode].
      rewrite A0, L0, L1, K0, C1, C2, M1, M2, join6_12.
      replace (2048 <=? c) with true by (symmetry; apply Z.leb_le; lia).
      rewrite Hsur.
      reflexivity. }
  intros E; apply Ok_inj in E; subst bs.
  destruct (lead4_facts (Z.shiftr c 18)) as [B0 [A0 [L0 [L1 [L2 K0]]]]].
  { apply shiftr_bound; lia. }
  destruct (cont_facts c 12) as [B1 [C1 M1]].
  destruct (cont_facts c 6) as [B2 [C2 M2]].
  destruct (cont_facts c 0) as [B3 [C3 M3]].
  rewrite Z.shiftr_0_r in M3.
  split; [|split; [discriminate|]].
  - cbn [forallb]. rewrite B0, B1, B2, B3. reflexivity.
  - intros rest. cbn [app utf8_decode].
    rewrite A0, L0, L1, L2, K0, C1, C2, C3, M1, M2, M3, join6_18.
    replace (65536 <=? c) with true by (symmetry; apply Z.leb_le; lia).
    replace (c <=? 1114111) with true by (symmetry; apply Z.leb_le; lia).
    reflexivity.
Qed.

Lemma utf8_roundtrip (s : text) :
  forall raw,
    utf8_encode s = Ok raw ->
    utf8_decode raw = Ok s /\ forallb is_byte raw = true
    /\ (s <> [] -> raw <> []).
Proof.
  induction s as [|c s IH]; intros raw H.
  - simpl in H. injection H as <-. repeat split; congruence.
  - cbn [utf8_encode] in H.
    destruct (utf8_encode_char c) as [bs|] eqn:Ec; [|discriminate].
    destruct (utf8_encode s) as [rs|] eqn:Es; [|discriminate].
    cbn [bind] in H. injection H as <-.
    destruct (utf8_char_roundtrip c bs Ec) as [B [N D]].
    destruct (IH rs eq_refl) as [D' [B' _]].
    split; [|split].
    + rewrite D, D'. reflexivity.
    + rewrite forallb_app, B, B'. reflexivity.
    + intros _. destruct bs; [contradiction | discriminate].
Qed.

Lemma triples_of_length (n : nat) :
  forall raw,
    (List.length raw <= n)%nat ->
    Z.of_nat (List.length raw) mod 3 = 0 -> triples raw.
Proof.
  induction n as [|n IH]; intros raw Hn Hm.
  - destruct raw; [constructor | simpl in Hn; lia].
  - destruct raw as [|a [|b [|c rest]]]; try constructor;
      try (vm_compute in Hm; discriminate).
    apply IH; [simpl in Hn; lia|].
    replace (Z.of_nat (List.length (a :: b :: c :: rest)))
      with (Z.of_nat (List.length rest) + 1 * 3) in Hm
      by (cbn [List.length]; lia).
    rewrite Z_mod_plus_full in Hm. exact Hm.
Qed.

Lemma b64encode_triples (raw : bytes) :
  triples raw -> b64encode raw = map b64_char (sextets raw).
Proof.
  induction 1 as [|a b c rest _ IH]; [reflexivity|].
  cbn [b64encode sextets map]. rewrite IH. reflexivity.
Qed.

Lemma byte_facts (a : Z) :
  is_byte a = true ->
  in6 (six0 a) = true /\ in6 (six3 a) = true
  /\ Z.lor (Z.shiftl (six0 a) 2) (Z.land a 3) = a
  /\ Z.lor (Z.shiftl (Z.shiftr a 4) 4) (Z.land a 15) = a
  /\ Z.lor (Z.shiftl (Z.shiftr a 6) 6) (six3 a) = a.
Proof.
  intros Ha. unfold is_byte in Ha. apply andb_true_iff in Ha as [Hl Hh].
  apply Z.leb_le in Hl. apply Z.ltb_lt in Hh.
  pose proof (all_below_spec 256 byte_ok bytes_ok a (conj Hl Hh)) as H.
  unfold byte_ok in H. split_andb.
  repeat split; try assumption; apply Z.eqb_eq; assumption.
Qed.

Lemma pair_facts (x y : Z) :
  is_byte x = true -> is_byte y = true ->
  in6 (six1 x y) = true /\ in6 (six2 x y) = true
  /\ Z.shiftr (six1 x y) 4 = Z.land x 3
  /\ Z.land (six1 x y) 15 = Z.shiftr y 4
  /\ Z.shiftr (six2 x y) 2 = Z.land x 15
  /\ Z.land (six2 x y) 3 = Z.shiftr y 6.
Proof.
  intros Hx Hy. unfold is_byte in Hx, Hy.
  apply andb_true_iff in Hx as [Hxl Hxh].
  apply andb_true_iff in Hy as [Hyl Hyh].
  apply Z.leb_le in Hxl, Hyl. apply Z.ltb_lt in Hxh, Hyh.
  pose proof (all_below_spec 256 _ pairs_ok x (conj Hxl Hxh)) as H.
  cbv beta in H.
  pose proof (all_below_spec 256 _ H y (conj Hyl Hyh)) as H'.
  unfold pair_ok in H'. split_andb.
  repeat split; try assumption; apply Z.eqb_eq; assumption.
Qed.

Lemma sextet_facts (v : Z) :
  in6 v = true ->
  (exists g1 g2,
      encode_char (b64_char v) = [g1; g2]
      /\ is_glyph g1 = true /\ is_glyph g2 = true
      /\ Z.lor (Z.shiftl (digit_of g1) 3) (digit_of g2) = v)
  /\ b64_value (b64_char v) = Some v
  /\ (b64_char v <? 128) = true
  /\ (b64_char v =? PAD) = false.
Proof.
  intros Hv. unfold in6 in Hv. apply andb_true_iff in Hv as [Hl Hh].
  apply Z.leb_le in Hl. apply Z.ltb_lt in Hh.
  pose proof (all_below_spec 64 sextet_ok sextets_ok v (conj Hl Hh)) as H.
  unfold sextet_ok in H.
  destruct (encode_char (b64_char v)) as [|g1 [|g2 [|g3 t]]];
    try discriminate.
  destruct (b64_value (b64_char v)) as [w|];
    [|rewrite andb_false_r in H; discriminate].
  split_andb.
  repeat split; try assumption.
  - exists g1, g2. repeat split; try assumption. apply Z.eqb_eq; assumption.
  - f_equal. apply Z.eqb_eq; assumption.
Qed.

Lemma sextets_in6 (raw : bytes) :
  triples raw -> forallb is_byte raw = true ->
  forallb in6 (sextets raw) = true.
Proof.
  induction 1 as [|a b c rest _ IH]; [reflexivity|].
  cbn [forallb sextets]. intros H. split_andb.
  destruct (byte_facts a) as [A0 _]; [assumption|].
  destruct (byte_facts c) as [_ [C3 _]]; [assumption|].
  destruct (pair_facts a b) as [AB _]; [assumption..|].
  destruct (pair_facts b c) as [_ [BC _]]; [assumption..|].
  rewrite A0, C3, AB, BC, IH by assumption. reflexivity.
Qed.

Lemma a2b_base64_sextets (raw : bytes) :
  triples raw -> forallb is_byte raw = true ->
  forall leftchar pads out,
    a2b_base64 (map b64_char (sextets raw)) 0 leftchar pads out
    = Ok (rev out ++ raw).
Proof.
  induction 1 as [|a b c rest _ IH]; intros Hb leftchar pads out.
  - cbn. rewrite app_nil_r. reflexivity.
  - cbn [forallb] in Hb. split_andb.
    destruct (byte_facts a) as [A0 [_ [Ja _]]]; [assumption|].
    destruct (byte_facts b) as [_ [_ [_ [Jb _]]]]; [assumption|].
    destruct (byte_facts c) as [_ [C3 [_ [_ Jc]]]]; [assumption|].
    destruct (pair_facts a b) as [AB [_ [AB1 [AB2 _]]]]; [assumption..|].
    destruct (pair_facts b c) as [_ [BC [_ [_ [BC1 BC2]]]]]; [assumption..|].
    destruct (sextet_facts _ A0) as [_ [V0 [_ P0]]].
    destruct (sextet_facts _ AB) as [_ [V1 [_ P1]]].
    destruct (sextet_facts _ BC) as [_ [V2 [_ P2]]].
    destruct (sextet_facts _ C3) as [_ [V3 [_ P3]]].
    cbn [sextets map a2b_base64].
    rewrite P0, V0. cbn [Z.eqb].
    rewrite P1, V1. cbn [Z.eqb Pos.eqb].
    rewrite P2, V2. cbn [Z.eqb Pos.eqb].
    rewrite P3, V3. cbn [Z.eqb Pos.eqb].
    rewrite AB1, AB2, BC1, BC2, Ja, Jb, Jc.
    rewrite IH by assumption.
    cbn [rev]. rewrite <- !app_assoc. reflexivity.
Qed.

Lemma glyphs_of_sextets (vs : list Z) :
  forallb in6 vs = true ->
  let token := flat_map encode_char (map b64_char vs) in
  forallb is_glyph token = true
  /\ base64_chars_of token = map b64_char vs
  /\ (vs <> [] -> token <> []).
Proof.
  induction vs as [|v vs IH]; intros H.
  - repeat split; congruence.
  - cbn [forallb] in H. apply andb_true_iff in H as [Hv Hvs].
    destruct (sextet_facts v Hv) as [[g1 [g2 [E [G1 [G2 J]]]]] _].
    destruct (IH Hvs) as [F [B _]].
    cbn zeta. cbn [map flat_map]. rewrite E.
    cbn [app forallb base64_chars_of]. rewrite G1, G2, J.
    repeat split; [exact F | f_equal; exact B | discriminate].
Qed.

Lemma sextets_ascii (vs : list Z) :
  forallb in6 vs = true ->
  forallb (fun c => c <? 128) (map b64_char vs) = true.
Proof.
  induction vs as [|v vs IH]; [reflexivity|].
  cbn [forallb map]. intros H. apply andb_true_iff in H as [Hv Hvs].
  destruct (sextet_facts v Hv) as [_ [_ [A _]]].
  rewrite A, (IH Hvs). reflexivity.
Qed.

Lemma sextets_length (raw : bytes) :
  triples raw -> Z.of_nat (List.length (map b64_char (sextets raw))) mod 4 = 0.
Proof.
  induction 1 as [|a b c rest _ IH]; [reflexivity|].
  cbn [sextets map].
  replace (Z.of_nat (List.length (b64_char (six0 a) :: b64_char (six1 a b)
                                  :: b64_char (six2 b c) :: b64_char (six3 c)
                                  :: map b64_char (sextets rest))))
    with (Z.of_nat (List.length (map b64_char (sextets rest))) + 1 * 4)
    by (cbn [List.length]; lia).
  rewrite Z_mod_plus_full. exact IH.
Qed.

Lemma collect_glyphs_app (run rest : text) :
  forallb is_glyph run = true ->
  collect_glyphs (run ++ rest) = run ++ collect_glyphs rest.
Proof.
  induction run as [|g run IH]; [reflexivity|].
  cbn [forallb app collect_glyphs]. intros H.
  apply andb_true_iff in H as [Hg Hrun].
  rewrite Hg, (IH Hrun). reflexivity.
Qed.

Lemma collect_glyphs_ends_visible (carrier : text) :
  ends_visible carrier = true -> collect_glyphs (rev carrier) = [].
Proof.
  unfold ends_visible.
  destruct (rev carrier) as [|c r] eqn:E.
  - reflexivity.
  - apply (f_equal (@rev Z)) in E. rewrite rev_involutive in E.
    cbn [rev] in E. rewrite E, last_item_snoc.
    intros H. apply negb_true_iff in H. cbn [collect_glyphs].
    rewrite H. reflexivity.
Qed.

(** The round trip holds when the UTF-8 form of the id is a whole number
    of three-byte groups, so that its Base64 form ends in no padding, and
    the token is at the very end of the carrier text. *)
Lemma roundtrip_without_padding (id : text) (raw : bytes) (carrier : text) :
  id <> [] ->
  utf8_encode id = Ok raw ->
  Z.of_nat (List.length raw) mod 3 = 0 ->
  ends_visible carrier = true ->
  exists token,
    encode_conversation_id id = Ok token
    /\ decode_conversation_id (carrier ++ token) = Some id.
Proof.
  intros Hid Hraw Hlen Hvis.
  pose proof (collect_glyphs_ends_visible carrier Hvis) as Hcar.
  destruct (utf8_roundtrip id raw Hraw) as [Hdec [Hbytes Hne]].
  pose proof (triples_of_length _ raw (le_n _) Hlen) as Ht.
  pose proof (sextets_in6 raw Ht Hbytes) as H6.
  destruct (glyphs_of_sextets (sextets raw) H6) as [Hg [Hb Hn]].
  exists (flat_map encode_char (map b64_char (sextets raw))).
  split.
  - unfold encode_conversation_id.
    apply truthy_true in Hid. rewrite Hid. cbn [negb].
    rewrite Hraw. cbn [bind]. rewrite (b64encode_triples raw Ht). reflexivity.
  - unfold decode_conversation_id, decode_body.
    rewrite rev_app_distr, collect_glyphs_app
      by (rewrite forallb_rev'; exact Hg).
    rewrite Hcar, app_nil_r.
    assert (Hnz : truthy (rev (flat_map encode_char
                                 (map b64_char (sextets raw)))) = true).
    { apply truthy_true. intros E.
      apply (f_equal (@rev Z)) in E. rewrite rev_involutive in E.
      cbn [rev] in E. revert E. apply Hn.
      specialize (Hne Hid). destruct Ht; [contradiction | discriminate]. }
    rewrite Hnz. cbn [negb].
    rewrite rev_involutive, Hb.
    unfold add_padding. rewrite (sextets_length raw Ht). cbn [Z.eqb].
    unfold b64decode. rewrite (sextets_ascii _ H6).
    rewrite (a2b_base64_sextets raw Ht Hbytes). cbn [rev app bind].
    rewrite Hdec. reflexivity.
Qed.

(** ** RequestTranslator *)

(** C2. The translator raises [KeyError] on a request whose last message
    has no [content] key and is not a system message, in every memory
    mode: the last message is read with [["content"]], not with
    [.get("content", "")]. *)
Theorem translator_raises_on_absent_content :
  forall mode stream user model,
    transform_openai_to_dify mode
      (OpenAIRequest (Some [Message (Some (str "user")) None])
         stream user model)
      chat_completions
    = Raise (KeyError "content").
Proof.
  intros mode stream user model.
  unfold transform_openai_to_dify.
  rewrite text_eqb_refl.
  destruct (mode =? 2); reflexivity.
Qed.

(** The translator returns a request whenever the last message is a
    system message or has a [content] key, and on an empty message list. *)
Lemma translator_returns mode request :
  (forall msg,
      last_item (match req_messages request with Some l => l | None => [] end)
      = Some msg ->
      opt_is (msg_role msg) (str "system") = true
      \/ exists content, msg_content msg = Some content) ->
  exists r,
    transform_openai_to_dify mode request chat_completions = Ok (Some r).
Proof.
  intros H. unfold transform_openai_to_dify.
  rewrite text_eqb_refl.
  set (messages := match req_messages request with
                   | Some l => l
                   | None => []
                   end) in *.
  assert (Q : exists q, last_user_query messages = Ok q).
  { unfold last_user_query.
    destruct (last_item messages) as [msg|]; [|eexists; reflexivity].
    destruct (H msg eq_refl) as [-> | [content ->]].
    - eexists; reflexivity.
    - destruct (negb _); eexists; reflexivity. }
  destruct Q as [q ->].
  destruct (mode =? 2); cbn [bind]; eexists; reflexivity.
Qed.

(** C5, as stated, fails: a request holding only the system message
    ["be terse"] is translated to a query that is not empty. *)
Lemma system_only_query_not_empty :
  exists r,
    transform_openai_to_dify 2
      (OpenAIRequest (Some [Message (Some (str "system"))
                              (Some (str "be terse"))]) None None None)
      chat_completions = Ok (Some r)
    /\ dr_query r <> [].
Proof.
  eexists. split; [vm_compute; reflexivity | discriminate].
Qed.

(** C5, amended. A request holding only a system message is translated
    without error in both memory modes; the query is the system content
    framed as an instruction with an empty user question when that
    content is not empty, and the empty string when it is empty or
    absent. *)
Theorem system_only_query :
  forall mode content stream user model,
    transform_openai_to_dify mode
      (OpenAIRequest (Some [Message (Some (str "system")) content])
         stream user model)
      chat_completions
    = Ok (Some (DifyRequest []
                  (if truthy (get_default content)
                   then with_system (get_default content) []
                   else [])
                  (response_mode_of stream)
                  (if mode =? 2 then Some None else None)
                  (match user with
                   | Some u => u
                   | None => str "default_user"
                   end))).
Proof.
  intros mode content stream user model.
  unfold transform_openai_to_dify.
  rewrite text_eqb_refl.
  cbn [req_messages req_stream req_user].
  unfold system_content_of, last_user_query.
  cbn [filter msg_role opt_is last_item].
  rewrite text_eqb_refl.
  cbn [negb msg_content bind List.length Z.of_nat].
  destruct (mode =? 2).
  - change (1 <? 1) with false. cbn iota.
    cbn [truthy_opt negb]. rewrite andb_true_r. reflexivity.
  - change (1 <? Z.pos 1) with false. cbn iota. reflexivity.
Qed.

(** ** StreamPacer *)

Lemma calculate_delay_bands (d : Z) :
  (30 < d -> calculate_delay d = (1 # 1000)%Q)
  /\ (20 < d <= 30 -> calculate_delay d = (2 # 1000)%Q)
  /\ (10 < d <= 20 -> calculate_delay d = (1 # 100)%Q)
  /\ (d <= 10 -> calculate_delay d = (2 # 100)%Q).
Proof.
  unfold calculate_delay.
  destruct (Z.gtb_spec d 30), (Z.gtb_spec d 20), (Z.gtb_spec d 10);
    repeat split; intros; (reflexivity || lia).
Qed.

Lemma calculate_delay_antitone (d1 d2 : Z) :
  d1 <= d2 -> (calculate_delay d2 <= calculate_delay d1)%Q.
Proof.
  intros H. unfold calculate_delay.
  destruct (Z.gtb_spec d1 30), (Z.gtb_spec d1 20), (Z.gtb_spec d1 10),
    (Z.gtb_spec d2 30), (Z.gtb_spec d2 20), (Z.gtb_spec d2 10);
    try lia; unfold Qle; simpl; lia.
Qed.

Lemma flush_delay_minimal (d : Z) : (FLUSH_DELAY <= calculate_delay d)%Q.
Proof.
  unfold calculate_delay, FLUSH_DELAY.
  destruct (d >? 30), (d >? 20), (d >? 10); unfold Qle; simpl; lia.
Qed.

Lemma slept_app (a b : list action) : slept (a ++ b) = slept a ++ slept b.
Proof.
  induction a as [|[p|q] a IH]; simpl; [reflexivity | exact IH |].
  rewrite IH. reflexivity.
Qed.


Lemma slept_flush model (buf : list (Z * option text)) :
  slept (flush model buf) = repeat FLUSH_DELAY (List.length buf).
Proof.
  induction buf as [|[c i] buf IH]; simpl; [reflexivity|].
  rewrite IH. reflexivity.
Qed.

Lemma slept_yields {A : Type} (f : A -> sse_payload) (l : list A) :
  slept (map (fun a => Yield (f a)) l) = [].
Proof. induction l; simpl; auto. Qed.

Lemma is_message_end (chunk : dify_chunk) mode model st :
  ch_event chunk = Some (str "message_end") ->
  handle_event mode model st chunk = on_message_end mode model st chunk.
Proof.
  intros E. unfold handle_event. rewrite E. reflexivity.
Qed.

Lemma slept_message_end mode model st chunk :
  slept (snd (fst (on_message_end mode model st chunk)))
  = repeat FLUSH_DELAY (List.length (output_buffer st)).
Proof.
  unfold on_message_end.
  destruct (mode =? 2);
    [destruct (truthy_opt (ch_conversation_id chunk)
               && negb (history_has_id
                          (get_history (ch_conversation_history chunk))));
     [destruct (encode_conversation_id _)|]|];
    cbn [fst snd]; rewrite ?slept_app, ?slept_flush, ?slept_yields;
    cbn [slept]; rewrite ?app_nil_r; reflexivity.
Qed.

(** C8. [calculate_delay] does not increase with the queue depth, it is
    constant on each of the four bands, and on a [message_end] event every
    queued character is flushed with the smallest of these delays,
    whatever the depth. *)
Theorem pacing_is_antitone_and_flush_is_minimal :
  (forall d1 d2 : Z,
      d1 <= d2 -> (calculate_delay d2 <= calculate_delay d1)%Q)
  /\ (forall d : Z,
         (30 < d -> calculate_delay d = (1 # 1000)%Q)
         /\ (20 < d <= 30 -> calculate_delay d = (2 # 1000)%Q)
         /\ (10 < d <= 20 -> calculate_delay d = (1 # 100)%Q)
         /\ (d <= 10 -> calculate_delay d = (2 # 100)%Q))
  /\ (forall mode model st chunk,
         ch_event chunk = Some (str "message_end") ->
         slept (snd (fst (handle_event mode model st chunk)))
         = repeat (calculate_delay 31) (List.length (output_buffer st))
         /\ forall d : Z, (calculate_delay 31 <= calculate_delay d)%Q).
Proof.
  split; [exact calculate_delay_antitone|].
  split; [exact calculate_delay_bands|].
  intros mode model st chunk E. split.
  - rewrite (is_message_end chunk mode model st E).
    apply slept_message_end.
  - exact flush_delay_minimal.
Qed.

(** The pacing statement at depths 40, 5 and 25 and at a queue of two
    characters. *)
Lemma pacing_is_antitone_and_flush_is_minimal_witness :
  (calculate_delay 40 <= calculate_delay 5)%Q
  /\ calculate_delay 25 = (2 # 1000)%Q
  /\ slept (snd (fst (handle_event 2 (str "m")
                        (StreamState (Some (str "id"))
                           [(72, Some (str "id")); (105, Some (str "id"))])
                        (DifyChunk (Some (str "message_end"))
                           None None None None))))
     = [calculate_delay 31; calculate_delay 31].
Proof.
  destruct pacing_is_antitone_and_flush_is_minimal as [Hmono [Hband Hflush]].
  split; [apply Hmono; lia|].
  split; [apply (Hband 25); lia|].
  apply (Hflush 2 (str "m")
           (StreamState (Some (str "id"))
              [(72, Some (str "id")); (105, Some (str "id"))])
           (DifyChunk (Some (str "message_end")) None None None None)).
  reflexivity.
Defined.

(** ** Streaming generator *)

(** *** The message id of a stream *)

Lemma on_answer_keeps_id model st chunk answer :
  truthy_opt (message_id st) = true ->
  message_id (fst (fst (on_answer model st chunk answer))) = message_id st.
Proof.
  intros H. unfold on_answer.
  destruct (truthy answer); cbn [negb fst]; [|reflexivity].
  rewrite H. reflexivity.
Qed.

Lemma on_message_end_keeps_id mode model st chunk :
  message_id (fst (fst (on_message_end mode model st chunk))) = message_id st.
Proof.
  unfold on_message_end.
  destruct (mode =? 2); [|reflexivity].
  destruct (truthy_opt _ && negb _); [|reflexivity].
  destruct (encode_conversation_id _); reflexivity.
Qed.

Lemma handle_event_keeps_id mode model st chunk :
  truthy_opt (message_id st) = true ->
  message_id (fst (fst (handle_event mode model st chunk))) = message_id st.
Proof.
  intros H. unfold handle_event.
  destruct (opt_is (ch_event chunk) (str "message")),
    (opt_is (ch_event chunk) (str "agent_message")),
    (ch_answer chunk) as [answer|];
    try (apply on_answer_keeps_id; exact H);
    (destruct (opt_is (ch_event chunk) (str "agent_thought"));
     [unfold on_agent_thought; rewrite H; reflexivity|];
     destruct (opt_is (ch_event chunk) (str "message_file"));
     [reflexivity|];
     destruct (opt_is (ch_event chunk) (str "message_end"));
     [apply on_message_end_keeps_id | reflexivity]).
Qed.

Lemma run_events_keeps_id mode model events :
  forall st,
    truthy_opt (message_id st) = true ->
    message_id (fst (run_events mode model st events)) = message_id st.
Proof.
  induction events as [|chunk events IH]; intros st H; [reflexivity|].
  cbn [run_events].
  pose proof (handle_event_keeps_id mode model st chunk H) as K.
  destruct (handle_event mode model st chunk) as [[st' acts] e].
  cbn [fst] in K.
  specialize (IH st'). rewrite K in IH. specialize (IH H).
  destruct (run_events mode model st' events) as [st'' acts'].
  cbn [fst] in *. congruence.
Qed.

Lemma answer_event_dispatch mode model st chunk answer :
  ch_event chunk = Some (str "message")
  \/ ch_event chunk = Some (str "agent_message") ->
  ch_answer chunk = Some answer ->
  handle_event mode model st chunk = on_answer model st chunk answer.
Proof.
  intros [E | E] A; unfold handle_event; rewrite E, A; reflexivity.
Qed.

(** C9, as stated, fails: a first [message] event that reports no id
    assigns the empty id, and a later [message] event that reports the id
    ["m2"] replaces it. *)
Lemma message_id_replaced_after_empty_id :
  let first := DifyChunk (Some (str "message")) (Some (str "a"))
                 None None None in
  let later := DifyChunk (Some (str "message")) (Some (str "b"))
                 (Some (str "m2")) None None in
  let st1 := fst (run_events 1 (str "gpt") initial_state [first]) in
  message_id st1 = Some []
  /\ message_id (fst (run_events 1 (str "gpt") st1 [later]))
     = Some (str "m2")
  /\ message_id (fst (run_events 1 (str "gpt") st1 [later]))
     <> message_id st1.
Proof.
  cbv zeta. split; [reflexivity|]. split; [reflexivity|].
  vm_compute. discriminate.
Qed.

Lemma handle_event_other_keeps_id mode model st chunk :
  truthy (answer_text chunk) = false ->
  is_seeding_thought chunk = false ->
  message_id (fst (fst (handle_event mode model st chunk))) = message_id st.
Proof.
  unfold answer_text, is_answer_event, is_seeding_thought, handle_event.
  intros A T.
  assert (K : forall answer,
             truthy answer = false ->
             message_id (fst (fst (on_answer model st chunk answer)))
             = message_id st).
  { intros answer F. unfold on_answer. rewrite F. reflexivity. }
  destruct (opt_is (ch_event chunk) (str "message")),
    (opt_is (ch_event chunk) (str "agent_message")),
    (ch_answer chunk) as [answer|];
    cbn [orb get_default] in A; try (apply K; exact A);
    (destruct (opt_is (ch_event chunk) (str "agent_thought"));
     [cbn [andb] in T; unfold on_agent_thought; rewrite T;
      rewrite andb_false_r; reflexivity|];
     destruct (opt_is (ch_event chunk) (str "message_file"));
     [reflexivity|];
     destruct (opt_is (ch_event chunk) (str "message_end"));
     [apply on_message_end_keeps_id | reflexivity]).
Qed.

(** C9, amended. While the stream has no message id yet (none, or an
    empty one), a [message] or [agent_message] event with a non-empty
    answer assigns the id it reports, the empty id when it reports none;
    an [agent_thought] event that reports a non-empty id assigns it; every
    other event ([message_end], [message_file], an unknown event, an answer
    event whose answer is absent or empty, an [agent_thought] event
    without a non-empty id) leaves the id as it is, whatever the id was;
    and once the message id is a non-empty text, no sequence of later
    events changes it, whatever ids they report. *)
Theorem message_id_write_once :
  forall mode model st,
    (forall chunk answer,
        ch_event chunk = Some (str "message")
        \/ ch_event chunk = Some (str "agent_message") ->
        ch_answer chunk = Some answer -> answer <> [] ->
        truthy_opt (message_id st) = false ->
        message_id (fst (fst (handle_event mode model st chunk)))
        = Some (get_default (ch_message_id chunk)))
    /\ (forall chunk id,
           ch_event chunk = Some (str "agent_thought") ->
           ch_message_id chunk = Some id -> id <> [] ->
           truthy_opt (message_id st) = false ->
           message_id (fst (fst (handle_event mode model st chunk)))
           = Some id)
    /\ (forall chunk,
           truthy (answer_text chunk) = false ->
           is_seeding_thought chunk = false ->
           message_id (fst (fst (handle_event mode model st chunk)))
           = message_id st)
    /\ (forall events,
           truthy_opt (message_id st) = true ->
           message_id (fst (run_events mode model st events))
           = message_id st).
Proof.
  intros mode model st. split; [|split; [|split]].
  - intros chunk answer E A N F.
    rewrite (answer_event_dispatch mode model st chunk answer E A).
    unfold on_answer. apply truthy_true in N. rewrite N, F. reflexivity.
  - intros chunk id E M N F.
    unfold handle_event. rewrite E.
    cbn [opt_is text_eqb str map list_ascii_of_string].
    change (opt_is (Some (str "agent_thought")) (str "message")) with false.
    change (opt_is (Some (str "agent_thought")) (str "agent_message"))
      with false.
    change (opt_is (Some (str "agent_thought")) (str "agent_thought"))
      with true.
    cbn iota. destruct (ch_answer chunk); cbn iota;
      unfold on_agent_thought; rewrite M, F; cbn [get_default negb andb];
      apply truthy_true in N; rewrite N; reflexivity.
  - intros chunk A T. apply handle_event_other_keeps_id; assumption.
  - intros events H. apply run_events_keeps_id. exact H.
Qed.

(** The four parts at a first answer, a seeding thought, a [message_end]
    event that reports an id to a stream without one, and later events
    that report other ids. *)
Lemma message_id_write_once_witness :
  let first := DifyChunk (Some (str "message")) (Some (str "a"))
                 (Some (str "m1")) None None in
  let thought := DifyChunk (Some (str "agent_thought")) None
                   (Some (str "m0")) None None in
  let ending := DifyChunk (Some (str "message_end")) None
                  (Some (str "m3")) (Some (str "s1")) None in
  let later := DifyChunk (Some (str "agent_message")) (Some (str "b"))
                 (Some (str "m2")) None None in
  message_id (fst (fst (handle_event 2 (str "gpt") initial_state first)))
  = Some (str "m1")
  /\ message_id (fst (fst (handle_event 2 (str "gpt") initial_state thought)))
     = Some (str "m0")
  /\ message_id (fst (fst (handle_event 2 (str "gpt")
                             (StreamState (Some []) []) ending)))
     = Some []
  /\ message_id (fst (run_events 2 (str "gpt")
                        (StreamState (Some (str "m1")) [])
                        [later; thought; first]))
     = Some (str "m1").
Proof.
  intros first thought ending later.
  split; [|split; [|split]].
  - apply (proj1 (message_id_write_once 2 (str "gpt") initial_state)
             first (str "a"));
      [left; reflexivity | reflexivity | discriminate | reflexivity].
  - apply (proj1 (proj2 (message_id_write_once 2 (str "gpt") initial_state))
             thought (str "m0"));
      [reflexivity | reflexivity | discriminate | reflexivity].
  - apply (proj1 (proj2 (proj2 (message_id_write_once 2 (str "gpt")
                                  (StreamState (Some []) []))))
             ending); reflexivity.
  - apply (proj2 (proj2 (proj2 (message_id_write_once 2 (str "gpt")
                                  (StreamState (Some (str "m1")) []))))
             [later; thought; first]).
    reflexivity.
Defined.

(** ** ResponseAssembler: the [Conversation-Id] header *)

Lemma utf8_encode_scalar (s : text) :
  forallb is_scalar s = true -> exists raw, utf8_encode s = Ok raw.
Proof.
  induction s as [|c s IH]; simpl; [eexists; reflexivity|].
  rewrite andb_true_iff. intros [Hc Hs].
  destruct (IH Hs) as [raw ->].
  unfold utf8_encode_char. rewrite Hc. cbn [negb].
  destruct (c <? 0x80); [eexists; reflexivity|].
  destruct (c <? 0x800); [eexists; reflexivity|].
  destruct (c <? 0x10000); eexists; reflexivity.
Qed.

Lemma encode_conversation_id_scalar (id : text) :
  forallb is_scalar id = true ->
  exists token, encode_conversation_id id = Ok token.
Proof.
  intros H. unfold encode_conversation_id.
  destruct (negb (truthy id)); [eexists; reflexivity|].
  destruct (utf8_encode_scalar id H) as [raw ->].
  eexists; reflexivity.
Qed.

Lemma transform_dify_to_openai_returns mode now response model :
  (mode = 2 ->
   forallb is_scalar (get_default (rs_conversation_id response)) = true) ->
  exists body, transform_dify_to_openai mode now response model = Ok body.
Proof.
  intros H. unfold transform_dify_to_openai.
  destruct (Z.eqb_spec mode 2) as [E|E]; [|eexists; reflexivity].
  destruct (truthy _ && negb _); [|eexists; reflexivity].
  destruct (encode_conversation_id_scalar _ (H E)) as [token ->].
  eexists; reflexivity.
Qed.

(** C10, as stated, fails. An id that holds a line feed is refused as a
    header value: [Response(headers=...)] raises [ValueError], nothing
    catches it inside [sync_response], and the handler answers with status
    500 instead of a response carrying the header. In the zero-width mode
    an id that is not well-formed Unicode text fails earlier, when the
    token is built. Both replies have status 200 and a non-empty id. *)
Lemma conversation_id_header_lost :
  let with_line_feed :=
    DifyResponse (Some (str "hello")) None (Some (str "s" ++ [10] ++ str "1"))
      None (Some (str "m1")) None in
  let with_surrogate :=
    DifyResponse (Some (str "hello")) None (Some [0xD800])
      None (Some (str "m1")) None in
  let post_of reply (api_key : text) (request : dify_request) :=
    Replied (HttpResponse 200 [] (Some reply)) in
  let request := DifyRequest [] (str "hi") (str "blocking") None (str "u") in
  sync_response 1 0 (str "gpt") (HttpResponse 200 [] (Some with_line_feed))
  = Raise ValueError
  /\ forward 1 (post_of with_line_feed) 0 (str "up") (str "gpt") None request
     = InternalError ValueError
  /\ sync_response 2 0 (str "gpt") (HttpResponse 200 [] (Some with_surrogate))
     = Raise UnicodeEncodeError
  /\ forward 2 (post_of with_surrogate) 0 (str "up") (str "gpt") None request
     = InternalError UnicodeEncodeError.
Proof.
  cbv zeta. repeat split; vm_compute; reflexivity.
Qed.

Lemma forward_sync mode post now api_key model stream request response :
  stream <> Some true ->
  post api_key request = Replied response ->
  forward mode post now api_key model stream request
  = match sync_response mode now model response with
    | Ok result => Completed api_key request result
    | Raise e => InternalError e
    end.
Proof.
  intros S P. unfold forward. rewrite P.
  destruct stream as [[|]|]; [contradiction | reflexivity | reflexivity].
Qed.

(** C10, amended. On the non-streaming path, for an upstream reply with
    status 200 and a JSON body:
    - when the reply carries a non-empty [conversation_id] that holds no
      carriage return and no line feed and, in the zero-width mode, is
      well-formed Unicode text, the handler returns a response whose body
      is the completion [transform_dify_to_openai] builds and whose
      [Conversation-Id] header is that id, in every memory mode;
    - when the non-empty id holds a carriage return or a line feed,
      [sync_response] ends in an exception in every memory mode and the
      handler answers with status 500: no response with the header is
      returned;
    - when the id is absent or empty the handler returns the bare
      completion and sets no header. *)
Theorem conversation_id_header :
  forall mode now model response reply post api_key request stream,
    hr_status_code response = 200 ->
    hr_json response = Some reply ->
    stream <> Some true ->
    post api_key request = Replied response ->
    (forall id,
        rs_conversation_id reply = Some id -> id <> [] ->
        has_newline id = false ->
        (mode = 2 -> forallb is_scalar id = true) ->
        exists body,
          transform_dify_to_openai mode now reply model = Ok body
          /\ sync_response mode now model response
             = Ok (ResponseObject body [("Conversation-Id"%string, id)])
          /\ forward mode post now api_key model stream request
             = Completed api_key request
                 (ResponseObject body [("Conversation-Id"%string, id)]))
    /\ (forall id,
           rs_conversation_id reply = Some id -> id <> [] ->
           has_newline id = true ->
           exists e,
             sync_response mode now model response = Raise e
             /\ forward mode post now api_key model stream request
                = InternalError e)
    /\ (rs_conversation_id reply = None \/ rs_conversation_id reply = Some [] ->
        exists body,
          transform_dify_to_openai mode now reply model = Ok body
          /\ sync_response mode now model response = Ok (Dict body)
          /\ forward mode post now api_key model stream request
             = Completed api_key request (Dict body)
          /\ result_headers (Dict body) = []).
Proof.
  intros mode now model response reply post api_key request stream S J NS P.
  rewrite (forward_sync mode post now api_key model stream request response
             NS P).
  split; [|split].
  - intros id C N L W.
    unfold sync_response. rewrite S, J. cbn [Z.eqb Pos.eqb negb bind].
    destruct (transform_dify_to_openai_returns mode now reply model)
      as [body ->].
    { rewrite C. exact W. }
    cbn [bind]. rewrite C. cbn [truthy_opt get_default].
    apply truthy_true in N. rewrite N, L. exists body.
    repeat split; reflexivity.
  - intros id C N L.
    unfold sync_response. rewrite S, J. cbn [Z.eqb Pos.eqb negb bind].
    destruct (transform_dify_to_openai mode now reply model) as [body|e];
      cbn [bind]; [|exists e; split; reflexivity].
    rewrite C. cbn [truthy_opt get_default].
    apply truthy_true in N. rewrite N, L. exists ValueError.
    split; reflexivity.
  - intros C.
    unfold sync_response. rewrite S, J. cbn [Z.eqb Pos.eqb negb bind].
    destruct (transform_dify_to_openai_returns mode now reply model)
      as [body ->].
    { destruct C as [-> | ->]; reflexivity. }
    cbn [bind]. exists body.
    destruct C as [-> | ->]; repeat split; reflexivity.
Qed.

(** The three parts in the zero-width mode: a reply carrying the id
    ["s1"], one carrying an id with a carriage return, and one carrying
    none. *)
Lemma conversation_id_header_witness :
  let with_id := DifyResponse (Some (str "hello")) None (Some (str "s1"))
                   None (Some (str "m1")) None in
  let with_cr := DifyResponse (Some (str "hello")) None (Some [115; 13])
                   None (Some (str "m1")) None in
  let without := DifyResponse (Some (str "hello")) None None
                   None (Some (str "m1")) None in
  let post_of reply (api_key : text) (request : dify_request) :=
    Replied (HttpResponse 200 [] (Some reply)) in
  let request := DifyRequest [] (str "hi") (str "blocking") None (str "u") in
  (exists body,
      transform_dify_to_openai 2 0 with_id (str "gpt") = Ok body
      /\ sync_response 2 0 (str "gpt") (HttpResponse 200 [] (Some with_id))
         = Ok (ResponseObject body [("Conversation-Id"%string, str "s1")])
      /\ forward 2 (post_of with_id) 0 (str "up") (str "gpt") None request
         = Completed (str "up") request
             (ResponseObject body [("Conversation-Id"%string, str "s1")]))
  /\ (exists e,
         sync_response 2 0 (str "gpt") (HttpResponse 200 [] (Some with_cr))
         = Raise e
         /\ forward 2 (post_of with_cr) 0 (str "up") (str "gpt") None request
            = InternalError e)
  /\ (exists body,
         transform_dify_to_openai 2 0 without (str "gpt") = Ok body
         /\ sync_response 2 0 (str "gpt") (HttpResponse 200 [] (Some without))
            = Ok (Dict body)
         /\ forward 2 (post_of without) 0 (str "up") (str "gpt") None request
            = Completed (str "up") request (Dict body)
         /\ result_headers (Dict body) = []).
Proof.
  intros with_id with_cr without post_of request. split; [|split].
  - apply (proj1 (conversation_id_header 2 0 (str "gpt")
                    (HttpResponse 200 [] (Some with_id)) with_id
                    (post_of with_id) (str "up") request None
                    eq_refl eq_refl ltac:(discriminate) eq_refl)
             (str "s1"));
      [reflexivity | discriminate | reflexivity | reflexivity].
  - apply (proj1 (proj2 (conversation_id_header 2 0 (str "gpt")
                           (HttpResponse 200 [] (Some with_cr)) with_cr
                           (post_of with_cr) (str "up") request None
                           eq_refl eq_refl ltac:(discriminate) eq_refl))
             [115; 13]);
      [reflexivity | discriminate | reflexivity].
  - apply (proj2 (proj2 (conversation_id_header 2 0 (str "gpt")
                           (HttpResponse 200 [] (Some without)) without
                           (post_of without) (str "up") request None
                           eq_refl eq_refl ltac:(discriminate) eq_refl))).
    left; reflexivity.
Defined.

(** ** ConversationCodec: decoding *)

Lemma collect_glyphs_no_tail (prefix : text) (c : Z) :
  is_glyph c = false -> collect_glyphs (rev (prefix ++ [c])) = [].
Proof.
  intros H. rewrite rev_app_distr. simpl. rewrite H. reflexivity.
Qed.

Lemma decode_no_tail (prefix : text) (c : Z) :
  is_glyph c = false -> decode_conversation_id (prefix ++ [c]) = None.
Proof.
  intros H. unfold decode_conversation_id, decode_body.
  rewrite (collect_glyphs_no_tail prefix c H). reflexivity.
Qed.

Lemma nonempty_snoc {A : Type} (l : list A) :
  l <> [] -> exists l' a, l = l' ++ [a].
Proof.
  intros H. destruct (exists_last H) as [l' [a ->]]. eauto.
Qed.

(** C6. [decode_conversation_id] returns an id or none on every text: an
    exception raised inside it becomes none. It returns none on the empty
    text and on every text whose last character is not a glyph, hence on
    every text in which a run of glyphs is followed by one or more
    characters outside the alphabet. *)
Theorem decode_is_total_and_tail_only :
  (forall content,
      decode_conversation_id content = None
      \/ exists id, decode_conversation_id content = Some id)
  /\ (forall content e,
         decode_body content = Raise e ->
         decode_conversation_id content = None)
  /\ decode_conversation_id [] = None
  /\ (forall prefix c,
         is_glyph c = false ->
         decode_conversation_id (prefix ++ [c]) = None)
  /\ (forall prefix run visible,
         forallb is_glyph run = true ->
         visible <> [] ->
         forallb (fun c => negb (is_glyph c)) visible = true ->
         decode_conversation_id (prefix ++ run ++ visible) = None).
Proof.
  split; [|split; [|split; [|split]]].
  - intros content. destruct (decode_conversation_id content); eauto.
  - intros content e H. unfold decode_conversation_id. rewrite H. reflexivity.
  - reflexivity.
  - exact decode_no_tail.
  - intros prefix run visible _ N V.
    destruct (nonempty_snoc visible N) as [v [c ->]].
    rewrite forallb_app in V. apply andb_true_iff in V as [_ V].
    simpl in V. rewrite andb_true_r in V. apply negb_true_iff in V.
    rewrite !app_assoc. apply decode_no_tail. exact V.
Qed.

(** A lone glyph, on which Base64 decoding raises; a text ending in ['!'];
    and a glyph run followed by ['!']. *)
Lemma decode_is_total_and_tail_only_witness :
  decode_conversation_id [0x200b] = None
  /\ decode_conversation_id (str "hi" ++ [33]) = None
  /\ decode_conversation_id
       (str "hi" ++ [0xfeff; 0x2060; 0x2061; 0xfeff] ++ str "!") = None.
Proof.
  destruct decode_is_total_and_tail_only as [_ [Hraise [_ [Htail Hrun]]]].
  split; [|split].
  - apply (Hraise [0x200b] BinasciiError). reflexivity.
  - apply (Htail (str "hi") 33). reflexivity.
  - apply (Hrun (str "hi") [0xfeff; 0x2060; 0x2061; 0xfeff] (str "!"));
      [reflexivity | discriminate | reflexivity].
Defined.

(** ** RequestTranslator: recovery of the conversation id *)

(** The scan returns the id of the first message, in scan order, that is
    an assistant message with a non-empty decoded id; what it held before
    and what follows that message play no part. *)
Lemma scan_assistant_first (skipped : list message) (m : message)
    (rest : list message) (id : text) :
  (forall m',
      In m' skipped -> opt_is (msg_role m') (str "assistant") = true ->
      truthy_opt (decode_conversation_id (get_default (msg_content m')))
      = false) ->
  opt_is (msg_role m) (str "assistant") = true ->
  decode_conversation_id (get_default (msg_content m)) = Some id ->
  id <> [] ->
  forall held, scan_assistant (skipped ++ m :: rest) held = Some id.
Proof.
  intros Hs Hm Hd Hn.
  induction skipped as [|x skipped IH]; intros held.
  - simpl. rewrite Hm, Hd. cbn [truthy_opt].
    apply truthy_true in Hn. rewrite Hn. reflexivity.
  - simpl.
    destruct (opt_is (msg_role x) (str "assistant")) eqn:Ex.
    + rewrite (Hs x (or_introl eq_refl) Ex).
      apply IH. intros m' Hin. apply Hs. right; exact Hin.
    + apply IH. intros m' Hin. apply Hs. right; exact Hin.
Qed.

(** C7. In the zero-width mode, when a message before the last is an
    assistant message whose content decodes to a non-empty id, and no
    assistant message between it and the last decodes to a non-empty id,
    the outbound request carries that id as [conversation_id], whatever
    the earlier messages decode to, and its query is the content of the
    last message as it stands (empty when the last message is a system
    message): no system instruction is put in front. *)
Theorem strategy_B_recovers_conversation_id :
  forall earlier m later final id question stream user model,
    opt_is (msg_role m) (str "assistant") = true ->
    decode_conversation_id (get_default (msg_content m)) = Some id ->
    id <> [] ->
    (forall m',
        In m' later -> opt_is (msg_role m') (str "assistant") = true ->
        truthy_opt (decode_conversation_id (get_default (msg_content m')))
        = false) ->
    msg_content final = Some question ->
    transform_openai_to_dify 2
      (OpenAIRequest (Some (earlier ++ [m] ++ later ++ [final]))
         stream user model)
      chat_completions
    = Ok (Some (DifyRequest []
                  (if opt_is (msg_role final) (str "system") then []
                   else question)
                  (response_mode_of stream)
                  (Some (Some id))
                  (match user with
                   | Some u => u
                   | None => str "default_user"
                   end))).
Proof.
  intros earlier m later final id question stream user model
    Hm Hd Hn Hl Hq.
  unfold transform_openai_to_dify.
  rewrite text_eqb_refl.
  cbn [req_messages req_stream req_user Z.eqb Pos.eqb].
  replace (earlier ++ [m] ++ later ++ [final])
    with ((earlier ++ [m] ++ later) ++ [final])
    by (rewrite <- !app_assoc; reflexivity).
  rewrite removelast_last.
  assert (Hlen : (1 <? Z.of_nat (List.length ((earlier ++ [m] ++ later)
                                               ++ [final]))) = true).
  { apply Z.ltb_lt. rewrite !length_app. simpl. lia. }
  rewrite Hlen.
  rewrite !rev_app_distr. cbn [rev app].
  rewrite <- !app_assoc. cbn [app].
  rewrite (scan_assistant_first (rev later) m (rev earlier) id); auto.
  2:{ intros m' Hin. apply Hl. apply in_rev. exact Hin. }
  unfold last_user_query.
  replace (earlier ++ m :: later ++ [final])
    with ((earlier ++ m :: later) ++ [final])
    by (rewrite <- app_assoc; reflexivity).
  rewrite last_item_snoc. rewrite Hq.
  cbn [truthy_opt]. apply truthy_true in Hn. rewrite Hn.
  rewrite andb_false_r.
  destruct (opt_is (msg_role final) (str "system")); reflexivity.
Qed.

(** A conversation whose assistant reply carries the token of ["abc123"],
    after an older reply with another token and before a plain one. *)
Lemma strategy_B_recovers_conversation_id_witness :
  let token := token_abc123 in
  let old := Message (Some (str "assistant"))
               (Some (str "older" ++ [0x200b; 0x200b; 0x200b; 0x200b])) in
  let m := Message (Some (str "assistant")) (Some (str "hello" ++ token)) in
  let request :=
    OpenAIRequest
      (Some ([Message (Some (str "system")) (Some (str "be terse"));
              Message (Some (str "user")) (Some (str "hi")); old]
             ++ [m]
             ++ [Message (Some (str "user")) (Some (str "more"));
                 Message (Some (str "assistant")) (Some (str "plain"))]
             ++ [Message (Some (str "user")) (Some (str "next"))]))
      (Some true) None None in
  encode_conversation_id (str "abc123") = Ok token
  /\ transform_openai_to_dify 2 request chat_completions
     = Ok (Some (DifyRequest [] (str "next") (str "streaming")
                   (Some (Some (str "abc123"))) (str "default_user"))).
Proof.
  intros token old m request. split; [vm_compute; reflexivity|].
  apply (strategy_B_recovers_conversation_id
           [Message (Some (str "system")) (Some (str "be terse"));
            Message (Some (str "user")) (Some (str "hi")); old]
           m
           [Message (Some (str "user")) (Some (str "more"));
            Message (Some (str "assistant")) (Some (str "plain"))]
           (Message (Some (str "user")) (Some (str "next")))
           (str "abc123") (str "next") (Some true) None None).
  - reflexivity.
  - vm_compute; reflexivity.
  - discriminate.
  - intros m' [<- | [<- | []]]; [discriminate | reflexivity].
  - reflexivity.
Defined.

(** ** UpstreamEventParser *)

Lemma split_loop_line mode model json_loads (l r : text) :
  forallb (fun c => negb (c =? 10)) l = true ->
  forall acc st,
    split_loop mode model json_loads (l ++ 10 :: r) acc st
    = match handle_line mode model json_loads st (rev acc ++ l) with
      | (st', acts, None) =>
          let '(st'', acts', buffer) :=
            split_loop mode model json_loads r [] st' in
          (st'', acts ++ acts', buffer)
      | (st', acts, Some _) => (st', acts, r)
      end.
Proof.
  induction l as [|c l IH]; intros Hl acc st.
  - rewrite app_nil_r. reflexivity.
  - simpl in Hl. apply andb_true_iff in Hl as [Hc Hl].
    apply negb_true_iff in Hc.
    cbn [app split_loop]. rewrite Hc.
    rewrite (IH Hl). cbn [rev]. rewrite <- app_assoc. reflexivity.
Qed.

Lemma on_raw_bytes_decoded mode model json_loads g raw decoded :
  raw <> [] ->
  utf8_decode raw = Ok decoded ->
  on_raw_bytes mode model json_loads g raw
  = let '(st, acts, buffer) :=
      split_loop mode model json_loads (gen_buffer g ++ decoded) []
        (gen_state g) in
    (Generator buffer st, acts).
Proof.
  intros N D. unfold on_raw_bytes. rewrite D.
  destruct raw; [contradiction | reflexivity].
Qed.

Lemma on_raw_bytes_undecodable mode model json_loads g raw e :
  utf8_decode raw = Raise e ->
  on_raw_bytes mode model json_loads g raw = (g, []).
Proof.
  intros D. unfold on_raw_bytes. rewrite D. destruct raw; reflexivity.
Qed.

(** *** Chunks cut on character boundaries *)

(** [bytes.decode] of a concatenation, when the first part decodes on its
    own. *)
Lemma utf8_decode_app_len (n : nat) :
  forall a sa,
    (List.length a <= n)%nat ->
    utf8_decode a = Ok sa ->
    forall b,
      utf8_decode (a ++ b)
      = bind (utf8_decode b) (fun sb => Ok (sa ++ sb)).
Proof.
  induction n as [|n IH]; intros a sa Hlen Ha b.
  - destruct a; [|simpl in Hlen; lia].
    simpl in Ha. injection Ha as <-. simpl.
    destruct (utf8_decode b); reflexivity.
  - destruct a as [|b0 r0].
    { simpl in Ha. injection Ha as <-. simpl.
      destruct (utf8_decode b); reflexivity. }
    cbn [utf8_decode app] in *.
    destruct ((0 <=? b0) && (b0 <? 128)).
    { destruct (utf8_decode r0) as [s|] eqn:E; [|discriminate].
      cbn [bind] in Ha. injection Ha as <-.
      rewrite (IH r0 s) by (simpl in Hlen; auto; lia).
      destruct (utf8_decode b); reflexivity. }
    destruct (Z.land b0 224 =? 192).
    { destruct r0 as [|b1 r1]; [discriminate|].
      cbn [app].
      destruct (is_cont b1 && _); [|discriminate].
      destruct (utf8_decode r1) as [s|] eqn:E; [|discriminate].
      cbn [bind] in Ha. injection Ha as <-.
      rewrite (IH r1 s) by (simpl in Hlen; auto; lia).
      destruct (utf8_decode b); reflexivity. }
    destruct (Z.land b0 240 =? 224).
    { destruct r0 as [|b1 [|b2 r2]]; try discriminate.
      cbn [app].
      destruct (is_cont b1 && _ && _ && _); [|discriminate].
      destruct (utf8_decode r2) as [s|] eqn:E; [|discriminate].
      cbn [bind] in Ha. injection Ha as <-.
      rewrite (IH r2 s) by (simpl in Hlen; auto; lia).
      destruct (utf8_decode b); reflexivity. }
    destruct (Z.land b0 248 =? 240); [|discriminate].
    destruct r0 as [|b1 [|b2 [|b3 r3]]]; try discriminate.
    cbn [app].
    destruct (is_cont b1 && _ && _ && _ && _); [|discriminate].
    destruct (utf8_decode r3) as [s|] eqn:E; [|discriminate].
    cbn [bind] in Ha. injection Ha as <-.
    rewrite (IH r3 s) by (simpl in Hlen; auto; lia).
    destruct (utf8_decode b); reflexivity.
Qed.

(** [bytes.decode] of chunks that each decode on their own. *)
Lemma utf8_decode_concat (chunks : list bytes) (texts : list text) :
  Forall2 (fun raw decoded => raw <> [] /\ utf8_decode raw = Ok decoded)
    chunks texts ->
  utf8_decode (List.concat chunks) = Ok (List.concat texts).
Proof.
  induction 1 as [|raw decoded chunks texts [_ Hdec] _ IH]; [reflexivity|].
  cbn [List.concat].
  rewrite (utf8_decode_app_len (List.length raw) raw decoded (le_n _) Hdec).
  rewrite IH. reflexivity.
Qed.

(** The only exception the dispatch can end in is the one [str.encode()]
    raises on an id that is not well-formed Unicode text, in the zero-width
    mode. *)
Lemma handle_event_never_raises mode model st chunk :
  (mode = 2 ->
   forallb is_scalar (get_default (ch_conversation_id chunk)) = true) ->
  snd (handle_event mode model st chunk) = None.
Proof.
  intros W. unfold handle_event.
  assert (A : forall answer, snd (on_answer model st chunk answer) = None).
  { intros answer. unfold on_answer.
    destruct (negb (truthy answer)); reflexivity. }
  assert (E : snd (on_message_end mode model st chunk) = None).
  { unfold on_message_end.
    destruct (Z.eqb_spec mode 2) as [M|M]; [|reflexivity].
    destruct (truthy_opt _ && negb _); [|reflexivity].
    destruct (encode_conversation_id_scalar _ (W M)) as [token ->].
    reflexivity. }
  destruct (opt_is (ch_event chunk) (str "message")),
    (opt_is (ch_event chunk) (str "agent_message")),
    (ch_answer chunk) as [answer|]; try apply A;
    (destruct (opt_is (ch_event chunk) (str "agent_thought"));
     [unfold on_agent_thought; destruct (negb _ && truthy _); reflexivity|];
     destruct (opt_is (ch_event chunk) (str "message_file")); [reflexivity|];
     destruct (opt_is (ch_event chunk) (str "message_end"));
     [exact E | reflexivity]).
Qed.

(** ** The generator on chunks cut anywhere between characters *)

Lemma utf8_decode_ascii (raw : bytes) :
  is_ascii raw = true -> utf8_decode raw = Ok raw.
Proof.
  induction raw as [|b raw IH]; [reflexivity|].
  unfold is_ascii. cbn [forallb]. intros H.
  apply andb_true_iff in H as [Hb Hr].
  cbn [utf8_decode]. rewrite Hb. rewrite (IH Hr). reflexivity.
Qed.

Lemma is_ascii_app (a b : bytes) :
  is_ascii (a ++ b) = is_ascii a && is_ascii b.
Proof. apply forallb_app. Qed.

Lemma is_ascii_concat (chunks : list bytes) :
  is_ascii (List.concat chunks) = true ->
  Forall2 (fun raw decoded => utf8_decode raw = Ok decoded) chunks chunks.
Proof.
  induction chunks as [|raw chunks IH]; intros H; [constructor|].
  cbn [List.concat] in H. rewrite is_ascii_app in H.
  apply andb_true_iff in H as [Hr Hc].
  constructor; [apply utf8_decode_ascii; exact Hr | apply IH; exact Hc].
Qed.

Section QuietStream.

Variables (mode : Z) (model : text) (json_loads : text -> option json_value).

Lemma split_loop_acc (l b : text) :
  no_newline l = true ->
  forall acc st,
    split_loop mode model json_loads (l ++ b) acc st
    = split_loop mode model json_loads b (rev l ++ acc) st.
Proof.
  induction l as [|c l IH]; intros Hl acc st; [reflexivity|].
  simpl in Hl. apply andb_true_iff in Hl as [Hc Hl].
  apply negb_true_iff in Hc.
  cbn [app split_loop]. rewrite Hc. rewrite (IH Hl).
  cbn [rev]. rewrite <- app_assoc. reflexivity.
Qed.

Lemma quiet_acc (l b : text) :
  no_newline l = true ->
  forall acc st,
    quiet mode model json_loads (l ++ b) acc st
    = quiet mode model json_loads b (rev l ++ acc) st.
Proof.
  induction l as [|c l IH]; intros Hl acc st; [reflexivity|].
  simpl in Hl. apply andb_true_iff in Hl as [Hc Hl].
  apply negb_true_iff in Hc.
  cbn [app quiet]. rewrite Hc. rewrite (IH Hl).
  cbn [rev]. rewrite <- app_assoc. reflexivity.
Qed.

Lemma split_loop_held (b : text) (st : stream_state) :
  no_newline b = true ->
  split_loop mode model json_loads b [] st = (st, [], b).
Proof.
  intros H.
  rewrite <- (app_nil_r b) at 1.
  rewrite (split_loop_acc b [] H).
  cbn [split_loop]. rewrite app_nil_r, rev_involutive. reflexivity.
Qed.

(** A quiet pass over [b1 ++ b2] is a quiet pass over [b1] followed by one
    over what it left and [b2]. *)
Lemma split_loop_quiet_app (b1 b2 : text) :
  forall acc st,
    no_newline acc = true ->
    quiet mode model json_loads (b1 ++ b2) acc st ->
    let '(st1, acts1, rest1) := split_loop mode model json_loads b1 acc st in
    no_newline rest1 = true
    /\ quiet mode model json_loads (rest1 ++ b2) [] st1
    /\ split_loop mode model json_loads (b1 ++ b2) acc st
       = let '(st2, acts2, rest2) :=
           split_loop mode model json_loads (rest1 ++ b2) [] st1 in
         (st2, acts1 ++ acts2, rest2).
Proof.
  induction b1 as [|c b1 IH]; intros acc st Hacc Q.
  - cbn [app split_loop] in *.
    assert (Hr : no_newline (rev acc) = true)
      by (unfold no_newline; rewrite forallb_rev'; exact Hacc).
    split; [exact Hr|].
    rewrite (quiet_acc (rev acc) b2 Hr), (split_loop_acc (rev acc) b2 Hr).
    rewrite rev_involutive, app_nil_r.
    split; [exact Q|].
    destruct (split_loop mode model json_loads b2 acc st) as [[? ?] ?].
    reflexivity.
  - cbn [app split_loop quiet] in *.
    destruct (c =? 10) eqn:Ec.
    + destruct (handle_line mode model json_loads st (rev acc))
        as [[st' acts] [e|]]; [contradiction|].
      specialize (IH [] st' eq_refl Q).
      destruct (split_loop mode model json_loads b1 [] st')
        as [[st1 acts1] rest1].
      destruct IH as [Hr [Q' E]].
      split; [exact Hr|]. split; [exact Q'|].
      rewrite E.
      destruct (split_loop mode model json_loads (rest1 ++ b2) [] st1)
        as [[st2 acts2] rest2].
      rewrite app_assoc. reflexivity.
    + apply IH; [|exact Q]. simpl. rewrite Ec. exact Hacc.
Qed.

(** Chunks that each decode on their own, empty ones included, are read
    as their concatenation when the pass over it is quiet. *)
Lemma generate_from_quiet (chunks : list bytes) (texts : list text) :
  Forall2 (fun raw decoded => utf8_decode raw = Ok decoded) chunks texts ->
  forall g,
    no_newline (gen_buffer g) = true ->
    quiet mode model json_loads (gen_buffer g ++ List.concat texts) []
      (gen_state g) ->
    snd (generate_from mode model json_loads g chunks)
    = snd (fst (split_loop mode model json_loads
                  (gen_buffer g ++ List.concat texts) [] (gen_state g))).
Proof.
  induction 1 as [|raw decoded chunks texts Hdec _ IH]; intros g Hg Q.
  - cbn [generate_from List.concat]. rewrite app_nil_r.
    rewrite (split_loop_held _ _ Hg). reflexivity.
  - cbn [generate_from List.concat] in *.
    rewrite app_assoc in Q |- *.
    pose proof (split_loop_quiet_app (gen_buffer g ++ decoded)
                  (List.concat texts) [] (gen_state g) eq_refl Q) as S.
    assert (R : on_raw_bytes mode model json_loads g raw
                = let '(st, acts, buffer) :=
                    split_loop mode model json_loads (gen_buffer g ++ decoded)
                      [] (gen_state g) in
                  (Generator buffer st, acts)).
    { destruct raw as [|b raw].
      - cbn [utf8_decode] in Hdec. injection Hdec as <-.
        rewrite app_nil_r, (split_loop_held _ _ Hg).
        destruct g; reflexivity.
      - apply on_raw_bytes_decoded; [discriminate | exact Hdec]. }
    rewrite R.
    destruct (split_loop mode model json_loads (gen_buffer g ++ decoded) []
                (gen_state g)) as [[st1 acts1] rest1].
    destruct S as [Hr [Q' E]].
    specialize (IH (Generator rest1 st1) Hr Q').
    cbn [gen_buffer gen_state] in IH.
    destruct (generate_from mode model json_loads (Generator rest1 st1) chunks)
      as [g'' acts'].
    cbn [snd] in IH |- *. rewrite IH, E.
    destruct (split_loop mode model json_loads (rest1 ++ List.concat texts)
                [] st1) as [[st2 acts2] rest2].
    reflexivity.
Qed.

End QuietStream.

Section QuietLines.

Variables (mode : Z) (model : text) (json_loads : text -> option json_value).

Lemma handle_line_quiet_record (st : stream_state) (line : text) :
  snd (handle_line mode model json_loads st line) = None ->
  handle_line mode model json_loads st line
  = match line_record json_loads line with
    | Some record => handle_event mode model st record
    | None => (st, [], None)
    end.
Proof.
  unfold handle_line, line_record.
  destruct (payload_of line) as [json_str|]; [|reflexivity].
  destruct (json_loads json_str) as [[record|]|];
    [reflexivity | discriminate | reflexivity].
Qed.

Lemma quiet_line (l r : text) :
  no_newline l = true ->
  forall acc st,
    quiet mode model json_loads (l ++ 10 :: r) acc st
    = match handle_line mode model json_loads st (rev acc ++ l) with
      | (st', _, None) => quiet mode model json_loads r [] st'
      | (_, _, Some _) => False
      end.
Proof.
  intros Hl acc st.
  rewrite (quiet_acc mode model json_loads l (10 :: r) Hl).
  cbn [quiet Z.eqb Pos.eqb].
  rewrite rev_app_distr, rev_involutive. reflexivity.
Qed.

(** A buffer of complete lines none of which raises is read quietly, as
    the sequence of the records of its lines. *)
Lemma split_loop_quiet_lines (lines : list text) :
  forallb no_newline lines = true ->
  Forall (fun line =>
            forall st, snd (handle_line mode model json_loads st line) = None)
    lines ->
  forall st,
    quiet mode model json_loads (unlines lines) [] st
    /\ split_loop mode model json_loads (unlines lines) [] st
       = let '(st', acts) :=
           run_events mode model st (records_of json_loads lines) in
         (st', acts, []).
Proof.
  induction lines as [|line lines IH]; intros Hn Hq st;
    [split; [exact I | reflexivity]|].
  cbn [forallb] in Hn. apply andb_true_iff in Hn as [Hl Hn].
  inversion Hq as [|? ? Hline Hrest]; subst.
  specialize (IH Hn Hrest).
  unfold unlines, records_of. cbn [map List.concat flat_map].
  fold (unlines lines). fold (records_of json_loads lines).
  rewrite <- app_assoc. unfold NL at 1 2. cbn [app].
  rewrite (quiet_line line (unlines lines) Hl).
  rewrite (split_loop_line mode model json_loads line (unlines lines) Hl).
  cbn [rev app].
  pose proof (Hline st) as Hnone.
  rewrite (handle_line_quiet_record st line Hnone) in Hnone |- *.
  destruct (line_record json_loads line) as [record|].
  - cbn [app run_events].
    destruct (handle_event mode model st record) as [[st' acts] e].
    cbn [snd] in Hnone. subst e.
    destruct (IH st') as [Q E]. split; [exact Q|].
    rewrite E.
    destruct (run_events mode model st' (records_of json_loads lines))
      as [st'' acts'].
    reflexivity.
  - destruct (IH st) as [Q E]. split; [exact Q|].
    rewrite E. cbn [app].
    destruct (run_events mode model st (records_of json_loads lines))
      as [st'' acts'].
    reflexivity.
Qed.

(** A stream of complete lines none of which raises, cut into chunks
    that each decode on their own, produces the effects of the records of
    its lines. *)
Lemma generate_runs_lines (chunks : list bytes) (texts lines : list text) :
  Forall2 (fun raw decoded => utf8_decode raw = Ok decoded) chunks texts ->
  List.concat texts = unlines lines ->
  forallb no_newline lines = true ->
  Forall (fun line =>
            forall st, snd (handle_line mode model json_loads st line) = None)
    lines ->
  generate mode model json_loads chunks
  = snd (run_events mode model initial_state (records_of json_loads lines)).
Proof.
  intros Hdec Htext Hn Hq.
  destruct (split_loop_quiet_lines lines Hn Hq initial_state) as [Q E].
  unfold generate.
  rewrite (generate_from_quiet mode model json_loads chunks texts Hdec
             (Generator [] initial_state) eq_refl);
    cbn [gen_buffer gen_state app]; rewrite Htext; [|exact Q].
  rewrite E.
  destruct (run_events mode model initial_state (records_of json_loads lines))
    as [st acts].
  reflexivity.
Qed.

End QuietLines.

Lemma handle_line_data mode model json_loads st line json_str chunk :
  payload_of line = Some json_str ->
  json_loads json_str = Some (JObject chunk) ->
  handle_line mode model json_loads st line = handle_event mode model st chunk.
Proof.
  intros P J. unfold handle_line. rewrite P, J. reflexivity.
Qed.

(** C3. In the zero-width mode, the upstream stream of the two lines
    [data: {"event": "message", "answer": "Hi"}] and
    [data: {"event": "message_end", "conversation_id": "s1"}], each
    followed by a blank line, the second with an absent or an empty
    [conversation_history], makes [generate] write, however the bytes
    are cut into chunks: one chunk for ['H'], one for ['i'], one chunk per
    glyph of [encode_conversation_id("s1")], one chunk with an empty
    delta and finish reason ["stop"], and the literal [[DONE]]; nothing
    else, and it sleeps once after each of the two characters. The reader
    [json_loads] is any function that returns the two records for the
    two payloads. *)
Theorem streaming_Hi_then_s1 :
  forall model json_loads history chunks,
    history = None \/ history = Some [] ->
    json_loads payload_Hi = Some (JObject message_Hi) ->
    json_loads (payload_end_s1 history)
    = Some (JObject (message_end_s1 history)) ->
    List.concat chunks = stream_Hi_s1 history ->
    exists token,
      encode_conversation_id (str "s1") = Ok token
      /\ List.length token = 7%nat
      /\ yielded (generate 2 model json_loads chunks)
         = frames_Hi_then model token
      /\ slept (generate 2 model json_loads chunks)
         = [calculate_delay 1; calculate_delay 0].
Proof.
  intros model json_loads history chunks H J1 J2 E.
  set (lines := [str "data: " ++ payload_Hi; [];
                 str "data: " ++ payload_end_s1 history; []]).
  assert (P1 : payload_of (str "data: " ++ payload_Hi) = Some payload_Hi)
    by (vm_compute; reflexivity).
  assert (P2 : payload_of (str "data: " ++ payload_end_s1 history)
               = Some (payload_end_s1 history))
    by (destruct H as [-> | ->]; vm_compute; reflexivity).
  assert (G : generate 2 model json_loads chunks
              = snd (run_events 2 model initial_state
                       [message_Hi; message_end_s1 history])).
  { rewrite (generate_runs_lines 2 model json_loads chunks chunks lines).
    - unfold records_of, lines, line_record. cbn [flat_map].
      rewrite P1, P2, J1, J2. reflexivity.
    - apply is_ascii_concat. rewrite E.
      destruct H as [-> | ->]; vm_compute; reflexivity.
    - rewrite E. destruct H as [-> | ->]; vm_compute; reflexivity.
    - destruct H as [-> | ->]; vm_compute; reflexivity.
    - repeat constructor; intros st.
      + rewrite (handle_line_data _ _ _ _ _ _ _ P1 J1).
        apply handle_event_never_raises. reflexivity.
      + rewrite (handle_line_data _ _ _ _ _ _ _ P2 J2).
        apply handle_event_never_raises. reflexivity. }
  rewrite G. eexists.
  split; [vm_compute; reflexivity|].
  destruct H as [-> | ->]; repeat split; reflexivity.
Qed.

(** The stream cut after its first twenty bytes and again inside the
    second line, read by a reader that knows the two payloads. *)
Lemma streaming_Hi_then_s1_witness :
  exists token,
    encode_conversation_id (str "s1") = Ok token
    /\ List.length token = 7%nat
    /\ yielded (generate 2 (str "gpt") (reads_Hi_s1 (Some []))
                  [firstn 20 (stream_Hi_s1 (Some []));
                   firstn 40 (skipn 20 (stream_Hi_s1 (Some [])));
                   skipn 60 (stream_Hi_s1 (Some []))])
       = frames_Hi_then (str "gpt") token
    /\ slept (generate 2 (str "gpt") (reads_Hi_s1 (Some []))
                [firstn 20 (stream_Hi_s1 (Some []));
                 firstn 40 (skipn 20 (stream_Hi_s1 (Some [])));
                 skipn 60 (stream_Hi_s1 (Some []))])
       = [calculate_delay 1; calculate_delay 0].
Proof.
  apply (streaming_Hi_then_s1 (str "gpt") (reads_Hi_s1 (Some [])) (Some [])
           [firstn 20 (stream_Hi_s1 (Some []));
            firstn 40 (skipn 20 (stream_Hi_s1 (Some [])));
            skipn 60 (stream_Hi_s1 (Some []))]).
  - right; reflexivity.
  - reflexivity.
  - reflexivity.
  - reflexivity.
Defined.

(** C4. The parser is not invariant under the cut of the stream into
    chunks: each chunk is decoded as UTF-8 on its own, so a cut inside a
    multi-byte character makes both chunks undecodable and both are
    dropped. Read in one chunk, the line
    [data: {"event": "message", "answer": "é"}] is parsed and handled; cut
    between the two bytes of ['é'], it produces nothing. *)
Theorem cut_inside_character_drops_event :
  forall mode model json_loads record,
    json_loads answer_payload = Some (JObject record) ->
    generate mode model json_loads [line_head ++ line_tail]
    = snd (fst (handle_event mode model initial_state record))
    /\ generate mode model json_loads [line_head; line_tail] = [].
Proof.
  intros mode model json_loads record J. split.
  - unfold generate. cbn [generate_from].
    rewrite (on_raw_bytes_decoded mode model json_loads _ _
               (str "data: " ++ answer_payload ++ NL));
      [|discriminate | vm_compute; reflexivity].
    cbn [gen_buffer gen_state app].
    replace (str "data: " ++ answer_payload ++ NL)
      with ((str "data: " ++ answer_payload) ++ 10 :: [])
      by (rewrite <- app_assoc; reflexivity).
    rewrite split_loop_line by (vm_compute; reflexivity).
    cbn [rev app]. unfold handle_line.
    replace (payload_of (str "data: " ++ answer_payload))
      with (Some answer_payload) by (vm_compute; reflexivity).
    rewrite J.
    destruct (handle_event mode model initial_state record)
      as [[st acts] [e|]]; cbn [split_loop fst snd];
      rewrite ?app_nil_r; reflexivity.
  - unfold generate. cbn [generate_from].
    rewrite (on_raw_bytes_undecodable mode model json_loads _ line_head
               UnicodeDecodeError) by (vm_compute; reflexivity).
    rewrite (on_raw_bytes_undecodable mode model json_loads _ line_tail
               UnicodeDecodeError) by (vm_compute; reflexivity).
    reflexivity.
Qed.

(** With a reader that knows the payload: one frame for ['é'] against
    nothing at all. *)
Lemma cut_inside_character_drops_event_witness :
  generate 1 (str "gpt") reads_answer_payload [line_head ++ line_tail]
  = [Yield (send_char (str "gpt") 0xE9 (Some [])); Sleep (2 # 100)%Q]
  /\ generate 1 (str "gpt") reads_answer_payload [line_head; line_tail] = [].
Proof.
  apply (cut_inside_character_drops_event 1 (str "gpt") reads_answer_payload
           answer_record).
  reflexivity.
Defined.

Lemma tails_ok : all_below 256 tail_ok = true.
Proof. vm_compute. reflexivity. Qed.

Lemma tail_facts (a : Z) :
  is_byte a = true ->
  in6 (Z.shiftl (Z.land a 3) 4) = true
  /\ Z.shiftr (Z.shiftl (Z.land a 3) 4) 4 = Z.land a 3
  /\ Z.land (Z.shiftl (Z.land a 3) 4) 15 = 0
  /\ in6 (Z.shiftl (Z.land a 15) 2) = true
  /\ Z.shiftr (Z.shiftl (Z.land a 15) 2) 2 = Z.land a 15
  /\ Z.land (Z.shiftl (Z.land a 15) 2) 3 = 0.
Proof.
  intros Ha. unfold is_byte in Ha. apply andb_true_iff in Ha as [Hl Hh].
  apply Z.leb_le in Hl. apply Z.ltb_lt in Hh.
  pose proof (all_below_spec 256 tail_ok tails_ok a (conj Hl Hh)) as H.
  unfold tail_ok in H. cbn zeta in H. split_andb.
  repeat split; try assumption; apply Z.eqb_eq; assumption.
Qed.

Lemma groups_split (n : nat) :
  forall raw,
    (List.length raw <= n)%nat ->
    raw = whole_groups raw ++ remainder raw
    /\ triples (whole_groups raw)
    /\ (List.length (remainder raw) < 3)%nat
    /\ Z.of_nat (List.length (remainder raw))
       = Z.of_nat (List.length raw) mod 3.
Proof.
  induction n as [|n IH]; intros raw Hn.
  - destruct raw; [|simpl in Hn; lia].
    repeat split; simpl; try constructor; lia.
  - destruct raw as [|a [|b [|c rest]]];
      try (repeat split; simpl; try constructor; lia).
    destruct (IH rest) as [E [T [L M]]]; [simpl in Hn; lia|].
    cbn [whole_groups remainder app].
    repeat split.
    + congruence.
    + constructor; exact T.
    + exact L.
    + rewrite M.
      replace (Z.of_nat (List.length (a :: b :: c :: rest)))
        with (Z.of_nat (List.length rest) + 1 * 3)
        by (cbn [List.length]; lia).
      rewrite Z_mod_plus_full. reflexivity.
Qed.

Lemma b64encode_groups (body tail : bytes) :
  triples body ->
  b64encode (body ++ tail) = map b64_char (sextets body) ++ b64encode tail.
Proof.
  induction 1 as [|a b c rest _ IH]; [reflexivity|].
  cbn [app b64encode sextets map]. rewrite IH. reflexivity.
Qed.

(** At the start of a group the bits and the padding count left over
    are not read. *)
Lemma a2b_base64_at_start (s : text) :
  forall leftchar pads out,
    a2b_base64 s 0 leftchar pads out = a2b_base64 s 0 0 0 out.
Proof.
  induction s as [|ch s IH]; intros leftchar pads out; [reflexivity|].
  cbn [a2b_base64].
  destruct (ch =? PAD).
  - cbn [Z.leb Z.compare andb]. rewrite (IH leftchar pads). symmetry.
    apply IH.
  - destruct (b64_value ch); [reflexivity|].
    rewrite (IH leftchar pads). symmetry. apply IH.
Qed.

Lemma a2b_base64_groups (body : bytes) (rest : text) :
  triples body -> forallb is_byte body = true ->
  forall leftchar pads out,
    a2b_base64 (map b64_char (sextets body) ++ rest) 0 leftchar pads out
    = a2b_base64 rest 0 0 0 (rev body ++ out).
Proof.
  induction 1 as [|a b c body _ IH]; intros Hb leftchar pads out.
  - apply a2b_base64_at_start.
  - cbn [forallb] in Hb. split_andb.
    destruct (byte_facts a) as [A0 [_ [Ja _]]]; [assumption|].
    destruct (byte_facts b) as [_ [_ [_ [Jb _]]]]; [assumption|].
    destruct (byte_facts c) as [_ [C3 [_ [_ Jc]]]]; [assumption|].
    destruct (pair_facts a b) as [AB [_ [AB1 [AB2 _]]]]; [assumption..|].
    destruct (pair_facts b c) as [_ [BC [_ [_ [BC1 BC2]]]]]; [assumption..|].
    destruct (sextet_facts _ A0) as [_ [V0 [_ P0]]].
    destruct (sextet_facts _ AB) as [_ [V1 [_ P1]]].
    destruct (sextet_facts _ BC) as [_ [V2 [_ P2]]].
    destruct (sextet_facts _ C3) as [_ [V3 [_ P3]]].
    cbn [sextets map app a2b_base64].
    rewrite P0, V0. cbn [Z.eqb].
    rewrite P1, V1. cbn [Z.eqb Pos.eqb].
    rewrite P2, V2. cbn [Z.eqb Pos.eqb].
    rewrite P3, V3. cbn [Z.eqb Pos.eqb].
    rewrite AB1, AB2, BC1, BC2, Ja, Jb, Jc.
    rewrite IH by assumption.
    cbn [rev]. rewrite <- !app_assoc. reflexivity.
Qed.

Lemma glyphs_of_sextets_app (vs : list Z) (tail : text) :
  forallb in6 vs = true ->
  base64_chars_of (flat_map encode_char (map b64_char vs) ++ tail)
  = map b64_char vs ++ base64_chars_of tail.
Proof.
  induction vs as [|v vs IH]; intros H; [reflexivity|].
  cbn [forallb] in H. apply andb_true_iff in H as [Hv Hvs].
  destruct (sextet_facts v Hv) as [[g1 [g2 [E [_ [_ J]]]]] _].
  cbn [map flat_map]. rewrite E. cbn [app base64_chars_of].
  rewrite J, (IH Hvs). reflexivity.
Qed.

Lemma encode_char_PAD : encode_char PAD = [char_map 0].
Proof. reflexivity. Qed.

Lemma add_padding_quads (quads rest : text) :
  Z.of_nat (List.length quads) mod 4 = 0 ->
  add_padding (quads ++ rest) = quads ++ add_padding rest.
Proof.
  intros H. unfold add_padding.
  rewrite length_app, Nat2Z.inj_add, Zplus_mod, H, Z.add_0_l, Z.mod_mod
    by lia.
  destruct (Z.of_nat (List.length rest) mod 4 =? 0); [reflexivity|].
  rewrite app_assoc. reflexivity.
Qed.

Lemma add_padding_3 (x y z : Z) : add_padding [x; y; z] = [x; y; z; PAD].
Proof. reflexivity. Qed.

Lemma add_padding_4 (x y z w : Z) : add_padding [x; y; z; w] = [x; y; z; w].
Proof. reflexivity. Qed.

(** The glyphs of the Base64 form of the one or two bytes left over, read
    back: the data characters, then the character ['A'] that the glyph of
    the padding turns into, which decodes to one more byte, zero. *)
Lemma tail_glyphs (tail : bytes) :
  forallb is_byte tail = true ->
  (0 < List.length tail < 3)%nat ->
  let token := flat_map encode_char (b64encode tail) in
  let base64_str := add_padding (base64_chars_of token) in
  forallb is_glyph token = true
  /\ token <> []
  /\ forallb (fun c => c <? 128) base64_str = true
  /\ forall out,
      a2b_base64 base64_str 0 0 0 out = Ok (rev out ++ tail ++ [0]).
Proof.
  intros Hb Hl.
  assert (Z0 : in6 0 = true) by reflexivity.
  destruct (sextet_facts 0 Z0) as [_ [VA [AA PA]]].
  destruct tail as [|a [|b [|c tail]]]; try (simpl in Hl; lia).
  - cbn [forallb] in Hb. split_andb.
    destruct (byte_facts a) as [A0 [_ [Ja _]]]; [assumption|].
    destruct (tail_facts a) as [T1 [T1a [T1b _]]]; [assumption|].
    destruct (sextet_facts _ A0)
      as [[g1 [g2 [E0 [Gg1 [Gg2 J0]]]]] [V0 [A0' P0]]].
    destruct (sextet_facts _ T1)
      as [[h1 [h2 [E1 [Gh1 [Gh2 J1]]]]] [V1 [A1' P1]]].
    cbn zeta. cbn [b64encode flat_map].
    fold (six0 a). rewrite E0, E1, encode_char_PAD.
    cbn [app base64_chars_of]. rewrite J0, J1.
    change (Z.lor (Z.shiftl (digit_of (char_map 0)) 3) (digit_of (char_map 0)))
      with 0.
    rewrite add_padding_3.
    repeat split.
    + cbn [forallb]. rewrite Gg1, Gg2, Gh1, Gh2. reflexivity.
    + discriminate.
    + cbn [forallb]. rewrite A0', A1', AA. reflexivity.
    + intros out. cbn [a2b_base64].
      rewrite P0, V0. cbn [Z.eqb].
      rewrite P1, V1. cbn [Z.eqb Pos.eqb].
      rewrite PA, VA. cbn [Z.eqb Pos.eqb].
      rewrite T1a, T1b, Ja.
      cbn. rewrite <- !app_assoc. reflexivity.
  - cbn [forallb] in Hb. split_andb.
    destruct (byte_facts a) as [A0 [_ [Ja _]]]; [assumption|].
    destruct (byte_facts b) as [_ [_ [_ [Jb _]]]]; [assumption|].
    destruct (pair_facts a b) as [AB [_ [AB1 [AB2 _]]]]; [assumption..|].
    destruct (tail_facts b) as [_ [_ [_ [T2 [T2a T2b]]]]]; [assumption|].
    destruct (sextet_facts _ A0)
      as [[g1 [g2 [E0 [Gg1 [Gg2 J0]]]]] [V0 [A0' P0]]].
    destruct (sextet_facts _ AB)
      as [[h1 [h2 [E1 [Gh1 [Gh2 J1]]]]] [V1 [A1' P1]]].
    destruct (sextet_facts _ T2)
      as [[k1 [k2 [E2 [Gk1 [Gk2 J2]]]]] [V2 [A2' P2]]].
    cbn zeta. cbn [b64encode flat_map].
    fold (six0 a). fold (six1 a b). rewrite E0, E1, E2, encode_char_PAD.
    cbn [app base64_chars_of]. rewrite J0, J1, J2.
    change (Z.shiftl (digit_of (char_map 0)) 3) with 0.
    rewrite add_padding_4.
    repeat split.
    + cbn [forallb]. rewrite Gg1, Gg2, Gh1, Gh2, Gk1, Gk2. reflexivity.
    + discriminate.
    + cbn [forallb]. rewrite A0', A1', A2', AA. reflexivity.
    + intros out. cbn [a2b_base64].
      rewrite P0, V0. cbn [Z.eqb].
      rewrite P1, V1. cbn [Z.eqb Pos.eqb].
      rewrite P2, V2. cbn [Z.eqb Pos.eqb].
      rewrite PA, VA. cbn [Z.eqb Pos.eqb].
      rewrite AB1, AB2, T2a, T2b, Ja, Jb.
      cbn. rewrite <- !app_assoc. reflexivity.
Qed.

Lemma encode_conversation_id_groups (id : text) (raw : bytes) :
  id <> [] -> utf8_encode id = Ok raw ->
  encode_conversation_id id
  = Ok (flat_map encode_char (map b64_char (sextets (whole_groups raw)))
        ++ flat_map encode_char (b64encode (remainder raw))).
Proof.
  intros Hid Hraw.
  destruct (groups_split _ raw (le_n _)) as [E [T _]].
  unfold encode_conversation_id.
  apply truthy_true in Hid. rewrite Hid. cbn [negb].
  rewrite Hraw. cbn [bind].
  rewrite E at 1. rewrite (b64encode_groups _ _ T), flat_map_app.
  reflexivity.
Qed.

(** Every token consists of glyphs only, and is empty only for the empty
    id. *)
Lemma token_glyphs (id token : text) :
  encode_conversation_id id = Ok token ->
  forallb is_glyph token = true /\ (token = [] <-> id = []).
Proof.
  intros H.
  destruct id as [|c id].
  { cbn in H. apply Ok_inj in H. subst token.
    split; [reflexivity | split; reflexivity]. }
  assert (Hid : c :: id <> []) by discriminate.
  destruct (utf8_encode (c :: id)) as [raw|e] eqn:Hraw.
  2:{ unfold encode_conversation_id in H. cbn [truthy negb] in H.
      rewrite Hraw in H. discriminate. }
  rewrite (encode_conversation_id_groups _ raw Hid Hraw) in H.
  apply Ok_inj in H. subst token.
  destruct (utf8_roundtrip _ raw Hraw) as [_ [Hb Hne]].
  specialize (Hne Hid).
  destruct (groups_split _ raw (le_n _)) as [E [T [L _]]].
  rewrite E in Hb. rewrite forallb_app in Hb.
  apply andb_true_iff in Hb as [Hbody Htail].
  pose proof (sextets_in6 _ T Hbody) as H6.
  destruct (glyphs_of_sextets _ H6) as [G [_ N]].
  destruct (remainder raw) as [|t0 tl] eqn:Er.
  - cbn [b64encode flat_map]. rewrite app_nil_r.
    split; [exact G|].
    split; [|discriminate].
    intros Hz. exfalso. revert Hz. apply N.
    rewrite app_nil_r in E. rewrite <- E in T |- *.
    revert Hne. clear - T. intros Hne.
    destruct T; [congruence | discriminate].
  - destruct (tail_glyphs (t0 :: tl) Htail) as [G' [N' _]].
    { split; [simpl; lia | exact L]. }
    rewrite forallb_app, G, G'.
    split; [reflexivity|].
    split; [|discriminate].
    intros Hz. apply app_eq_nil in Hz as [_ Hz]. contradiction.
Qed.

(** What the decoder returns for a token at the end of a carrier text: the
    id when its UTF-8 form is a whole number of groups of three bytes, the
    id followed by U+0000 otherwise. *)
Lemma decode_token (id : text) (raw : bytes) (carrier token : text) :
  id <> [] ->
  utf8_encode id = Ok raw ->
  ends_visible carrier = true ->
  encode_conversation_id id = Ok token ->
  decode_conversation_id (carrier ++ token)
  = Some (if Z.of_nat (List.length raw) mod 3 =? 0 then id else id ++ [0]).
Proof.
  intros Hid Hraw Hvis Htok.
  destruct (Z.eqb_spec (Z.of_nat (List.length raw) mod 3) 0) as [Hm|Hm].
  { destruct (roundtrip_without_padding id raw carrier Hid Hraw Hm Hvis)
      as [token' [Htok' Hdec]].
    rewrite Htok in Htok'. apply Ok_inj in Htok'. subst token'. exact Hdec. }
  pose proof (token_glyphs id token Htok) as [Hg [Hne _]].
  rewrite (encode_conversation_id_groups _ raw Hid Hraw) in Htok.
  apply Ok_inj in Htok.
  destruct (utf8_roundtrip _ raw Hraw) as [Hdec [Hb _]].
  destruct (groups_split _ raw (le_n _)) as [E [T [L M]]].
  assert (Hb' := Hb). rewrite E in Hb'. rewrite forallb_app in Hb'.
  apply andb_true_iff in Hb' as [Hbody Htail].
  pose proof (sextets_in6 _ T Hbody) as H6.
  destruct (tail_glyphs (remainder raw) Htail) as [_ [_ [Hascii Ha2b]]].
  { split; [lia | exact L]. }
  cbn zeta in Hascii, Ha2b.
  unfold decode_conversation_id, decode_body.
  rewrite rev_app_distr, collect_glyphs_app
    by (rewrite forallb_rev'; exact Hg).
  rewrite (collect_glyphs_ends_visible carrier Hvis), app_nil_r.
  assert (Hnz : truthy (rev token) = true).
  { apply truthy_true. intros Hz. apply (f_equal (@rev Z)) in Hz.
    rewrite rev_involutive in Hz. cbn [rev] in Hz.
    apply Hne in Hz. contradiction. }
  rewrite Hnz. cbn [negb]. rewrite rev_involutive.
  rewrite <- Htok.
  rewrite (glyphs_of_sextets_app _ _ H6).
  rewrite (add_padding_quads _ _ (sextets_length _ T)).
  unfold b64decode.
  rewrite forallb_app, (sextets_ascii _ H6), Hascii. cbn [andb].
  rewrite (a2b_base64_groups _ _ T Hbody), Ha2b.
  cbn [bind]. rewrite app_nil_r, rev_involutive, app_assoc, <- E.
  rewrite (utf8_decode_app_len _ raw id (le_n _) Hdec).
  reflexivity.
Qed.

(** ** Streaming: what reaches the client *)


Lemma yielded_drain model (buf : list (Z * option text)) :
  yielded (drain model buf)
  = map (fun entry => send_char model (fst entry) (snd entry)) buf.
Proof.
  induction buf as [|[c i] buf IH]; [reflexivity|].
  cbn [drain yielded map fst snd]. rewrite IH. reflexivity.
Qed.

Lemma slept_drain model (buf : list (Z * option text)) :
  slept (drain model buf) = map calculate_delay (depths (List.length buf)).
Proof.
  unfold depths.
  induction buf as [|[c i] buf IH]; [reflexivity|].
  cbn [drain slept List.length]. rewrite IH.
  rewrite seq_S, rev_app_distr. reflexivity.
Qed.


Lemma answer_dispatch mode model st chunk :
  is_answer_event chunk = true ->
  handle_event mode model st chunk
  = match ch_answer chunk with
    | Some answer => on_answer model st chunk answer
    | None => (st, [], None)
    end.
Proof.
  unfold is_answer_event, handle_event.
  destruct (ch_event chunk) as [e|]; [|discriminate].
  cbn [opt_is].
  destruct (text_eqb e (str "message")) eqn:E1.
  - intros _. destruct (ch_answer chunk); [reflexivity|].
    apply text_eqb_eq in E1. subst e. reflexivity.
  - cbn [orb]. intros E2. rewrite E2.
    destruct (ch_answer chunk); [reflexivity|].
    apply text_eqb_eq in E2. subst e. reflexivity.
Qed.

Lemma on_answer_spelled model st chunk answer :
  output_buffer st = [] ->
  on_answer model st chunk answer
  = (if truthy answer then StreamState (stream_id st chunk) [] else st,
     drain model (map (fun c => (c, stream_id st chunk)) answer),
     None).
Proof.
  intros Hb. unfold on_answer, stream_id.
  destruct answer as [|c answer]; [reflexivity|].
  cbn [truthy negb]. rewrite Hb. cbn [app].
  destruct (truthy_opt (message_id st)); reflexivity.
Qed.

Lemma not_answer_not_end mode model st chunk :
  is_answer_event chunk = false ->
  is_end_event chunk = false ->
  snd (fst (handle_event mode model st chunk)) = []
  /\ output_buffer (fst (fst (handle_event mode model st chunk)))
     = output_buffer st
  /\ snd (handle_event mode model st chunk) = None.
Proof.
  unfold is_answer_event, is_end_event, handle_event.
  intros A E. apply orb_false_iff in A as [A1 A2].
  rewrite A1, A2, E.
  destruct (ch_answer chunk);
    (destruct (opt_is (ch_event chunk) (str "agent_thought"));
     [unfold on_agent_thought; destruct (negb _ && truthy _);
      repeat split; reflexivity|];
     destruct (opt_is (ch_event chunk) (str "message_file"));
     repeat split; reflexivity).
Qed.

Lemma message_end_dispatch mode model st chunk :
  is_end_event chunk = true ->
  handle_event mode model st chunk = on_message_end mode model st chunk.
Proof.
  unfold is_end_event. intros E. apply opt_is_true in E.
  apply is_message_end. exact E.
Qed.


(** The queue is empty after every event: each answer is drained in the
    branch that queued it. *)
Lemma handle_event_empties_queue mode model st chunk :
  output_buffer st = [] ->
  output_buffer (fst (fst (handle_event mode model st chunk))) = [].
Proof.
  intros Hb.
  destruct (is_answer_event chunk) eqn:A.
  - rewrite (answer_dispatch mode model st chunk A).
    destruct (ch_answer chunk) as [answer|]; [|exact Hb].
    rewrite (on_answer_spelled model st chunk answer Hb).
    destruct (truthy answer); [reflexivity | exact Hb].
  - destruct (is_end_event chunk) eqn:E.
    + rewrite (message_end_dispatch mode model st chunk E).
      unfold on_message_end.
      destruct (mode =? 2); [|reflexivity].
      destruct (truthy_opt _ && negb _); [|reflexivity].
      destruct (encode_conversation_id _); reflexivity.
    + destruct (not_answer_not_end mode model st chunk A E) as [_ [-> _]].
      exact Hb.
Qed.

Lemma handle_line_empties_queue mode model json_loads st line :
  output_buffer st = [] ->
  output_buffer (fst (fst (handle_line mode model json_loads st line))) = [].
Proof.
  intros Hb. unfold handle_line.
  destruct (payload_of line) as [json_str|]; [|exact Hb].
  destruct (json_loads json_str) as [[chunk|]|]; [|exact Hb|exact Hb].
  apply handle_event_empties_queue. exact Hb.
Qed.

Lemma split_loop_empties_queue mode model json_loads (buffer : text) :
  forall line st,
    output_buffer st = [] ->
    output_buffer
      (fst (fst (split_loop mode model json_loads buffer line st))) = [].
Proof.
  induction buffer as [|c buffer IH]; intros line st Hb; [exact Hb|].
  cbn [split_loop].
  destruct (c =? 10); [|apply IH; exact Hb].
  pose proof (handle_line_empties_queue mode model json_loads st (rev line) Hb)
    as H.
  destruct (handle_line mode model json_loads st (rev line))
    as [[st' acts] [e|]]; cbn [fst] in H; [exact H|].
  specialize (IH [] st' H).
  destruct (split_loop mode model json_loads buffer [] st')
    as [[st'' acts'] buffer'].
  exact IH.
Qed.

Lemma generate_from_empties_queue mode model json_loads (chunks : list bytes) :
  forall g,
    output_buffer (gen_state g) = [] ->
    output_buffer
      (gen_state (fst (generate_from mode model json_loads g chunks))) = [].
Proof.
  induction chunks as [|raw chunks IH]; intros g Hb; [exact Hb|].
  cbn [generate_from].
  assert (H : output_buffer
                (gen_state (fst (on_raw_bytes mode model json_loads g raw)))
              = []).
  { unfold on_raw_bytes. destruct raw as [|b raw]; [exact Hb|].
    destruct (utf8_decode (b :: raw)) as [decoded|]; [|exact Hb].
    pose proof (split_loop_empties_queue mode model json_loads
                  (gen_buffer g ++ decoded) [] (gen_state g) Hb) as H.
    destruct (split_loop mode model json_loads (gen_buffer g ++ decoded) []
                (gen_state g)) as [[st acts] buffer].
    exact H. }
  destruct (on_raw_bytes mode model json_loads g raw) as [g' acts].
  specialize (IH g' H).
  destruct (generate_from mode model json_loads g' chunks) as [g'' acts'].
  exact IH.
Qed.



Lemma yielded_flush model (buf : list (Z * option text)) :
  yielded (flush model buf)
  = map (fun entry => send_char model (fst entry) (snd entry)) buf.
Proof.
  induction buf as [|[c i] buf IH]; [reflexivity|].
  cbn [flush yielded map fst snd]. rewrite IH. reflexivity.
Qed.


(** A frame made by [send_char] is neither the terminator nor a stop
    chunk. *)
Lemma filter_chars {A : Type} model (p : sse_payload -> bool)
    (f : A -> Z * option text) (l : list A) :
  (forall c i, p (send_char model c i) = false) ->
  filter p (map (fun a => send_char model (fst (f a)) (snd (f a))) l) = [].
Proof.
  intros H. induction l as [|a l IH]; [reflexivity|].
  cbn [map filter]. rewrite H. exact IH.
Qed.





(** ** Parser: edges of the line loop *)

Lemma Forall2_snoc {A B : Type} (R : A -> B -> Prop) l l' a b :
  Forall2 R l l' -> R a b -> Forall2 R (l ++ [a]) (l' ++ [b]).
Proof.
  intros H Hab. apply Forall2_app; [exact H|].
  constructor; [exact Hab | constructor].
Qed.

Lemma lstrip_spaces (ws s : text) :
  forallb isspace ws = true -> lstrip (ws ++ s) = lstrip s.
Proof.
  induction ws as [|c ws IH]; [reflexivity|].
  cbn [forallb app lstrip]. intros H. apply andb_true_iff in H as [Hc Hws].
  rewrite Hc. apply IH. exact Hws.
Qed.

Lemma lstrip_all_spaces (ws : text) :
  forallb isspace ws = true -> lstrip ws = [].
Proof.
  intros H. rewrite <- (app_nil_r ws). rewrite (lstrip_spaces ws [] H).
  reflexivity.
Qed.

Lemma lstrip_app (s t : text) :
  lstrip (s ++ t) = if forallb isspace s then lstrip t else lstrip s ++ t.
Proof.
  induction s as [|c s IH]; [reflexivity|].
  cbn [app lstrip forallb].
  destruct (isspace c); [exact IH | reflexivity].
Qed.

Lemma lstrip_head (s : text) :
  match lstrip s with
  | [] => True
  | c :: _ => isspace c = false
  end.
Proof.
  induction s as [|c s IH]; [exact I|].
  cbn [lstrip]. destruct (isspace c) eqn:E; [exact IH | exact E].
Qed.

Lemma strip_spaces (before line after : text) :
  forallb isspace before = true -> forallb isspace after = true ->
  strip (before ++ line ++ after) = strip line.
Proof.
  intros Hb Ha. unfold strip.
  rewrite (lstrip_spaces before _ Hb), lstrip_app.
  destruct (forallb isspace line) eqn:E.
  - rewrite (lstrip_all_spaces after Ha), (lstrip_all_spaces line E).
    reflexivity.
  - rewrite rev_app_distr, lstrip_spaces
      by (rewrite forallb_rev'; exact Ha).
    reflexivity.
Qed.

Lemma payload_of_spaces (before line after : text) :
  forallb isspace before = true -> forallb isspace after = true ->
  payload_of (before ++ line ++ after) = payload_of line.
Proof.
  intros Hb Ha. unfold payload_of.
  rewrite (strip_spaces before line after Hb Ha). reflexivity.
Qed.

Lemma startswith_spec (line prefix : text) :
  startswith line prefix = true <-> exists rest, line = prefix ++ rest.
Proof.
  revert line. induction prefix as [|p prefix IH]; intros line.
  - split; [intros _; exists line; reflexivity|].
    intros _. destruct line; reflexivity.
  - destruct line as [|c line]; cbn [startswith].
    + split; [discriminate | intros [rest H]; discriminate].
    + rewrite andb_true_iff, Z.eqb_eq, IH. split.
      * intros [-> [rest ->]]. exists rest. reflexivity.
      * intros [rest H]. cbn [app] in H. injection H as -> ->.
        split; [reflexivity | exists rest; reflexivity].
Qed.

Lemma strip_last (s : text) (c : Z) (front : text) :
  strip s = front ++ [c] -> isspace c = false.
Proof.
  unfold strip. intros H.
  apply (f_equal (@rev Z)) in H.
  rewrite rev_involutive, rev_app_distr in H. cbn [rev app] in H.
  pose proof (lstrip_head (rev (lstrip s))) as L.
  rewrite H in L. exact L.
Qed.

(** A line gives a payload exactly when, stripped, it is ["data: "]
    followed by the payload; the payload is then not empty. *)
Lemma payload_of_spec (line json_str : text) :
  payload_of line = Some json_str
  <-> strip line = str "data: " ++ json_str /\ json_str <> [].
Proof.
  unfold payload_of. split.
  - destruct (truthy (strip line)) eqn:T; [|discriminate]. cbn [negb orb].
    destruct (startswith (strip line) (str "data: ")) eqn:S; [|discriminate].
    cbn [negb]. intros H. apply startswith_spec in S as [rest S].
    rewrite S in H. change (skipn 6 (str "data: " ++ rest)) with rest in H.
    injection H as <-. split; [exact S|].
    intros ->. rewrite app_nil_r in S.
    apply (strip_last line 32 (str "data:")) in S. discriminate.
  - intros [S N]. rewrite S.
    replace (truthy (str "data: " ++ json_str)) with true by reflexivity.
    replace (startswith (str "data: " ++ json_str) (str "data: ")) with true.
    + reflexivity.
    + symmetry. apply startswith_spec. exists json_str. reflexivity.
Qed.

(** ** RequestTranslator: both modes *)

Lemma history_loop_spec (prior : list message) :
  forall lines has_system,
    history_loop prior lines has_system
    = (lines ++ transcript prior, has_system || renders_system prior).
Proof.
  unfold transcript, renders_system.
  induction prior as [|msg prior IH]; intros lines has_system.
  - cbn. rewrite app_nil_r, orb_false_r. reflexivity.
  - cbn [history_loop filter]. fold (is_rendered msg).
    destruct (is_rendered msg) eqn:R.
    + rewrite IH. cbn [map existsb]. rewrite <- app_assoc. cbn [app].
      unfold render at 2.
      destruct (text_eqb (get_default (msg_role msg)) (str "system"));
        cbn [orb]; rewrite ?orb_true_r; reflexivity.
    + apply IH.
Qed.

Lemma last_user_query_snoc (prior : list message) (final : message) :
  last_user_query (prior ++ [final])
  = if readable final then Ok (question_of final)
    else Raise (KeyError "content").
Proof.
  unfold last_user_query, readable, question_of.
  rewrite last_item_snoc.
  destruct (opt_is (msg_role final) (str "system")); [reflexivity|].
  destruct (msg_content final); reflexivity.
Qed.

Lemma length_snoc_gt1 {A : Type} (prior : list A) (final : A) :
  (1 <? Z.of_nat (List.length (prior ++ [final])))
  = negb (Nat.eqb (List.length prior) 0).
Proof.
  rewrite length_app. cbn [List.length].
  destruct prior as [|a prior]; [reflexivity|].
  cbn [List.length Nat.eqb negb]. apply Z.ltb_lt. lia.
Qed.

(** The request of the zero-width mode. *)
Lemma transform_zero_width (prior : list message) (final : message)
    stream user model :
  transform_openai_to_dify 2
    (OpenAIRequest (Some (prior ++ [final])) stream user model)
    chat_completions
  = if readable final then
      let system_content := system_content_of (prior ++ [final]) in
      let conversation_id := scan_assistant (rev prior) None in
      Ok (Some (DifyRequest []
                  (if truthy system_content
                      && negb (truthy_opt conversation_id)
                   then with_system system_content (question_of final)
                   else question_of final)
                  (response_mode_of stream)
                  (Some conversation_id)
                  (match user with
                   | Some u => u
                   | None => str "default_user"
                   end)))
    else Raise (KeyError "content").
Proof.
  unfold transform_openai_to_dify. rewrite text_eqb_refl.
  cbn [req_messages req_stream req_user Z.eqb Pos.eqb].
  rewrite last_user_query_snoc, removelast_last, length_snoc_gt1.
  destruct (readable final); [|reflexivity].
  cbn [bind]. cbn zeta.
  destruct prior as [|m prior]; reflexivity.
Qed.

(** The request of the history mode. *)
Lemma transform_history (mode : Z) (prior : list message) (final : message)
    stream user model :
  mode <> 2 ->
  transform_openai_to_dify mode
    (OpenAIRequest (Some (prior ++ [final])) stream user model)
    chat_completions
  = if readable final then
      let system_content := system_content_of (prior ++ [final]) in
      Ok (Some (DifyRequest []
                  (match prior with
                   | [] =>
                       if truthy system_content
                       then with_system system_content (question_of final)
                       else question_of final
                   | _ :: _ =>
                       history_query
                         ((if truthy system_content
                              && negb (renders_system prior)
                           then [str "system: " ++ system_content]
                           else [])
                          ++ transcript prior)
                         (question_of final)
                   end)
                  (response_mode_of stream)
                  None
                  (match user with
                   | Some u => u
                   | None => str "default_user"
                   end)))
    else Raise (KeyError "content").
Proof.
  intros M. unfold transform_openai_to_dify. rewrite text_eqb_refl.
  cbn [req_messages req_stream req_user].
  apply Z.eqb_neq in M. rewrite M.
  rewrite last_user_query_snoc, removelast_last, length_snoc_gt1.
  destruct (readable final); [|reflexivity].
  cbn [bind]. cbn zeta.
  destruct prior as [|m prior]; [reflexivity|].
  cbn [List.length Nat.eqb negb].
  rewrite history_loop_spec. cbn [app orb].
  unfold history_query.
  destruct (truthy _ && negb _); [reflexivity|].
  cbn [app]. destruct (transcript (m :: prior)); reflexivity.
Qed.

Lemma snoc_or_nil {A : Type} (l : list A) :
  l = [] \/ exists prior final, l = prior ++ [final].
Proof.
  destruct l as [|a l]; [left; reflexivity|].
  right. destruct (exists_last (l:=a :: l)) as [prior [final E]];
    [discriminate|]. eauto.
Qed.

(** A scan that meets no assistant message with a non-empty decoded id
    ends with an empty or absent id. *)
Lemma scan_assistant_none (prior : list message) :
  (forall msg,
      In msg prior -> opt_is (msg_role msg) (str "assistant") = true ->
      truthy_opt (decode_conversation_id (get_default (msg_content msg)))
      = false) ->
  forall held,
    truthy_opt held = false ->
    truthy_opt (scan_assistant prior held) = false.
Proof.
  induction prior as [|msg prior IH]; intros H held Hh; [exact Hh|].
  cbn [scan_assistant].
  destruct (opt_is (msg_role msg) (str "assistant")) eqn:A.
  - rewrite (H msg (or_introl eq_refl) A).
    apply IH; [intros m Hin; apply H; right; exact Hin|].
    apply (H msg (or_introl eq_refl) A).
  - apply IH; [intros m Hin; apply H; right; exact Hin | exact Hh].
Qed.

(** ** ResponseAssembler: the answer and the token *)

Lemma find_snoc {A : Type} (f : A -> bool) (l : list A) (a : A) :
  find f (l ++ [a])
  = match find f l with
    | Some x => Some x
    | None => if f a then Some a else None
    end.
Proof.
  induction l as [|x l IH]; [reflexivity|].
  cbn [app find]. destruct (f x); [reflexivity | exact IH].
Qed.

Lemma last_thought_spec (agent_thoughts : list agent_thought) :
  forall answer,
    last_thought agent_thoughts answer
    = match find (fun t => truthy_opt (th_thought t)) (rev agent_thoughts) with
      | Some t => get_default (th_thought t)
      | None => answer
      end.
Proof.
  induction agent_thoughts as [|t r IH]; intros answer; [reflexivity|].
  cbn [last_thought rev]. rewrite find_snoc.
  destruct (truthy_opt (th_thought t)) eqn:T; rewrite IH;
    destruct (find _ (rev r)); reflexivity.
Qed.

(** The completion when no token is appended: outside the zero-width
    mode, without an id in the reply, or when the reply's history already
    holds a decodable run. *)
Lemma transform_dify_to_openai_plain mode now response model :
  mode <> 2
  \/ truthy_opt (rs_conversation_id response) = false
  \/ history_has_id (get_history (rs_conversation_history response)) = true ->
  transform_dify_to_openai mode now response model
  = Ok (OpenAIResponse (get_default (rs_message_id response))
          (match rs_created response with Some t => t | None => now end)
          model (selected_answer response) (str "stop")).
Proof.
  intros H. unfold transform_dify_to_openai, selected_answer, final_thought.
  assert (E : (if mode =? 2
               then
                 if truthy (get_default (rs_conversation_id response))
                    && negb (history_has_id
                               (get_history
                                  (rs_conversation_history response)))
                 then true else false
               else false) = false).
  { destruct H as [M | [C | Hh]].
    - apply Z.eqb_neq in M. rewrite M. reflexivity.
    - destruct (rs_conversation_id response) as [id|];
        cbn [truthy_opt get_default] in *; [rewrite C|];
        destruct (mode =? 2); reflexivity.
    - rewrite Hh, andb_false_r. destruct (mode =? 2); reflexivity. }
  destruct (rs_answer response) as [a|];
    [|destruct (rs_agent_thoughts response) as [ts|];
      [rewrite last_thought_spec|]];
    (destruct (mode =? 2); [|reflexivity];
     destruct (truthy _ && negb _); [discriminate | reflexivity]).
Qed.

(** The completion of the zero-width mode when a token is appended. *)
Lemma transform_dify_to_openai_token now response model id token :
  rs_conversation_id response = Some id -> id <> [] ->
  history_has_id (get_history (rs_conversation_history response)) = false ->
  encode_conversation_id id = Ok token ->
  transform_dify_to_openai 2 now response model
  = Ok (OpenAIResponse (get_default (rs_message_id response))
          (match rs_created response with Some t => t | None => now end)
          model (selected_answer response ++ token) (str "stop")).
Proof.
  intros C N H E.
  unfold transform_dify_to_openai, selected_answer, final_thought.
  rewrite C, H. cbn [get_default Z.eqb Pos.eqb negb].
  apply truthy_true in N. rewrite N, E. cbn [andb bind].
  destruct (rs_answer response) as [a|]; [reflexivity|].
  destruct (rs_agent_thoughts response) as [ts|]; [|reflexivity].
  rewrite last_thought_spec. reflexivity.
Qed.

(** ** Registry *)

Lemma text_eqb_sym (a b : text) : text_eqb a b = text_eqb b a.
Proof.
  destruct (text_eqb a b) eqn:E.
  - apply text_eqb_eq in E. subst. symmetry. apply text_eqb_refl.
  - destruct (text_eqb b a) eqn:E'; [|reflexivity].
    apply text_eqb_eq in E'. subst. rewrite text_eqb_refl in E. discriminate.
Qed.

Lemma text_eqb_neq (a b : text) : text_eqb a b = false <-> a <> b.
Proof.
  split.
  - intros E ->. rewrite text_eqb_refl in E. discriminate.
  - intros N. destruct (text_eqb a b) eqn:E; [|reflexivity].
    apply text_eqb_eq in E. contradiction.
Qed.

Lemma dict_get_set (d : dict) (key value key' : text) :
  dict_get (dict_set d key value) key'
  = if text_eqb key key' then Some value else dict_get d key'.
Proof.
  induction d as [|[k v] d IH]; cbn [dict_set dict_get].
  - reflexivity.
  - destruct (text_eqb k key) eqn:E.
    + apply text_eqb_eq in E. subst k. cbn [dict_get].
      destruct (text_eqb key key'); reflexivity.
    + cbn [dict_get]. rewrite IH.
      destruct (text_eqb k key') eqn:E'; [|reflexivity].
      apply text_eqb_eq in E'. subst k. rewrite text_eqb_sym, E. reflexivity.
Qed.

Lemma dict_keys_set (d : dict) (key value k' : text) :
  In k' (dict_keys (dict_set d key value))
  <-> k' = key \/ In k' (dict_keys d).
Proof.
  unfold dict_keys.
  induction d as [|[k v] d IH]; cbn [dict_set map In fst].
  - split; [intros [<- | []]; left; reflexivity
           | intros [-> | []]; left; reflexivity].
  - destruct (text_eqb k key) eqn:E; cbn [map In fst].
    + apply text_eqb_eq in E. subst k. intuition congruence.
    + rewrite IH. intuition congruence.
Qed.

Lemma dict_keys_set_NoDup (d : dict) (key value : text) :
  NoDup (dict_keys d) -> NoDup (dict_keys (dict_set d key value)).
Proof.
  unfold dict_keys.
  induction d as [|[k v] d IH]; cbn [dict_set map fst]; intros H.
  - constructor; [intros [] | constructor].
  - destruct (text_eqb k key) eqn:E; cbn [map fst].
    + exact H.
    + inversion H as [|? ? Hn Hd]; subst. constructor.
      * intros Hin. apply (dict_keys_set d key value k) in Hin.
        destruct Hin as [-> | Hin]; [|contradiction].
        rewrite text_eqb_refl in E. discriminate.
      * apply IH. exact Hd.
Qed.

Lemma dict_get_keys (d : dict) (key : text) :
  In key (dict_keys d) <-> exists value, dict_get d key = Some value.
Proof.
  unfold dict_keys.
  induction d as [|[k v] d IH]; cbn [map In fst dict_get].
  - split; [intros [] | intros [value H]; discriminate].
  - destruct (text_eqb k key) eqn:E.
    + apply text_eqb_eq in E. subst k. split; eauto.
    + apply text_eqb_neq in E. rewrite IH. split.
      * intros [-> | H]; [contradiction | exact H].
      * intros H. right. exact H.
Qed.


Lemma refresh_loop_step info api_key keys n2k k2n :
  refresh_loop info (api_key :: keys) n2k k2n
  = match registered_name info api_key with
    | Some app_name =>
        refresh_loop info keys (dict_set n2k app_name api_key)
          (dict_set k2n api_key app_name)
    | None => refresh_loop info keys n2k k2n
    end.
Proof.
  cbn [refresh_loop]. unfold registered_name.
  destruct (fetch_app_info (info api_key)) as [app_name|]; [|reflexivity].
  destruct (truthy app_name); reflexivity.
Qed.

(** After the loop a name maps to the last key registered under it, and
    a name no key is registered under keeps what it mapped to. *)
Lemma refresh_loop_names info (keys : list text) :
  forall n2k k2n name,
    dict_get (fst (refresh_loop info keys n2k k2n)) name
    = match find (fun k => opt_is (registered_name info k) name) (rev keys)
      with
      | Some k => Some k
      | None => dict_get n2k name
      end.
Proof.
  induction keys as [|k keys IH]; intros n2k k2n name; [reflexivity|].
  rewrite refresh_loop_step. cbn [rev]. rewrite find_snoc.
  destruct (registered_name info k) as [n|] eqn:R; rewrite IH;
    destruct (find _ (rev keys)); try reflexivity.
  rewrite dict_get_set. cbn [opt_is].
  destruct (text_eqb n name); reflexivity.
Qed.

(** After the loop a key maps to the name it is registered under. *)
Lemma refresh_loop_keys info (keys : list text) :
  forall n2k k2n key,
    dict_get (snd (refresh_loop info keys n2k k2n)) key
    = if existsb (fun k => text_eqb k key
                           && match registered_name info k with
                              | Some _ => true
                              | None => false
                              end) keys
      then registered_name info key
      else dict_get k2n key.
Proof.
  induction keys as [|k keys IH]; intros n2k k2n key; [reflexivity|].
  rewrite refresh_loop_step. cbn [existsb].
  destruct (registered_name info k) as [n|] eqn:R; rewrite IH.
  - destruct (existsb _ keys); [rewrite orb_true_r; reflexivity|].
    rewrite orb_false_r, andb_true_r, dict_get_set.
    destruct (text_eqb k key) eqn:E; [|reflexivity].
    apply text_eqb_eq in E. subst k. symmetry. exact R.
  - rewrite andb_false_r. reflexivity.
Qed.

Lemma refresh_loop_NoDup info (keys : list text) :
  forall n2k k2n,
    NoDup (dict_keys n2k) ->
    NoDup (dict_keys (fst (refresh_loop info keys n2k k2n))).
Proof.
  induction keys as [|k keys IH]; intros n2k k2n H; [exact H|].
  rewrite refresh_loop_step.
  destruct (registered_name info k) as [n|];
    [apply IH, dict_keys_set_NoDup | apply IH]; exact H.
Qed.

Lemma refresh_model_info_maps info manager :
  name_to_api_key (refresh_model_info info manager)
  = fst (refresh_loop info (api_keys manager) [] [])
  /\ api_key_to_name (refresh_model_info info manager)
     = snd (refresh_loop info (api_keys manager) [] [])
  /\ api_keys (refresh_model_info info manager) = api_keys manager.
Proof.
  unfold refresh_model_info.
  destruct (refresh_loop info (api_keys manager) [] []) as [n2k k2n].
  repeat split.
Qed.

(** A name resolves after a refresh exactly to the last key of the list
    registered under it. *)
Lemma get_api_key_refreshed info manager name :
  get_api_key (refresh_model_info info manager) name
  = find (fun k => opt_is (registered_name info k) name)
      (rev (api_keys manager)).
Proof.
  unfold get_api_key.
  destruct (refresh_model_info_maps info manager) as [-> _].
  rewrite refresh_loop_names.
  destruct (find _ (rev (api_keys manager))); reflexivity.
Qed.

Lemma get_api_key_refreshed_inv info manager name key :
  get_api_key (refresh_model_info info manager) name = Some key ->
  In key (api_keys manager) /\ registered_name info key = Some name.
Proof.
  rewrite get_api_key_refreshed. intros H.
  apply find_some in H as [Hin Hr].
  split; [apply in_rev; exact Hin | apply opt_is_true; exact Hr].
Qed.

(** ** The handler *)

Section HandlerFacts.

Variables (keys : list text) (mode : Z) (manager : model_manager)
  (post : text -> dify_request -> post_outcome) (now : Z).

Lemma forward_not_auth_refusal api_key model stream dify_request :
  is_auth_refusal (forward mode post now api_key model stream dify_request)
  = false.
Proof.
  unfold forward.
  destruct stream as [[|]|]; try reflexivity;
    (destruct (post api_key dify_request) as [response|message];
     [destruct (sync_response mode now model response)|]; reflexivity).
Qed.

Lemma forward_upstream_key api_key model stream dify_request k :
  upstream_key (forward mode post now api_key model stream dify_request)
  = Some k -> k = api_key.
Proof.
  unfold forward.
  destruct stream as [[|]|];
    try (destruct (post api_key dify_request) as [response|message];
         [destruct (sync_response mode now model response)|]);
    cbn [upstream_key]; congruence.
Qed.

(** The handler behind the key check. *)
Lemma handler_authorized (request : http_request) :
  authorized keys (hq_authorization request) = true ->
  chat_completions_handler keys mode manager post now request
  = let model := requested_model request in
    let api_key := get_api_key manager model in
    if negb (truthy_opt api_key) then
      Refused 404
        (str "Model " ++ model
         ++ str " is not supported. Available models: "
         ++ join (str ", ") (dict_keys (name_to_api_key manager)))
        (str "invalid_request_error") (Some (str "model_not_found"))
    else
      match transform_openai_to_dify mode (hq_json request) chat_completions
      with
      | Raise e => InternalError e
      | Ok None =>
          Refused 400 (str "Invalid request format")
            (str "invalid_request_error") None
      | Ok (Some dify_request) =>
          forward mode post now (get_default api_key) model
            (req_stream (hq_json request)) dify_request
      end.
Proof.
  unfold authorized, chat_completions_handler, requested_model.
  destruct (hq_authorization request) as [h|]; [|discriminate].
  cbn [get_default truthy_opt].
  destruct (split_ws h) as [|scheme [|key [|extra parts]]] eqn:S;
    try discriminate.
  intros A. apply andb_true_iff in A as [A1 A2].
  assert (T : truthy h = true).
  { destruct h; [discriminate S | reflexivity]. }
  rewrite T, A1, A2. reflexivity.
Qed.

Lemma handler_unauthorized (request : http_request) :
  authorized keys (hq_authorization request) = false ->
  is_auth_refusal
    (chat_completions_handler keys mode manager post now request) = true.
Proof.
  unfold authorized, chat_completions_handler.
  destruct (hq_authorization request) as [h|]; [|reflexivity].
  cbn [get_default truthy_opt].
  destruct (truthy h); [|reflexivity]. cbn [negb].
  destruct (split_ws h) as [|scheme [|key [|extra parts]]];
    try reflexivity.
  intros A. apply andb_false_iff in A as [A | A]; rewrite A;
    [reflexivity|].
  destruct (negb (text_eqb (lower scheme) (str "bearer"))); reflexivity.
Qed.

Lemma transform_never_none request :
  transform_openai_to_dify mode request chat_completions <> Ok None.
Proof.
  unfold transform_openai_to_dify. rewrite text_eqb_refl.
  destruct (mode =? 2);
    destruct (last_user_query _); cbn [bind]; discriminate.
Qed.

End HandlerFacts.

(** ** Keys read from the environment *)

Lemma lstrip_fixed (s : text) :
  match s with
  | [] => True
  | c :: _ => isspace c = false
  end ->
  lstrip s = s.
Proof.
  destruct s as [|c s]; [reflexivity|].
  intros H. cbn [lstrip]. rewrite H. reflexivity.
Qed.

Lemma lstrip_suffix (s : text) : exists ws, s = ws ++ lstrip s.
Proof.
  induction s as [|c s [ws IH]]; [exists []; reflexivity|].
  cbn [lstrip]. destruct (isspace c).
  - exists (c :: ws). cbn [app]. rewrite <- IH. reflexivity.
  - exists []. reflexivity.
Qed.

Lemma strip_first (s : text) (c : Z) (rest : text) :
  strip s = c :: rest -> isspace c = false.
Proof.
  unfold strip. intros H.
  apply (f_equal (@rev Z)) in H. rewrite rev_involutive in H.
  cbn [rev] in H.
  destruct (lstrip_suffix (rev (lstrip s))) as [ws E].
  rewrite H in E. apply (f_equal (@rev Z)) in E.
  rewrite rev_involutive, !rev_app_distr in E. cbn [rev app] in E.
  rewrite rev_involutive in E.
  pose proof (lstrip_head s) as L. rewrite E in L. exact L.
Qed.

Lemma strip_idempotent (s : text) : strip (strip s) = strip s.
Proof.
  assert (F : lstrip (strip s) = strip s).
  { apply lstrip_fixed. destruct (strip s) as [|c rest] eqn:E; [exact I|].
    apply (strip_first s c rest E). }
  assert (L : lstrip (rev (strip s)) = rev (strip s)).
  { apply lstrip_fixed.
    destruct (rev (strip s)) as [|c rest] eqn:E; [exact I|].
    apply (f_equal (@rev Z)) in E. rewrite rev_involutive in E.
    cbn [rev] in E. apply (strip_last s c (rev rest) E). }
  unfold strip at 1. rewrite F, L. apply rev_involutive.
Qed.

Lemma load_api_keys_stripped (value : option text) (key : text) :
  In key (load_api_keys value) -> key <> [] /\ strip key = key.
Proof.
  unfold load_api_keys.
  destruct (truthy (get_default value)); [|intros []].
  intros H. apply in_map_iff in H as [piece [<- H]].
  apply filter_In in H as [_ T].
  split; [apply truthy_true; exact T | apply strip_idempotent].
Qed.

Lemma split_ws_from_words (s : text) :
  forall word w,
    In w (split_ws_from s word) -> w <> [].
Proof.
  assert (R : forall (c : Z) word, rev (c :: word) <> []).
  { intros c word E. apply (f_equal (@List.length Z)) in E.
    rewrite length_rev in E. discriminate. }
  induction s as [|c s IH]; intros word w.
  - cbn [split_ws_from]. destruct word as [|x word]; [intros []|].
    intros [<- | []]. apply R.
  - cbn [split_ws_from]. destruct (isspace c).
    + destruct word as [|x word]; [apply IH|].
      intros [<- | H]; [apply R | exact (IH _ _ H)].
    + apply IH.
Qed.

Lemma key_in_truthy (key : text) (keys : list text) :
  key <> [] -> key_in key (filter truthy keys) = key_in key keys.
Proof.
  intros N. unfold key_in.
  induction keys as [|k keys IH]; [reflexivity|].
  cbn [filter existsb]. destruct k as [|c k].
  - cbn [truthy]. rewrite IH.
    destruct key; [contradiction | reflexivity].
  - cbn [truthy existsb]. rewrite IH. reflexivity.
Qed.

Lemma authorized_truthy (keys : list text) (header : option text) :
  authorized (filter truthy keys) header = authorized keys header.
Proof.
  unfold authorized. destruct header as [h|]; [|reflexivity].
  destruct (split_ws h) as [|scheme [|key [|extra parts]]] eqn:S;
    try reflexivity.
  rewrite key_in_truthy; [reflexivity|].
  apply (split_ws_from_words h [] key). fold (split_ws h). rewrite S.
  right. left. reflexivity.
Qed.

Lemma utf8_encode_ill_formed (s : text) :
  forallb is_scalar s = false -> utf8_encode s = Raise UnicodeEncodeError.
Proof.
  induction s as [|c s IH]; [discriminate|].
  cbn [utf8_encode forallb]. unfold utf8_encode_char.
  destruct (is_scalar c); cbn [negb andb]; [|reflexivity].
  intros H. specialize (IH H).
  destruct (c <? 128);
    [|destruct (c <? 2048); [|destruct (c <? 65536)]];
    cbn [bind]; rewrite IH; reflexivity.
Qed.

Lemma on_message_end_ill_formed model st chunk :
  ill_formed_end 2 chunk = true ->
  on_message_end 2 model st chunk
  = (StreamState (message_id st) [], flush model (output_buffer st),
     Some UnicodeEncodeError).
Proof.
  unfold ill_formed_end. intros H.
  apply andb_true_iff in H as [H W].
  apply andb_true_iff in H as [H N].
  apply andb_true_iff in H as [_ T].
  apply negb_true_iff in W.
  unfold on_message_end. cbn [Z.eqb Pos.eqb].
  rewrite T, N. cbn [andb].
  unfold encode_conversation_id.
  assert (T' : truthy (get_default (ch_conversation_id chunk)) = true).
  { destruct (ch_conversation_id chunk); [exact T | discriminate]. }
  rewrite T'. cbn [negb].
  rewrite (utf8_encode_ill_formed _ W).
  reflexivity.
Qed.

(** ** The exception of the dispatch *)

Lemma handle_event_exception mode model st chunk :
  snd (handle_event mode model st chunk)
  = if ill_formed_end mode chunk then Some UnicodeEncodeError else None.
Proof.
  destruct (ill_formed_end mode chunk) eqn:I.
  - assert (ME : mode = 2 /\ is_end_event chunk = true).
    { unfold ill_formed_end in I.
      apply andb_true_iff in I as [I _].
      apply andb_true_iff in I as [I _].
      apply andb_true_iff in I as [I _].
      apply andb_true_iff in I as [M E].
      split; [apply Z.eqb_eq; exact M | exact E]. }
    destruct ME as [M E]. subst mode.
    rewrite (message_end_dispatch 2 model st chunk E).
    rewrite (on_message_end_ill_formed model st chunk I).
    reflexivity.
  - destruct (Z.eq_dec mode 2) as [M | M].
    2:{ apply handle_event_never_raises. intros; contradiction. }
    destruct (forallb is_scalar (get_default (ch_conversation_id chunk)))
      eqn:W.
    { apply handle_event_never_raises. intros; exact W. }
    destruct (is_end_event chunk) eqn:E.
    2:{ destruct (is_answer_event chunk) eqn:A.
        - rewrite (answer_dispatch mode model st chunk A).
          destruct (ch_answer chunk) as [answer|]; [|reflexivity].
          unfold on_answer. destruct (negb (truthy answer)); reflexivity.
        - destruct (not_answer_not_end mode model st chunk A E) as [_ [_ N]].
          exact N. }
    rewrite (message_end_dispatch mode model st chunk E).
    unfold ill_formed_end in I. rewrite E, W in I. subst mode.
    cbn [Z.eqb Pos.eqb andb negb] in I.
    unfold on_message_end. cbn [Z.eqb Pos.eqb].
    destruct (truthy_opt (ch_conversation_id chunk)); cbn [andb] in *;
      [|reflexivity].
    rewrite andb_true_r in I. rewrite I. reflexivity.
Qed.

(** A line raises exactly when it is not one that is handled quietly. *)
Lemma handle_line_exception mode model json_loads st line :
  snd (handle_line mode model json_loads st line) = None
  <-> handles_quietly mode json_loads line = true.
Proof.
  unfold handle_line, handles_quietly.
  destruct (payload_of line) as [json_str|]; [|split; reflexivity].
  destruct (json_loads json_str) as [[chunk|]|];
    [| split; discriminate | split; reflexivity].
  rewrite handle_event_exception.
  destruct (ill_formed_end mode chunk); split; (reflexivity || discriminate).
Qed.

(** ** The generator on the complete lines of a stream *)

Section CompleteLines.

Variables (mode : Z) (model : text) (json_loads : text -> option json_value).

Lemma lines_from_acc (l b : text) :
  no_newline l = true ->
  forall acc, lines_from (l ++ b) acc = lines_from b (rev l ++ acc).
Proof.
  induction l as [|c l IH]; intros Hl acc; [reflexivity|].
  simpl in Hl. apply andb_true_iff in Hl as [Hc Hl].
  apply negb_true_iff in Hc.
  cbn [app lines_from]. rewrite Hc. rewrite (IH Hl).
  cbn [rev]. rewrite <- app_assoc. reflexivity.
Qed.

(** The complete lines of a text do not change when text without a line
    feed is appended. *)
Lemma complete_lines_partial (s partial : text) :
  no_newline partial = true ->
  complete_lines (s ++ partial) = complete_lines s.
Proof.
  intros Hp. unfold complete_lines.
  generalize (@nil Z) as acc.
  induction s as [|c s IH]; intros acc.
  - cbn [app]. rewrite <- (app_nil_r partial).
    rewrite (lines_from_acc partial [] Hp). reflexivity.
  - cbn [app lines_from]. destruct (c =? 10); [|apply IH].
    specialize (IH []).
    destruct (lines_from (s ++ partial) []) as [lines1 rest1].
    destruct (lines_from s []) as [lines2 rest2].
    cbn [fst] in *. rewrite IH. reflexivity.
Qed.

(** The pass over a buffer whose complete lines are handled quietly is
    quiet: it runs the records of these lines and leaves the text after
    the last line feed. *)
Lemma split_loop_complete_lines (buffer : text) :
  forall acc st,
    forallb (handles_quietly mode json_loads) (fst (lines_from buffer acc))
    = true ->
    quiet mode model json_loads buffer acc st
    /\ split_loop mode model json_loads buffer acc st
       = let '(st', acts) :=
           run_events mode model st
             (records_of json_loads (fst (lines_from buffer acc))) in
         (st', acts, snd (lines_from buffer acc)).
Proof.
  induction buffer as [|c buffer IH]; intros acc st H;
    [split; [exact I | reflexivity]|].
  cbn [lines_from split_loop quiet] in *.
  destruct (c =? 10); [|apply IH; exact H].
  destruct (lines_from buffer []) as [lines rest] eqn:L.
  cbn [fst snd forallb] in *.
  apply andb_true_iff in H as [Hq Hr].
  pose proof (proj2 (handle_line_exception mode model json_loads st (rev acc))
                Hq) as Hnone.
  specialize (IH []). rewrite L in IH. cbn [fst snd] in IH.
  unfold records_of. cbn [flat_map]. fold (records_of json_loads lines).
  rewrite (handle_line_quiet_record mode model json_loads st (rev acc) Hnone)
    in Hnone |- *.
  destruct (line_record json_loads (rev acc)) as [record|].
  - cbn [app run_events].
    destruct (handle_event mode model st record) as [[st' acts] e].
    cbn [snd] in Hnone. subst e.
    destruct (IH st' Hr) as [Q E]. split; [exact Q|].
    rewrite E.
    destruct (run_events mode model st' (records_of json_loads lines))
      as [st'' acts'].
    reflexivity.
  - destruct (IH st Hr) as [Q E]. split; [exact Q|].
    rewrite E. cbn [app].
    destruct (run_events mode model st (records_of json_loads lines))
      as [st'' acts'].
    reflexivity.
Qed.

(** A stream cut into chunks that each decode on their own, whose
    complete lines are handled quietly, produces the effects of the
    records of its complete lines. *)
Lemma generate_complete_lines (chunks : list bytes) (texts : list text) :
  Forall2 (fun raw decoded => utf8_decode raw = Ok decoded) chunks texts ->
  forallb (handles_quietly mode json_loads)
    (complete_lines (List.concat texts)) = true ->
  generate mode model json_loads chunks
  = snd (run_events mode model initial_state
           (records_of json_loads (complete_lines (List.concat texts)))).
Proof.
  intros Hdec Hq.
  destruct (split_loop_complete_lines (List.concat texts) [] initial_state Hq)
    as [Q E].
  unfold generate.
  rewrite (generate_from_quiet mode model json_loads chunks texts Hdec
             (Generator [] initial_state) eq_refl);
    cbn [gen_buffer gen_state app]; [|exact Q].
  rewrite E. unfold complete_lines.
  destruct (run_events mode model initial_state
              (records_of json_loads (fst (lines_from (List.concat texts) []))))
    as [st acts].
  reflexivity.
Qed.

End CompleteLines.

Lemma decode_to_decodes (chunks : list bytes) (texts : list text) :
  decode_to chunks texts ->
  Forall2 (fun raw decoded => utf8_decode raw = Ok decoded) chunks texts.
Proof.
  unfold decode_to. induction 1 as [|raw s chunks texts [_ H] _ IH];
    constructor; assumption.
Qed.

Lemma decode_to_concat (chunks : list bytes) (texts : list text) :
  decode_to chunks texts ->
  utf8_decode (List.concat chunks) = Ok (List.concat texts).
Proof. intros H. apply utf8_decode_concat. exact H. Qed.

(** * Further properties of the code *)

(** ** ConversationCodec *)

(** X1. An id whose UTF-8 form is a whole number of three-byte groups
    survives the round trip, also when its token follows a carrier text
    that does not end in a glyph. *)
Theorem roundtrip_on_whole_groups :
  forall id raw carrier token,
    id <> [] ->
    utf8_encode id = Ok raw ->
    Z.of_nat (List.length raw) mod 3 = 0 ->
    ends_visible carrier = true ->
    encode_conversation_id id = Ok token ->
    decode_conversation_id (carrier ++ token) = Some id.
Proof.
  intros id raw carrier token Hid Hraw Hm Hvis Htok.
  rewrite (decode_token id raw carrier token Hid Hraw Hvis Htok).
  rewrite Hm. reflexivity.
Qed.

(** A 36-character id after the text ["Hello."]. *)
Lemma roundtrip_on_whole_groups_witness :
  decode_conversation_id (str "Hello." ++ token_of uuid_id) = Some uuid_id.
Proof.
  apply (roundtrip_on_whole_groups uuid_id uuid_id (str "Hello.")
           (token_of uuid_id));
    [discriminate | reflexivity | reflexivity | reflexivity
    | vm_compute; reflexivity].
Defined.

(** X2. A non-empty id whose UTF-8 form is not a whole number of
    three-byte groups comes back from the round trip followed by the
    character U+0000, also when its token follows a carrier text that
    does not end in a glyph. *)
Theorem roundtrip_appends_nul_otherwise :
  forall id raw carrier token,
    id <> [] ->
    utf8_encode id = Ok raw ->
    Z.of_nat (List.length raw) mod 3 <> 0 ->
    ends_visible carrier = true ->
    encode_conversation_id id = Ok token ->
    decode_conversation_id (carrier ++ token) = Some (id ++ [0]).
Proof.
  intros id raw carrier token Hid Hraw Hm Hvis Htok.
  rewrite (decode_token id raw carrier token Hid Hraw Hvis Htok).
  apply Z.eqb_neq in Hm. rewrite Hm. reflexivity.
Qed.

(** The four-character id ["a1b2"]. *)
Lemma roundtrip_appends_nul_otherwise_witness :
  decode_conversation_id (str "Hello." ++ token_of (str "a1b2"))
  = Some (str "a1b2" ++ [0]).
Proof.
  apply (roundtrip_appends_nul_otherwise (str "a1b2") (str "a1b2")
           (str "Hello.") (token_of (str "a1b2")));
    [discriminate | reflexivity | discriminate | reflexivity
    | vm_compute; reflexivity].
Defined.

(** X3. Every character of a token is a glyph of the alphabet, and the
    token is empty only for the empty id. *)
Theorem token_is_invisible :
  forall id token,
    encode_conversation_id id = Ok token ->
    forallb is_glyph token = true /\ (token = [] <-> id = []).
Proof. exact token_glyphs. Qed.

Lemma token_is_invisible_witness :
  forallb is_glyph (token_of (str "s1")) = true
  /\ (token_of (str "s1") = [] <-> str "s1" = []).
Proof.
  apply (token_is_invisible (str "s1") (token_of (str "s1"))).
  vm_compute. reflexivity.
Defined.

(** X4. Only the trailing run of glyphs is read: what precedes it, up to
    and including the last character that is not a glyph, changes
    nothing. *)
Theorem decode_reads_trailing_run_only :
  forall before run,
    ends_visible before = true ->
    forallb is_glyph run = true ->
    decode_conversation_id (before ++ run) = decode_conversation_id run.
Proof.
  intros before run Hv Hg.
  assert (E : collect_glyphs (rev run) = rev run).
  { rewrite <- (app_nil_r (rev run)) at 1.
    rewrite collect_glyphs_app by (rewrite forallb_rev'; exact Hg).
    apply app_nil_r. }
  unfold decode_conversation_id, decode_body.
  rewrite rev_app_distr, collect_glyphs_app
    by (rewrite forallb_rev'; exact Hg).
  rewrite (collect_glyphs_ends_visible before Hv), app_nil_r, E.
  reflexivity.
Qed.

Lemma decode_reads_trailing_run_only_witness :
  decode_conversation_id (str "two words" ++ token_abc123)
  = decode_conversation_id token_abc123.
Proof.
  apply (decode_reads_trailing_run_only (str "two words") token_abc123);
    vm_compute; reflexivity.
Defined.

(** ** RequestTranslator *)

Lemma translator_raises_unreadable mode prior final stream user model :
  readable final = false ->
  transform_openai_to_dify mode
    (OpenAIRequest (Some (prior ++ [final])) stream user model)
    chat_completions
  = Raise (KeyError "content").
Proof.
  intros R.
  destruct (Z.eq_dec mode 2) as [-> | M].
  - rewrite transform_zero_width, R. reflexivity.
  - rewrite (transform_history mode prior final stream user model M), R.
    reflexivity.
Qed.

(** X5. The translator either returns a request or raises
    [KeyError('content')], in every memory mode; it raises exactly when
    the last message is not a system message and has no [content] key, and
    returns a request in every other case. *)
Theorem translator_fails_exactly_on_unreadable_last_message :
  forall mode request,
    ((exists r,
         transform_openai_to_dify mode request chat_completions = Ok (Some r))
     \/ transform_openai_to_dify mode request chat_completions
        = Raise (KeyError "content"))
    /\ (transform_openai_to_dify mode request chat_completions
        = Raise (KeyError "content")
        <-> exists prior final,
            req_messages request = Some (prior ++ [final])
            /\ opt_is (msg_role final) (str "system") = false
            /\ msg_content final = None).
Proof.
  intros mode [messages stream user model].
  assert (U : forall prior final,
             messages = Some (prior ++ [final]) ->
             opt_is (msg_role final) (str "system") = false ->
             msg_content final = None ->
             transform_openai_to_dify mode
               (OpenAIRequest messages stream user model) chat_completions
             = Raise (KeyError "content")).
  { intros prior final -> R1 R2.
    apply translator_raises_unreadable.
    unfold readable. rewrite R1, R2. reflexivity. }
  assert (D : (exists r,
                  transform_openai_to_dify mode
                    (OpenAIRequest messages stream user model)
                    chat_completions = Ok (Some r))
              \/ exists prior final,
                  messages = Some (prior ++ [final])
                  /\ opt_is (msg_role final) (str "system") = false
                  /\ msg_content final = None).
  { destruct messages as [messages|].
    2:{ left. apply translator_returns. cbn. discriminate. }
    destruct (snoc_or_nil messages) as [-> | [prior [final ->]]].
    { left. apply translator_returns. cbn. discriminate. }
    destruct (readable final) eqn:R.
    - left. apply translator_returns. cbn [req_messages].
      rewrite last_item_snoc. intros msg [= <-].
      unfold readable in R. apply orb_true_iff in R as [R | R];
        [left; exact R | right].
      destruct (msg_content final) as [c|]; [eauto | discriminate].
    - right. exists prior, final. unfold readable in R.
      apply orb_false_iff in R as [R1 R2].
      repeat split; [exact R1|].
      destruct (msg_content final); [discriminate | reflexivity]. }
  cbn [req_messages]. split; [|split].
  - destruct D as [D | [prior [final [E [R1 R2]]]]];
      [left; exact D | right; exact (U prior final E R1 R2)].
  - intros E. destruct D as [[r D] | D]; [|exact D].
    rewrite D in E. discriminate.
  - intros [prior [final [E [R1 R2]]]]. exact (U prior final E R1 R2).
Qed.

(** X6. In the history mode, with at least one prior message, the query
    is the transcript of the prior messages that have a role and a
    content, in order, each as ["role: content"], between the history
    tags and followed by the last message's text. The system content is
    put in front as a ["system: "] line only when no rendered prior message
    is a system message; without any line the query is the last message's
    text alone. The request has no [conversation_id] key. *)
Theorem history_mode_renders_transcript :
  forall mode first prior final stream user model,
    mode <> 2 ->
    readable final = true ->
    let messages := (first :: prior) ++ [final] in
    let system_content := system_content_of messages in
    transform_openai_to_dify mode
      (OpenAIRequest (Some messages) stream user model) chat_completions
    = Ok (Some (DifyRequest []
                  (history_query
                     ((if truthy system_content
                          && negb (renders_system (first :: prior))
                       then [str "system: " ++ system_content]
                       else [])
                      ++ transcript (first :: prior))
                     (question_of final))
                  (response_mode_of stream) None (user_of user))).
Proof.
  intros mode first prior final stream user model M R. cbn zeta.
  rewrite (transform_history mode (first :: prior) final stream user model M).
  rewrite R. reflexivity.
Qed.

(** The two prior turns ["hi"] and ["hello"] under the system message
    ["be terse"]: one system line, then the turns in order. *)
Lemma history_mode_renders_transcript_witness :
  transform_openai_to_dify 1
    (OpenAIRequest
       (Some ([Message (Some (str "system")) (Some (str "be terse"));
               Message (Some (str "user")) (Some (str "hi"));
               Message (Some (str "assistant")) (Some (str "hello"))]
              ++ [Message (Some (str "user")) (Some (str "more"))]))
       None None None)
    chat_completions
  = Ok (Some (DifyRequest []
                (history_query
                   [str "system: be terse"; str "user: hi";
                    str "assistant: hello"]
                   (str "more"))
                (str "blocking") None (str "default_user"))).
Proof.
  apply (history_mode_renders_transcript 1
           (Message (Some (str "system")) (Some (str "be terse")))
           [Message (Some (str "user")) (Some (str "hi"));
            Message (Some (str "assistant")) (Some (str "hello"))]
           (Message (Some (str "user")) (Some (str "more")))
           None None None);
    [discriminate | reflexivity].
Defined.

(** X7. In the zero-width mode, when no prior assistant message decodes
    to a non-empty id, the request carries no usable id and the query is
    the last message's text, framed by the system content when there is
    one; the prior messages never enter the query. *)
Theorem zero_width_first_turn :
  forall prior final stream user model,
    readable final = true ->
    (forall msg,
        In msg prior -> opt_is (msg_role msg) (str "assistant") = true ->
        truthy_opt (decode_conversation_id (get_default (msg_content msg)))
        = false) ->
    let system_content := system_content_of (prior ++ [final]) in
    exists conversation_id,
      truthy_opt conversation_id = false
      /\ transform_openai_to_dify 2
           (OpenAIRequest (Some (prior ++ [final])) stream user model)
           chat_completions
         = Ok (Some (DifyRequest []
                       (if truthy system_content
                        then with_system system_content (question_of final)
                        else question_of final)
                       (response_mode_of stream)
                       (Some conversation_id) (user_of user))).
Proof.
  intros prior final stream user model R H. cbn zeta.
  exists (scan_assistant (rev prior) None).
  assert (F : truthy_opt (scan_assistant (rev prior) None) = false).
  { apply scan_assistant_none; [|reflexivity].
    intros msg Hin. apply H. apply in_rev. exact Hin. }
  split; [exact F|].
  rewrite transform_zero_width, R. cbn zeta. rewrite F.
  rewrite andb_true_r. reflexivity.
Qed.

(** A first turn under a system message, the assistant's earlier reply
    carrying no token. *)
Lemma zero_width_first_turn_witness :
  exists conversation_id,
    truthy_opt conversation_id = false
    /\ transform_openai_to_dify 2
         (OpenAIRequest
            (Some ([Message (Some (str "system")) (Some (str "be terse"));
                    Message (Some (str "user")) (Some (str "hi"));
                    Message (Some (str "assistant")) (Some (str "hello"))]
                   ++ [Message (Some (str "user")) (Some (str "more"))]))
            (Some true) None None)
         chat_completions
       = Ok (Some (DifyRequest []
                     (with_system (str "be terse") (str "more"))
                     (str "streaming") (Some conversation_id)
                     (str "default_user"))).
Proof.
  apply (zero_width_first_turn
           [Message (Some (str "system")) (Some (str "be terse"));
            Message (Some (str "user")) (Some (str "hi"));
            Message (Some (str "assistant")) (Some (str "hello"))]
           (Message (Some (str "user")) (Some (str "more")))
           (Some true) None None);
    [reflexivity|].
  intros msg [<- | [<- | [<- | []]]]; try discriminate. reflexivity.
Defined.

(** ** ResponseAssembler *)

(** X8. Outside the zero-width mode, and in it when the reply has no id
    or its history already holds a decodable run, the completion's content
    is the reply's [answer] when that key is present, even empty, and
    otherwise the last non-empty thought, or the empty text; nothing is
    appended and nothing is raised. *)
Theorem completion_without_token :
  forall mode now response model,
    mode <> 2
    \/ truthy_opt (rs_conversation_id response) = false
    \/ history_has_id (get_history (rs_conversation_history response)) = true ->
    transform_dify_to_openai mode now response model
    = Ok (OpenAIResponse (get_default (rs_message_id response))
            (match rs_created response with Some t => t | None => now end)
            model (selected_answer response) (str "stop")).
Proof. exact transform_dify_to_openai_plain. Qed.

(** A reply without [answer] whose thoughts are ["plan"], none, ["done"],
    [""]: the content is ["done"]. *)
Lemma completion_without_token_witness :
  transform_dify_to_openai 1 7
    (DifyResponse None
       (Some [AgentThought (Some (str "plan")); AgentThought None;
              AgentThought (Some (str "done")); AgentThought (Some [])])
       (Some (str "s1")) None (Some (str "m1")) None)
    (str "gpt")
  = Ok (OpenAIResponse (str "m1") 7 (str "gpt") (str "done") (str "stop")).
Proof.
  apply (completion_without_token 1 7
           (DifyResponse None
              (Some [AgentThought (Some (str "plan")); AgentThought None;
                     AgentThought (Some (str "done"));
                     AgentThought (Some [])])
              (Some (str "s1")) None (Some (str "m1")) None)
           (str "gpt")).
  left. discriminate.
Defined.

Lemma read_back_nonempty (id : text) (raw : bytes) :
  id <> [] -> read_back id raw <> [].
Proof.
  unfold read_back. intros N.
  destruct (_ =? 0); [exact N|]. destruct id; discriminate.
Qed.

(** X9. Continuity across two non-streaming turns in the zero-width mode:
    when the reply carries a non-empty, well-formed id, its history holds
    no decodable run and the answer does not end in a glyph, the
    completion's content is the answer followed by the token; sent back as
    the last assistant message of the next request, it makes the translator
    send the id read back from the token as [conversation_id], with the
    query unframed. *)
Theorem next_turn_recovers_id :
  forall now reply model id raw earlier final stream user req_model,
    rs_conversation_id reply = Some id ->
    id <> [] ->
    utf8_encode id = Ok raw ->
    history_has_id (get_history (rs_conversation_history reply)) = false ->
    ends_visible (selected_answer reply) = true ->
    readable final = true ->
    exists body token,
      transform_dify_to_openai 2 now reply model = Ok body
      /\ encode_conversation_id id = Ok token
      /\ or_content body = selected_answer reply ++ token
      /\ transform_openai_to_dify 2
           (OpenAIRequest
              (Some ((earlier
                      ++ [Message (Some (str "assistant"))
                            (Some (or_content body))])
                     ++ [final]))
              stream user req_model)
           chat_completions
         = Ok (Some (DifyRequest [] (question_of final)
                       (response_mode_of stream)
                       (Some (Some (read_back id raw))) (user_of user))).
Proof.
  intros now reply model id raw earlier final stream user req_model
    C N Hraw H V R.
  assert (E : exists token, encode_conversation_id id = Ok token).
  { unfold encode_conversation_id. apply truthy_true in N. rewrite N, Hraw.
    eexists. reflexivity. }
  destruct E as [token E].
  exists (OpenAIResponse (get_default (rs_message_id reply))
            (match rs_created reply with Some t => t | None => now end)
            model (selected_answer reply ++ token) (str "stop")), token.
  split; [apply (transform_dify_to_openai_token now reply model id token);
          assumption|].
  split; [exact E|]. split; [reflexivity|].
  cbn [or_content].
  rewrite transform_zero_width, R. cbn zeta.
  rewrite rev_app_distr. cbn [rev app].
  rewrite (scan_assistant_first []
             (Message (Some (str "assistant"))
                (Some (selected_answer reply ++ token)))
             (rev earlier) (read_back id raw)).
  - cbn [truthy_opt].
    pose proof (read_back_nonempty id raw N) as T.
    apply truthy_true in T. rewrite T, andb_false_r. reflexivity.
  - intros m' [].
  - reflexivity.
  - cbn [msg_content get_default].
    apply (decode_token id raw (selected_answer reply) token N Hraw V E).
  - apply read_back_nonempty. exact N.
Qed.

(** The reply ["Hello."] with a 36-character id, then the next request. *)
Lemma next_turn_recovers_id_witness :
  exists body token,
    transform_dify_to_openai 2 7
      (DifyResponse (Some (str "Hello.")) None (Some uuid_id) None
         (Some (str "m1")) None)
      (str "gpt") = Ok body
    /\ encode_conversation_id uuid_id = Ok token
    /\ or_content body = str "Hello." ++ token
    /\ transform_openai_to_dify 2
         (OpenAIRequest
            (Some (([Message (Some (str "user")) (Some (str "hi"))]
                    ++ [Message (Some (str "assistant"))
                          (Some (or_content body))])
                   ++ [Message (Some (str "user")) (Some (str "more"))]))
            None None None)
         chat_completions
       = Ok (Some (DifyRequest [] (str "more") (str "blocking")
                     (Some (Some uuid_id)) (str "default_user"))).
Proof.
  apply (next_turn_recovers_id 7
           (DifyResponse (Some (str "Hello.")) None (Some uuid_id) None
              (Some (str "m1")) None)
           (str "gpt") uuid_id uuid_id
           [Message (Some (str "user")) (Some (str "hi"))]
           (Message (Some (str "user")) (Some (str "more")))
           None None None);
    [reflexivity | discriminate | reflexivity | reflexivity | reflexivity
    | reflexivity].
Defined.

(** ** Streaming generator: what reaches the client *)

(** X10. A [message] or [agent_message] event is written as one chunk per
    character of its answer, in order, all under the id of the stream
    (the one already held, else the one this event reports); after each
    chunk the generator sleeps the delay of the number of characters then
    left. *)
Theorem answer_is_spelled_in_order :
  forall mode model st chunk answer,
    is_answer_event chunk = true ->
    ch_answer chunk = Some answer ->
    output_buffer st = [] ->
    yielded (snd (fst (handle_event mode model st chunk)))
    = map (fun c => send_char model c (stream_id st chunk)) answer
    /\ slept (snd (fst (handle_event mode model st chunk)))
       = map calculate_delay (depths (List.length answer))
    /\ snd (handle_event mode model st chunk) = None.
Proof.
  intros mode model st chunk answer A H Hb.
  rewrite (answer_dispatch mode model st chunk A), H.
  rewrite (on_answer_spelled model st chunk answer Hb). cbn [fst snd].
  rewrite yielded_drain, slept_drain, !map_map, length_map. cbn [fst snd].
  repeat split.
Qed.

(** The answer ["Hey"] on a fresh stream: three chunks under ["m1"] and
    the delays of depths 2, 1 and 0. *)
Lemma answer_is_spelled_in_order_witness :
  yielded (snd (fst (handle_event 1 (str "gpt") initial_state
                       (message_event (str "Hey") (str "m1")))))
  = [send_char (str "gpt") 72 (Some (str "m1"));
     send_char (str "gpt") 101 (Some (str "m1"));
     send_char (str "gpt") 121 (Some (str "m1"))]
  /\ slept (snd (fst (handle_event 1 (str "gpt") initial_state
                        (message_event (str "Hey") (str "m1")))))
     = [calculate_delay 2; calculate_delay 1; calculate_delay 0]
  /\ snd (handle_event 1 (str "gpt") initial_state
            (message_event (str "Hey") (str "m1"))) = None.
Proof.
  apply (answer_is_spelled_in_order 1 (str "gpt") initial_state
           (message_event (str "Hey") (str "m1")) (str "Hey"));
    reflexivity.
Defined.

(** X11. The queue of pending characters is empty whenever the generator
    waits for the next chunk, whatever the upstream has sent; so a
    [message_end] event finds nothing to flush and the generator never
    sleeps on it. *)
Theorem queue_is_empty_between_chunks :
  forall mode model json_loads,
    (forall chunks,
        output_buffer
          (gen_state
             (fst (generate_from mode model json_loads
                     (Generator [] initial_state) chunks))) = [])
    /\ (forall st chunk,
           output_buffer st = [] ->
           is_end_event chunk = true ->
           slept (snd (fst (handle_event mode model st chunk))) = []).
Proof.
  intros mode model json_loads. split.
  - intros chunks. apply generate_from_empties_queue. reflexivity.
  - intros st chunk Hb E.
    rewrite (message_end_dispatch mode model st chunk E).
    rewrite slept_message_end, Hb. reflexivity.
Qed.

Lemma queue_is_empty_between_chunks_witness :
  output_buffer
    (gen_state
       (fst (generate_from 2 (str "gpt") reads_answer_payload
               (Generator [] initial_state)
               [line_head ++ line_tail; line_head]))) = []
  /\ slept (snd (fst (handle_event 2 (str "gpt")
                        (StreamState (Some (str "m1")) [])
                        (message_end_event (str "s1"))))) = [].
Proof.
  split.
  - apply (proj1 (queue_is_empty_between_chunks 2 (str "gpt")
                    reads_answer_payload)).
  - apply (proj2 (queue_is_empty_between_chunks 2 (str "gpt")
                    reads_answer_payload));
      reflexivity.
Defined.

(** X12. Nothing is written and nothing is raised for an event that is
    neither [message_end] nor an answer event with a non-empty answer:
    thoughts, files, unknown events, and answer events whose answer is
    absent or empty. *)
Theorem only_answers_and_message_end_write :
  forall mode model st chunk,
    is_end_event chunk = false ->
    answer_text chunk = [] ->
    snd (fst (handle_event mode model st chunk)) = []
    /\ snd (handle_event mode model st chunk) = None
    /\ output_buffer (fst (fst (handle_event mode model st chunk)))
       = output_buffer st.
Proof.
  intros mode model st chunk E T. unfold answer_text in T.
  destruct (is_answer_event chunk) eqn:A.
  - rewrite (answer_dispatch mode model st chunk A).
    destruct (ch_answer chunk) as [answer|]; [|repeat split].
    cbn [get_default] in T. subst answer. repeat split.
  - destruct (not_answer_not_end mode model st chunk A E) as [H1 [H2 H3]].
    repeat split; assumption.
Qed.

(** An [agent_thought] event and a [ping] event. *)
Lemma only_answers_and_message_end_write_witness :
  snd (fst (handle_event 2 (str "gpt") initial_state
              (DifyChunk (Some (str "agent_thought")) None
                 (Some (str "m1")) None None))) = []
  /\ snd (fst (handle_event 2 (str "gpt") initial_state
                 (DifyChunk (Some (str "ping")) (Some (str "x")) None None
                    None))) = [].
Proof.
  split.
  - apply (only_answers_and_message_end_write 2 (str "gpt") initial_state
             (DifyChunk (Some (str "agent_thought")) None
                (Some (str "m1")) None None)); reflexivity.
  - apply (only_answers_and_message_end_write 2 (str "gpt") initial_state
             (DifyChunk (Some (str "ping")) (Some (str "x")) None None
                None)); reflexivity.
Defined.









(** X16. The dispatch of an event ends in an exception in exactly one
    case: a [message_end] event in the zero-width mode whose non-empty id
    is to be encoded (no assistant message of its history holds a token)
    and is not well-formed Unicode text, on which [str.encode()] raises
    [UnicodeEncodeError]. In that case the pending characters are flushed
    and nothing else is written: neither the stop chunk nor the
    terminator. *)
Theorem dispatch_raises_only_on_ill_formed_id :
  forall mode model st chunk,
    snd (handle_event mode model st chunk)
    = (if ill_formed_end mode chunk then Some UnicodeEncodeError else None)
    /\ (ill_formed_end mode chunk = true ->
        snd (fst (handle_event mode model st chunk))
        = flush model (output_buffer st)
        /\ filter (fun frame => is_done frame || is_stop frame)
             (yielded (snd (fst (handle_event mode model st chunk)))) = []).
Proof.
  intros mode model st chunk.
  split; [apply handle_event_exception|].
  intros I.
  assert (ME : mode = 2 /\ is_end_event chunk = true).
  { unfold ill_formed_end in I.
    apply andb_true_iff in I as [I' _].
    apply andb_true_iff in I' as [I' _].
    apply andb_true_iff in I' as [I' _].
    apply andb_true_iff in I' as [M E].
    split; [apply Z.eqb_eq; exact M | exact E]. }
  destruct ME as [M E]. subst mode.
  rewrite (message_end_dispatch 2 model st chunk E).
  rewrite (on_message_end_ill_formed model st chunk I).
  cbn [fst snd]. split; [reflexivity|].
  rewrite yielded_flush.
  apply (filter_chars model (fun frame => is_done frame || is_stop frame)
           (fun entry => entry)).
  reflexivity.
Qed.

(** A [message_end] event whose id is a lone surrogate, met with one
    character still queued: the character is flushed, then the encoding
    raises. *)
Lemma dispatch_raises_only_on_ill_formed_id_witness :
  let chunk := message_end_event [0xD800] in
  let st := StreamState (Some (str "m1")) [(72, Some (str "m1"))] in
  snd (fst (handle_event 2 (str "gpt") st chunk))
  = flush (str "gpt") (output_buffer st)
  /\ filter (fun frame => is_done frame || is_stop frame)
       (yielded (snd (fst (handle_event 2 (str "gpt") st chunk)))) = [].
Proof.
  intros chunk st.
  apply (proj2 (dispatch_raises_only_on_ill_formed_id 2 (str "gpt") st chunk)).
  reflexivity.
Defined.

(** ** UpstreamEventParser *)

Lemma decode_to_decoded (chunks : list bytes) :
  forallb (fun raw => truthy raw
                      && match utf8_decode raw with
                         | Ok _ => true
                         | Raise _ => false
                         end) chunks = true ->
  decode_to chunks (map decoded chunks).
Proof.
  unfold decode_to.
  induction chunks as [|raw chunks IH]; intros H; [constructor|].
  cbn [forallb] in H. apply andb_true_iff in H as [H1 H2].
  apply andb_true_iff in H1 as [T D].
  cbn [map]. constructor; [|apply IH; exact H2].
  split; [apply truthy_true; exact T|].
  unfold decoded. destruct (utf8_decode raw); [reflexivity | discriminate].
Qed.

(** X17. When the complete lines of a stream are handled quietly, that
    is, none carries a JSON payload that is not an object or, in the
    zero-width mode, a [message_end] event whose id is to be encoded and
    is ill-formed, two cuts of its bytes into non-empty chunks that each
    decode on their own, that is, cuts between characters, make the
    generator do the same: the same frames and the same delays. *)
Theorem cuts_between_characters_do_not_matter :
  forall mode model json_loads chunks1 texts1 chunks2 texts2,
    decode_to chunks1 texts1 ->
    decode_to chunks2 texts2 ->
    List.concat chunks1 = List.concat chunks2 ->
    forallb (handles_quietly mode json_loads)
      (complete_lines (List.concat texts1)) = true ->
    generate mode model json_loads chunks1
    = generate mode model json_loads chunks2.
Proof.
  intros mode model json_loads chunks1 texts1 chunks2 texts2 H1 H2 E Q.
  assert (T : List.concat texts1 = List.concat texts2).
  { pose proof (decode_to_concat chunks1 texts1 H1) as D1.
    pose proof (decode_to_concat chunks2 texts2 H2) as D2.
    rewrite E in D1. rewrite D1 in D2. injection D2 as D2. exact D2. }
  rewrite (generate_complete_lines mode model json_loads chunks1 texts1
             (decode_to_decodes _ _ H1) Q).
  rewrite T in Q |- *.
  rewrite (generate_complete_lines mode model json_loads chunks2 texts2
             (decode_to_decodes _ _ H2) Q).
  reflexivity.
Qed.

(** The example line in one chunk and cut after its tenth byte. *)
Lemma cuts_between_characters_do_not_matter_witness :
  generate 2 (str "gpt") reads_answer_payload [whole_line]
  = generate 2 (str "gpt") reads_answer_payload cut_at_10.
Proof.
  apply (cuts_between_characters_do_not_matter 2 (str "gpt")
           reads_answer_payload [whole_line] (map decoded [whole_line])
           cut_at_10 (map decoded cut_at_10)).
  - apply decode_to_decoded. vm_compute. reflexivity.
  - apply decode_to_decoded. vm_compute. reflexivity.
  - vm_compute. reflexivity.
  - vm_compute. reflexivity.
Defined.

(** X18. When the complete lines of a stream are handled quietly, the
    generator, whatever the cut of the stream between characters, handles
    in order the records read from its complete data lines, each in the
    state the previous one left; lines that are blank, lack the prefix or
    hold no JSON are passed over, and so is the text after the last line
    feed. *)
Theorem stream_of_lines_runs_its_records :
  forall mode model json_loads chunks texts,
    decode_to chunks texts ->
    forallb (handles_quietly mode json_loads)
      (complete_lines (List.concat texts)) = true ->
    generate mode model json_loads chunks
    = snd (run_events mode model initial_state
             (records_of json_loads (complete_lines (List.concat texts)))).
Proof.
  intros mode model json_loads chunks texts H Q.
  apply (generate_complete_lines mode model json_loads chunks texts
           (decode_to_decodes _ _ H) Q).
Qed.

(** The example line between a comment line and a blank line, followed
    by the beginning of a further line. *)
Lemma stream_of_lines_runs_its_records_witness :
  generate 1 (str "gpt") reads_answer_payload
    [str ": ping" ++ NL; whole_line ++ NL ++ str "data: {"]
  = snd (run_events 1 (str "gpt") initial_state [answer_record]).
Proof.
  apply (stream_of_lines_runs_its_records 1 (str "gpt") reads_answer_payload
           [str ": ping" ++ NL; whole_line ++ NL ++ str "data: {"]
           (map decoded
              [str ": ping" ++ NL; whole_line ++ NL ++ str "data: {"])).
  - apply decode_to_decoded. vm_compute. reflexivity.
  - vm_compute. reflexivity.
Defined.

(** X19. Text after the last line feed is never handled: when the
    complete lines of a stream are handled quietly, a final chunk without
    a line feed adds nothing to what the generator produces, so an event
    line that is not terminated is lost when the stream ends. *)
Theorem unterminated_line_is_dropped :
  forall mode model json_loads chunks texts raw partial,
    decode_to chunks texts ->
    forallb (handles_quietly mode json_loads)
      (complete_lines (List.concat texts)) = true ->
    raw <> [] ->
    utf8_decode raw = Ok partial ->
    no_newline partial = true ->
    generate mode model json_loads (chunks ++ [raw])
    = generate mode model json_loads chunks.
Proof.
  intros mode model json_loads chunks texts raw partial H Q Hne Hd Hn.
  assert (C : List.concat (texts ++ [partial])
              = List.concat texts ++ partial).
  { rewrite concat_app. cbn [List.concat]. rewrite app_nil_r. reflexivity. }
  rewrite (generate_complete_lines mode model json_loads chunks texts
             (decode_to_decodes _ _ H) Q).
  rewrite (generate_complete_lines mode model json_loads (chunks ++ [raw])
             (texts ++ [partial])).
  - rewrite C, (complete_lines_partial _ _ Hn). reflexivity.
  - apply decode_to_decodes. apply Forall2_snoc; [exact H|].
    split; [exact Hne | exact Hd].
  - rewrite C, (complete_lines_partial _ _ Hn). exact Q.
Qed.

(** The example line without its line feed, after a comment line. *)
Lemma unterminated_line_is_dropped_witness :
  generate 1 (str "gpt") reads_answer_payload
    ([str ": ping" ++ NL] ++ [removelast whole_line])
  = generate 1 (str "gpt") reads_answer_payload [str ": ping" ++ NL].
Proof.
  apply (unterminated_line_is_dropped 1 (str "gpt") reads_answer_payload
           [str ": ping" ++ NL] (map decoded [str ": ping" ++ NL])
           (removelast whole_line) (decoded (removelast whole_line))).
  - apply decode_to_decoded. vm_compute. reflexivity.
  - vm_compute. reflexivity.
  - discriminate.
  - vm_compute. reflexivity.
  - vm_compute. reflexivity.
Defined.

(** X20. A line yields a payload exactly when, with the white space at
    both ends removed, it is ["data: "] followed by the payload, which is
    then not empty; white space around a line, a carriage return at its
    end for one, changes nothing. A line that starts with ["data:"] and no
    space is passed over. *)
Theorem data_line_payload :
  (forall line json_str,
      payload_of line = Some json_str
      <-> strip line = str "data: " ++ json_str /\ json_str <> [])
  /\ (forall before line after,
         forallb isspace before = true ->
         forallb isspace after = true ->
         payload_of (before ++ line ++ after) = payload_of line)
  /\ (forall rest,
         (forall c tail, rest = c :: tail -> isspace c = false) ->
         payload_of (str "data:" ++ rest) = None).
Proof.
  split; [exact payload_of_spec|].
  split; [exact payload_of_spaces|].
  intros rest H.
  destruct (payload_of (str "data:" ++ rest)) as [p|] eqn:P; [|reflexivity].
  apply payload_of_spec in P as [S _]. exfalso.
  assert (L : lstrip (str "data:" ++ rest) = str "data:" ++ rest)
    by reflexivity.
  unfold strip in S. rewrite L in S.
  apply (f_equal (@rev Z)) in S. rewrite rev_involutive in S.
  destruct (lstrip_suffix (rev (str "data:" ++ rest))) as [ws E].
  rewrite S in E. apply (f_equal (@rev Z)) in E.
  rewrite rev_involutive, rev_app_distr, rev_involutive in E.
  change (str "data: " ++ p) with (str "data:" ++ 32 :: p) in E.
  rewrite <- app_assoc in E. apply app_inv_head in E.
  destruct rest as [|c tail].
  - destruct p; discriminate.
  - cbn [app] in E. injection E as -> _.
    specialize (H 32 tail eq_refl). discriminate.
Qed.

(** A data line with a carriage return, and one without the space. *)
Lemma data_line_payload_witness :
  payload_of (str "data: {}" ++ [13]) = Some (str "{}")
  /\ payload_of ([] ++ str "data: {}" ++ [13]) = payload_of (str "data: {}")
  /\ payload_of (str "data:" ++ str "{}") = None.
Proof.
  destruct data_line_payload as [Hspec [Hspace Hprefix]].
  split; [|split].
  - apply (proj2 (Hspec (str "data: {}" ++ [13]) (str "{}"))).
    split; [reflexivity | discriminate].
  - apply (Hspace [] (str "data: {}") [13]); reflexivity.
  - apply (Hprefix (str "{}")). intros c tail [= <- _]. reflexivity.
Defined.

(** ** The handler of [/v1/chat/completions] *)

(** X21. The handler answers 401 with the code ["invalid_api_key"]
    exactly when the [Authorization] header is not two words, the first
    being [bearer] in any letter case and the second a key of
    [VALID_API_KEYS]; empty entries of that list admit no request. *)
Theorem key_check_refuses_exactly_the_unauthorized :
  forall keys mode manager post now request,
    is_auth_refusal
      (chat_completions_handler keys mode manager post now request)
    = negb (authorized keys (hq_authorization request))
    /\ authorized (filter truthy keys) (hq_authorization request)
       = authorized keys (hq_authorization request).
Proof.
  intros keys mode manager post now request.
  split; [|apply authorized_truthy].
  destruct (authorized keys (hq_authorization request)) eqn:A.
  - rewrite (handler_authorized keys mode manager post now request A).
    cbn zeta. destruct (negb (truthy_opt _)); [reflexivity|].
    destruct (transform_openai_to_dify mode (hq_json request)
                chat_completions) as [[dify_request|]|e]; try reflexivity.
    apply forward_not_auth_refusal.
  - apply (handler_unauthorized keys mode manager post now request A).
Qed.

(** X22. Whenever the handler turns to the upstream, for a stream or for a
    blocking call, the request passed the key check, it was translated,
    and the upstream key used is the non-empty key the registry holds for
    the requested model, the default model when the request names none. *)
Theorem upstream_is_reached_with_the_registered_key :
  forall keys mode manager post now request key,
    upstream_key
      (chat_completions_handler keys mode manager post now request)
    = Some key ->
    authorized keys (hq_authorization request) = true
    /\ get_api_key manager (requested_model request) = Some key
    /\ key <> []
    /\ exists dify_request,
        transform_openai_to_dify mode (hq_json request) chat_completions
        = Ok (Some dify_request).
Proof.
  intros keys mode manager post now request key H.
  destruct (authorized keys (hq_authorization request)) eqn:A.
  2:{ pose proof (handler_unauthorized keys mode manager post now request A)
        as R.
      destruct (chat_completions_handler keys mode manager post now request);
        discriminate. }
  split; [reflexivity|].
  rewrite (handler_authorized keys mode manager post now request A) in H.
  cbn zeta in H.
  destruct (get_api_key manager (requested_model request)) as [k|] eqn:G;
    [|discriminate].
  cbn [truthy_opt get_default] in H.
  destruct (truthy k) eqn:T; [|discriminate]. cbn [negb] in H.
  destruct (transform_openai_to_dify mode (hq_json request) chat_completions)
    as [[dify_request|]|e]; try discriminate.
  apply forward_upstream_key in H. subst key.
  repeat split; [apply truthy_true; exact T | eauto].
Qed.

(** A streaming request for the model ["app"]. *)
Lemma upstream_is_reached_with_the_registered_key_witness :
  authorized [str "k1"] (Some (str "Bearer k1")) = true
  /\ get_api_key manager_app (str "app") = Some (str "up")
  /\ str "up" <> []
  /\ exists dify_request,
      transform_openai_to_dify 1
        (OpenAIRequest
           (Some [Message (Some (str "user")) (Some (str "hi"))])
           (Some true) None (Some (str "app")))
        chat_completions = Ok (Some dify_request).
Proof.
  apply (upstream_is_reached_with_the_registered_key [str "k1"] 1
           manager_app post_fails 0
           (request_k1
              (OpenAIRequest
                 (Some [Message (Some (str "user")) (Some (str "hi"))])
                 (Some true) None (Some (str "app"))))
           (str "up")).
  reflexivity.
Defined.

(** X23. A request that passes the key check for a model the registry
    has no key for, or an empty one, is refused with status 404 and the
    code ["model_not_found"], and the message lists the registered names;
    nothing is translated or sent upstream. *)
Theorem unknown_model_is_refused_404 :
  forall keys mode manager post now request,
    authorized keys (hq_authorization request) = true ->
    truthy_opt (get_api_key manager (requested_model request)) = false ->
    chat_completions_handler keys mode manager post now request
    = Refused 404
        (str "Model " ++ requested_model request
         ++ str " is not supported. Available models: "
         ++ join (str ", ") (dict_keys (name_to_api_key manager)))
        (str "invalid_request_error") (Some (str "model_not_found")).
Proof.
  intros keys mode manager post now request A G.
  rewrite (handler_authorized keys mode manager post now request A).
  cbn zeta. rewrite G. reflexivity.
Qed.

(** The model ["X"], unknown to a registry that knows ["app"]. *)
Lemma unknown_model_is_refused_404_witness :
  chat_completions_handler [str "k1"] 1 manager_app post_fails 0
    (request_k1
       (OpenAIRequest (Some [Message (Some (str "user")) (Some (str "hi"))])
          None None (Some (str "X"))))
  = Refused 404
      (str "Model X is not supported. Available models: app")
      (str "invalid_request_error") (Some (str "model_not_found")).
Proof.
  apply (unknown_model_is_refused_404 [str "k1"] 1 manager_app post_fails 0
           (request_k1
              (OpenAIRequest
                 (Some [Message (Some (str "user")) (Some (str "hi"))])
                 None None (Some (str "X")))));
    reflexivity.
Defined.

(** X24. A request that passes the key check for a registered model, and
    whose last message is not a system message and has no [content] key,
    is answered with status 500 built from [KeyError('content')], in
    every memory mode; nothing is sent upstream. *)
Theorem unreadable_request_is_a_500 :
  forall keys mode manager post now request prior final,
    authorized keys (hq_authorization request) = true ->
    truthy_opt (get_api_key manager (requested_model request)) = true ->
    req_messages (hq_json request) = Some (prior ++ [final]) ->
    readable final = false ->
    chat_completions_handler keys mode manager post now request
    = InternalError (KeyError "content").
Proof.
  intros keys mode manager post now request prior final A G M R.
  rewrite (handler_authorized keys mode manager post now request A).
  cbn zeta. rewrite G. cbn [negb].
  destruct (hq_json request) as [messages stream user model].
  cbn [req_messages] in M. subst messages.
  destruct (Z.eq_dec mode 2) as [-> | N].
  - rewrite transform_zero_width, R. reflexivity.
  - rewrite (transform_history mode prior final stream user model N), R.
    reflexivity.
Qed.

Lemma unreadable_request_is_a_500_witness :
  chat_completions_handler [str "k1"] 2 manager_app post_fails 0
    (request_k1
       (OpenAIRequest (Some ([] ++ [Message (Some (str "user")) None]))
          None None (Some (str "app"))))
  = InternalError (KeyError "content").
Proof.
  apply (unreadable_request_is_a_500 [str "k1"] 2 manager_app post_fails 0
           (request_k1
              (OpenAIRequest (Some ([] ++ [Message (Some (str "user")) None]))
                 None None (Some (str "app"))))
           [] (Message (Some (str "user")) None));
    reflexivity.
Defined.

(** X25. The refusal with status 400, ["Invalid request format"], is never
    returned: the translation of a chat request never yields nothing. *)
Theorem invalid_request_format_is_unreachable :
  forall keys mode manager post now request,
    refused_with 400
      (chat_completions_handler keys mode manager post now request) = false.
Proof.
  intros keys mode manager post now request.
  destruct (authorized keys (hq_authorization request)) eqn:A.
  - rewrite (handler_authorized keys mode manager post now request A).
    cbn zeta. destruct (negb (truthy_opt _)); [reflexivity|].
    pose proof (transform_never_none mode (hq_json request)) as N.
    destruct (transform_openai_to_dify mode (hq_json request)
                chat_completions) as [[dify_request|]|e];
      [|contradiction | reflexivity].
    unfold forward.
    destruct (req_stream (hq_json request)) as [[|]|]; try reflexivity;
      (destruct (post _ dify_request) as [response|message];
       [destruct (sync_response mode now _ response)|]; reflexivity).
  - pose proof (handler_unauthorized keys mode manager post now request A)
      as R.
    destruct (chat_completions_handler keys mode manager post now request)
      as [status message type [code|]| | |]; try discriminate.
    cbn [is_auth_refusal] in R. apply andb_true_iff in R as [S _].
    apply Z.eqb_eq in S. subst status. reflexivity.
Qed.

(** ** DifyModelManager and the keys of the environment *)

(** X26. After a refresh, whatever the maps held before, a model name
    resolves to the last key of [api_keys] whose fetched application name
    is that name and is not empty, and to nothing when there is no such
    key: a key whose fetch fails or gives an empty name registers nothing,
    and of two keys with the same name the later wins. *)
Theorem refresh_maps_name_to_last_key :
  forall info manager name,
    get_api_key (refresh_model_info info manager) name
    = find (fun key => opt_is (registered_name info key) name)
        (rev (api_keys manager)).
Proof. exact get_api_key_refreshed. Qed.

(** X27. After a refresh the two maps agree: the key a name resolves to
    is a key of [api_keys], it was fetched under that name, and
    [api_key_to_name] maps it back to the name. *)
Theorem registry_maps_agree :
  forall info manager name key,
    get_api_key (refresh_model_info info manager) name = Some key ->
    In key (api_keys manager)
    /\ registered_name info key = Some name
    /\ dict_get (api_key_to_name (refresh_model_info info manager)) key
       = Some name.
Proof.
  intros info manager name key H.
  destruct (get_api_key_refreshed_inv info manager name key H) as [Hin Hr].
  split; [exact Hin|]. split; [exact Hr|].
  destruct (refresh_model_info_maps info manager) as [_ [-> _]].
  rewrite refresh_loop_keys.
  replace (existsb _ (api_keys manager)) with true; [exact Hr|].
  symmetry. apply existsb_exists. exists key.
  split; [exact Hin|]. rewrite text_eqb_refl, Hr. reflexivity.
Qed.

(** The name ["app"], fetched for ["k1"] and ["k3"], resolves to ["k3"]. *)
Lemma registry_maps_agree_witness :
  In (str "k3") (api_keys manager_stale)
  /\ registered_name info_app (str "k3") = Some (str "app")
  /\ dict_get (api_key_to_name (refresh_model_info info_app manager_stale))
       (str "k3") = Some (str "app").
Proof.
  apply (registry_maps_agree info_app manager_stale (str "app") (str "k3")).
  reflexivity.
Defined.

(** X28. The model list of [list_models] names each registered
    application once, and exactly the names that resolve: every listed id
    resolves to a key of [api_keys] fetched under it, and every name that
    resolves is listed. *)
Theorem listed_models_resolve :
  forall info now manager,
    let manager' := fst (list_models info now manager) in
    let entries := snd (list_models info now manager) in
    NoDup (map me_id entries)
    /\ forall name,
        In name (map me_id entries)
        <-> exists key,
            get_api_key manager' name = Some key
            /\ In key (api_keys manager)
            /\ registered_name info key = Some name.
Proof.
  intros info now manager. cbn zeta. unfold list_models. cbn [fst snd].
  unfold get_available_models. rewrite map_map. cbn [me_id]. rewrite map_id.
  split.
  - destruct (refresh_model_info_maps info manager) as [-> _].
    apply refresh_loop_NoDup. constructor.
  - intros name. rewrite dict_get_keys. fold (get_api_key
      (refresh_model_info info manager) name). split.
    + intros [key H]. exists key. split; [exact H|].
      apply (get_api_key_refreshed_inv info manager name key H).
    + intros [key [H _]]. exists key. exact H.
Qed.

(** The stale registry after a refresh lists ["app"] alone. *)
Lemma listed_models_resolve_witness :
  NoDup (map me_id (snd (list_models info_app 7 manager_stale)))
  /\ (In (str "app") (map me_id (snd (list_models info_app 7 manager_stale)))
      <-> exists key,
          get_api_key (fst (list_models info_app 7 manager_stale)) (str "app")
          = Some key
          /\ In key (api_keys manager_stale)
          /\ registered_name info_app key = Some (str "app")).
Proof.
  destruct (listed_models_resolve info_app 7 manager_stale) as [N H].
  split; [exact N | exact (H (str "app"))].
Defined.

Lemma strip_nil_truthy (piece : text) :
  truthy (strip piece) = true -> truthy piece = true.
Proof. destruct piece; [discriminate | reflexivity]. Qed.

Lemma filter_truthy_strip (pieces : list text) :
  filter truthy (map strip (filter truthy pieces))
  = map strip (filter (fun key => truthy (strip key)) pieces).
Proof.
  induction pieces as [|piece pieces IH]; [reflexivity|].
  cbn [filter].
  destruct (truthy (strip piece)) eqn:S.
  - rewrite (strip_nil_truthy piece S). cbn [map filter].
    rewrite S, IH. reflexivity.
  - destruct (truthy piece); [|exact IH].
    cbn [map filter]. rewrite S. exact IH.
Qed.

(** X29. [load_api_keys] keeps exactly the pieces of the variable between
    commas that are not empty once stripped, each stripped of the white
    space at its ends: a key is kept exactly when it is such a piece,
    stripped, so every kept key is non-empty and stripped.
    [VALID_API_KEYS] is read the same way except that a piece is tested
    before it is stripped: its keys are exactly the non-empty pieces,
    stripped, and those of its keys that are not empty are, in the same
    order, the keys [load_api_keys] keeps for the same value. *)
Theorem loaded_keys_are_stripped :
  forall value,
    (forall key,
        In key (load_api_keys value)
        <-> exists piece,
            In piece (split_on COMMA (get_default value))
            /\ strip piece <> [] /\ key = strip piece)
    /\ (forall key,
           In key (valid_api_keys value)
           <-> exists piece,
               In piece (split_on COMMA (get_default value))
               /\ piece <> [] /\ key = strip piece)
    /\ (forall key,
           In key (load_api_keys value) -> key <> [] /\ strip key = key)
    /\ (forall key, In key (valid_api_keys value) -> strip key = key)
    /\ filter truthy (valid_api_keys value) = load_api_keys value.
Proof.
  intros value.
  assert (L : load_api_keys value
              = map strip (filter (fun key => truthy (strip key))
                             (split_on COMMA (get_default value)))).
  { unfold load_api_keys.
    destruct (get_default value) as [|c s]; reflexivity. }
  split; [|split; [|split; [|split]]].
  - intros key. rewrite L, in_map_iff. split.
    + intros [piece [<- H]]. apply filter_In in H as [Hin T].
      exists piece. repeat split; [exact Hin | apply truthy_true; exact T].
    + intros [piece [Hin [N ->]]]. exists piece.
      split; [reflexivity|]. apply filter_In.
      split; [exact Hin | apply truthy_true; exact N].
  - intros key. unfold valid_api_keys. rewrite in_map_iff. split.
    + intros [piece [<- H]]. apply filter_In in H as [Hin T].
      exists piece. repeat split; [exact Hin | apply truthy_true; exact T].
    + intros [piece [Hin [N ->]]]. exists piece.
      split; [reflexivity|]. apply filter_In.
      split; [exact Hin | apply truthy_true; exact N].
  - apply load_api_keys_stripped.
  - intros key H. unfold valid_api_keys in H.
    apply in_map_iff in H as [piece [<- _]]. apply strip_idempotent.
  - rewrite L. apply filter_truthy_strip.
Qed.

(** The value [" a, ,b ,"] gives the keys ["a"] and ["b"]; as
    [VALID_API_KEYS] it gives the empty key as well. *)
Lemma loaded_keys_are_stripped_witness :
  load_api_keys (Some (str " a, ,b ,")) = [str "a"; str "b"]
  /\ valid_api_keys (Some (str " a, ,b ,")) = [str "a"; []; str "b"]
  /\ In (str "b") (load_api_keys (Some (str " a, ,b ,")))
  /\ filter truthy (valid_api_keys (Some (str " a, ,b ,")))
     = load_api_keys (Some (str " a, ,b ,")).
Proof.
  split; [reflexivity|]. split; [reflexivity|].
  destruct (loaded_keys_are_stripped (Some (str " a, ,b ,")))
    as [Hload [_ [_ [_ Hsame]]]].
  split; [|exact Hsame].
  apply Hload. exists (str "b ").
  split; [right; right; left; reflexivity|].
  split; [discriminate | reflexivity].
Defined.

(** X30. A model that [list_models] lists is not refused as unknown: with
    the keys of [load_api_keys] in the registry, a request that passes the
    key check and names a listed model is not answered with the status
    404 of the handler, as long as the registry is the refreshed one. *)
Theorem listed_model_is_not_refused :
  forall value info list_time keys mode post now request n2k k2n model,
    let manager := ModelManager (load_api_keys value) n2k k2n in
    In model
      (map me_id (snd (list_models info list_time manager))) ->
    authorized keys (hq_authorization request) = true ->
    req_model (hq_json request) = Some model ->
    refused_with 404
      (chat_completions_handler keys mode
         (fst (list_models info list_time manager)) post now request)
    = false.
Proof.
  intros value info list_time keys mode post now request n2k k2n model
    manager Hin A M.
  destruct (listed_models_resolve info list_time manager) as [_ H].
  apply H in Hin as [key [G [Hk _]]].
  apply load_api_keys_stripped in Hk as [N _].
  rewrite (handler_authorized keys mode _ post now request A).
  cbn zeta. unfold requested_model. rewrite M, G.
  cbn [truthy_opt get_default]. apply truthy_true in N. rewrite N.
  cbn [negb].
  destruct (transform_openai_to_dify mode (hq_json request) chat_completions)
    as [[dify_request|]|e]; try reflexivity.
  unfold forward.
  destruct (req_stream (hq_json request)) as [[|]|]; try reflexivity;
    (destruct (post _ dify_request) as [response|message];
     [destruct (sync_response mode now _ response)|]; reflexivity).
Qed.

(** The keys ["k1"] and ["k3"] from the environment, the model ["app"]. *)
Lemma listed_model_is_not_refused_witness :
  refused_with 404
    (chat_completions_handler [str "k1"] 1
       (fst (list_models info_app 7
               (ModelManager (load_api_keys (Some (str "k1, k3"))) [] [])))
       post_fails 0
       (request_k1
          (OpenAIRequest (Some [Message (Some (str "user")) (Some (str "hi"))])
             None None (Some (str "app")))))
  = false.
Proof.
  apply (listed_model_is_not_refused (Some (str "k1, k3")) info_app 7
           [str "k1"] 1 post_fails 0
           (request_k1
              (OpenAIRequest
                 (Some [Message (Some (str "user")) (Some (str "hi"))])
                 None None (Some (str "app"))))
           [] [] (str "app"));
    [left; reflexivity | reflexivity | reflexivity].
Defined.
